(** * Rustinity leaderboard bot: watch, spike and trend engine

    A shallow embedding of the metric-watch and trend-detection core of the
    bot, taken from

      - [src/rustinity_bot/storage.py]           (snapshot log, watch registry)
      - [src/rustinity_bot/rustinity_client.py]  (metric table, fetch wrappers)
      - [src/rustinity_bot/watchers.py]          (delta caches, alerts, poll cycle)
      - [src/rustinity_bot/embeds.py]            (12 hour trend view)

    Conventions of the embedding.

      - A Python [str] is a [string] of bytes; [str.lower] and [str.strip]
        act on the ASCII range.
      - A Python [float] read from the API is a [PyFloat]: a finite value,
        kept as the exact rational [Q], an infinity or the NaN.  Arithmetic
        on finite values is exact (rounding and overflow are outside the
        model).  The values of the history table and of the trend view are
        rationals; an infinity written to the table is beyond what the table
        of this model holds (see [stored_real]).
      - A call that an exception can leave yields an [Outcome]: its result,
        or the module state at the point where the exception left it.
        Exceptions of the SQLite layer are outside the model.
      - A [dict] is a [gmap], a [set] a [gset]; a dict that is only iterated
        ([stats.items()], the result of [get_clan_metric_changes]) is an
        association list in iteration order.
      - A SQLite table with a single primary-key column is a [gset]; the
        history table is the list of its rows in insertion order.
      - Everything outside the process (Discord channel, HTTP endpoint, wall
        clock) is an oracle of the record [World], asked at a position of the
        effect trace, so that two calls may be answered differently.
      - Every effect the code performs on the outside or on its module-level
        caches is appended, in program order, to the ghost field [trace]. *)

From Stdlib Require Import ZArith QArith Lqa String Ascii List Bool Lia Sorted.
From stdpp Require Import base gmap strings list sorting.

Open Scope string_scope.
Open Scope list_scope.

(** ** Python string helpers *)

Module PyStr.

(** [str.lower] on one ASCII character. *)
Definition lower_char (c : ascii) : ascii :=
    let n := nat_of_ascii c in
    if ((65 <=? n) && (n <=? 90))%nat then ascii_of_nat (n + 32) else c.

Fixpoint lower (s : string) : string :=
  match s with
  | EmptyString => EmptyString
  | String c rest => String (lower_char c) (lower rest)
  end.

(** [str.isspace] on one ASCII character: TAB, LF, VT, FF, CR, the four
    separators 0x1c..0x1f and the blank. *)
Definition isspace (c : ascii) : bool :=
    let n := nat_of_ascii c in
    (((9 <=? n) && (n <=? 13)) || ((28 <=? n) && (n <=? 32)))%nat.

Fixpoint lstrip (s : string) : string :=
  match s with
  | EmptyString => EmptyString
  | String c rest => if isspace c then lstrip rest else s
  end.

Fixpoint rstrip (s : string) : string :=
  match s with
  | EmptyString => EmptyString
  | String c rest =>
      match rstrip rest with
      | EmptyString => if isspace c then EmptyString else String c EmptyString
      | kept => String c kept
      end
  end.

Definition strip (s : string) : string := rstrip (lstrip s).

(** Truth value of a string: only the empty string is falsy. *)
Definition truthy (s : string) : bool :=
    match s with
    | EmptyString => false
    | String _ _ => true
    end.

(** [d.get(k) or fallback] for a string-valued entry: an absent key gives
    [None], and both [None] and the empty string are falsy. *)
Definition get_or (entry : option string) (fallback : string) : string :=
    match entry with
    | Some s => if truthy s then s else fallback
    | None => fallback
    end.

End PyStr.

(** ** Leaderboard rows

    The upstream API returns each entry as a JSON object; the watchers read
    the fields below from it with [row.get].  An entry that is an object is
    taken with fields of these types: a textual field is a string when it is
    present ([None] stands for a missing key, and where the field is read as
    [row.get(k) or ...] also for a JSON null, which has the same effect
    there), the rank is an integer when it is present, and [stats] is the
    item list of the dict under ["stats"] (empty when the key is missing or
    null).  The values of the stats are whatever the JSON holds.  An element
    of the list of entries that is not an object is an [Entry] of its own. *)

Module Leaderboard.

(** A Python [float]: a finite value, kept as the exact rational (arithmetic
    on finite values is taken without rounding), an infinity, or the NaN. *)
Inductive PyFloat : Type :=
  | Finite (q : Q)
  | PosInf
  | NegInf
  | NaN.

(** [a - b] *)
Definition py_sub (a b : PyFloat) : PyFloat :=
    match a, b with
    | NaN, _ | _, NaN => NaN
    | Finite x, Finite y => Finite (x - y)
    | Finite _, PosInf => NegInf
    | Finite _, NegInf => PosInf
    | PosInf, PosInf => NaN
    | PosInf, _ => PosInf
    | NegInf, NegInf => NaN
    | NegInf, _ => NegInf
    end.

(** [a <= q] for a number [q]; a comparison with the NaN is false. *)
Definition py_le (a : PyFloat) (q : Q) : bool :=
    match a with
    | Finite x => Qle_bool x q
    | NegInf => true
    | PosInf | NaN => false
    end.

(** [a < q] for a number [q]. *)
Definition py_lt (a : PyFloat) (q : Q) : bool :=
    match a with
    | Finite x => negb (Qle_bool q x)
    | NegInf => true
    | PosInf | NaN => false
    end.

(** [int(a)], as far as the number that is truncated; [None] for the
    [OverflowError] of an infinity and the [ValueError] of the NaN. *)
Definition py_int (a : PyFloat) : option Q :=
    match a with
    | Finite x => Some x
    | PosInf | NegInf | NaN => None
    end.

(** A stat value, classified by what [float(v)] makes of it: a finite
    number; an infinity or the NaN (the JSON literals [Infinity],
    [-Infinity] and [NaN], a JSON number beyond the float range such as
    [1e999], the strings ["inf"] and ["nan"]); a [TypeError] or [ValueError]
    (a null, a list, an object, a string that is no number); or the
    [OverflowError] of an integer too large for a float. *)
Inductive StatValue : Type :=
  | Numeric (q : Q)
  | PositiveInfinity
  | NegativeInfinity
  | NotANumber
  | NotNumeric
  | TooLarge.

(** How [try: current_val = float(v) / except (TypeError, ValueError):
    continue] goes on: with a float, with the next iteration, or with an
    [OverflowError] that the handler does not catch. *)
Inductive Converted : Type :=
  | Float (x : PyFloat)
  | Skipped
  | Overflow.

Definition py_float (v : StatValue) : Converted :=
    match v with
    | Numeric q => Float (Finite q)
    | PositiveInfinity => Float PosInf
    | NegativeInfinity => Float NegInf
    | NotANumber => Float NaN
    | NotNumeric => Skipped
    | TooLarge => Overflow
    end.

(** [float(d.get(key))]: a missing key gives [None], a [TypeError]. *)
Definition py_float_of (v : option StatValue) : Converted :=
    match v with
    | Some v => py_float v
    | None => Skipped
    end.

Record Row : Type := mkRow {
  name : option string;
  clanName : option string;
  steamId : option string;
  username : option string;
  rank : option Z;
  stats : list (string * StatValue)
}.

(** An element of the list of entries: a JSON object, or anything else (a
    null, a number, a string, a list), on which [row.get] raises
    [AttributeError]. *)
Inductive Entry : Type :=
  | Object (row : Row)
  | NotAnObject.

(** [stats.get(key)] on the association list of a dict. *)
Fixpoint dict_get {V : Type} (key : string) (d : list (string * V)) : option V :=
  match d with
  | [] => None
  | (k, v) :: rest => if String.eqb k key then Some v else dict_get key rest
  end.

(** [str(row.get("name") or row.get("clanName") or "").strip()] *)
Definition clan_name_raw (row : Row) : string :=
    PyStr.strip (PyStr.get_or (name row) (PyStr.get_or (clanName row) "")).

(** [str(row.get("steamId", "")).strip()] *)
Definition steam_id_of (row : Row) : string :=
    PyStr.strip (default "" (steamId row)).

End Leaderboard.

(** ** Configuration ([config.py]) *)

Module Config.

(** The fields of [Settings] that the engine reads. *)
Record Settings : Type := mkSettings {
  clan_name : string;
  alert_role_id : option Z;
  watch_clan_names : gset string;
  watch_player_ids : gset string;
  player_clan_overrides : gmap string string
}.

(** [if settings.alert_role_id:] is false for [None] and for [0]. *)
Definition role_mention (cfg : Settings) : option Z :=
    match alert_role_id cfg with
    | Some r => if (r =? 0)%Z then None else Some r
    | None => None
    end.

End Config.

(** ** Storage ([storage.py]) *)

Module Storage.

(** One row of table [clan_metric_history]; the autoincrement id is the
    position in the list. *)
Record Snapshot : Type := mkSnapshot {
  metric_key : string;
  clan_name : string;
  ts : Z;
  rank : option Z;
  value : option Q
}.

Record Database : Type := mkDatabase {
  clan_metric_history : list Snapshot;
  watch_clans : gset string;
  watch_players : gset string
}.

(** The store before the first [init_db]: no table has a row. *)
Definition empty_db : Database :=
    {| clan_metric_history := []; watch_clans := ∅; watch_players := ∅ |}.

(** [init_db]: the tables are kept ([CREATE TABLE IF NOT EXISTS]) and the
    watch tables are seeded from the configuration with [INSERT OR IGNORE],
    clan names in lower case. *)
Definition init_db (cfg : Config.Settings) (db : Database) : Database :=
    {| clan_metric_history := clan_metric_history db;
       watch_clans := set_map PyStr.lower (Config.watch_clan_names cfg) ∪ watch_clans db;
       watch_players := Config.watch_player_ids cfg ∪ watch_players db |}.

(** [add_clan_metric_snapshot]; [now] is the clock reading used when no
    [ts] is passed. *)
Definition add_clan_metric_snapshot (now : Z) (metric : string) (clan : string)
      (rk : option Z) (val : option Q) (ts_arg : option Z) (db : Database) : Database :=
    let stamp := default now ts_arg in
    {| clan_metric_history :=
         clan_metric_history db ++ [mkSnapshot metric clan stamp rk val];
       watch_clans := watch_clans db;
       watch_players := watch_players db |}.

(** The entry of one clan in the result of [get_clan_metric_changes]. *)
Record Change : Type := mkChange {
  start_val : Q;
  end_val : Q;
  latest_rank : Z
}.

(** [WHERE metric_key = ? AND ts >= ?] *)
Definition in_window (metric : string) (cutoff : Z) (s : Snapshot) : bool :=
    String.eqb (metric_key s) metric && (cutoff <=? ts s)%Z.

(** [GROUP BY clan_name] with [MIN(ts)], [MAX(ts)]: one pass over the
    selected rows, groups in order of first appearance. *)
Fixpoint group_upsert (clan : string) (t : Z) (groups : list (string * (Z * Z)))
    : list (string * (Z * Z)) :=
  match groups with
  | [] => [(clan, (t, t))]
  | (c, (lo, hi)) :: rest =>
      if String.eqb c clan
      then (c, (Z.min lo t, Z.max hi t)) :: rest
      else (c, (lo, hi)) :: group_upsert clan t rest
  end.

Definition group_by_clan (selected : list Snapshot) : list (string * (Z * Z)) :=
    fold_left (fun groups s => group_upsert (clan_name s) (ts s) groups) selected [].

(** [WHERE metric_key = ? AND clan_name = ? AND ts = ? LIMIT 1]: the first
    matching row in insertion order. *)
Definition row_at (metric clan : string) (t : Z) (db : Database) : option Snapshot :=
    find (fun s => String.eqb (metric_key s) metric
                   && String.eqb (clan_name s) clan
                   && (ts s =? t)%Z)
         (clan_metric_history db).

(** [get_clan_metric_changes(metric_key, hours)], with [now] the reading
    of [int(time.time())].  SQLite fixes neither the order of the groups nor
    the row that [LIMIT 1] picks among equal timestamps; here they are the
    order of first appearance and the first row inserted. *)
Definition get_clan_metric_changes (now : Z) (metric : string) (hours : Z)
      (db : Database) : list (string * Change) :=
    let cutoff := (now - hours * 3600)%Z in
    let rows := group_by_clan (List.filter (in_window metric cutoff)
                                           (clan_metric_history db)) in
    map (fun '(clan, (first_ts, last_ts)) =>
           let first_row := row_at metric clan first_ts db in
           let last_row := row_at metric clan last_ts db in
           (clan,
            {| start_val := default 0%Q (first_row ≫= value);
               end_val := default 0%Q (last_row ≫= value);
               latest_rank := default 0%Z (last_row ≫= rank) |}))
        rows.

(** [add_watch_clan] *)
Definition add_watch_clan (clan : string) (db : Database) : Database :=
    if PyStr.truthy clan
    then {| clan_metric_history := clan_metric_history db;
            watch_clans := {[ PyStr.lower clan ]} ∪ watch_clans db;
            watch_players := watch_players db |}
    else db.

(** [remove_watch_clan] *)
Definition remove_watch_clan (clan : string) (db : Database) : Database :=
    if PyStr.truthy clan
    then {| clan_metric_history := clan_metric_history db;
            watch_clans := watch_clans db ∖ {[ PyStr.lower clan ]};
            watch_players := watch_players db |}
    else db.

Definition get_watch_clans (db : Database) : gset string := watch_clans db.

(** [add_watch_player] *)
Definition add_watch_player (steam_id : string) (db : Database) : Database :=
    if PyStr.truthy steam_id
    then {| clan_metric_history := clan_metric_history db;
            watch_clans := watch_clans db;
            watch_players := {[ steam_id ]} ∪ watch_players db |}
    else db.

(** [remove_watch_player] *)
Definition remove_watch_player (steam_id : string) (db : Database) : Database :=
    if PyStr.truthy steam_id
    then {| clan_metric_history := clan_metric_history db;
            watch_clans := watch_clans db;
            watch_players := watch_players db ∖ {[ steam_id ]} |}
    else db.

Definition get_watch_players (db : Database) : gset string := watch_players db.

End Storage.

(** ** Upstream client ([rustinity_client.py]) *)

Module RustinityClient.

Import Leaderboard.

Record MetricConfig : Type := mkMetric {
  group : string;
  sortBy : string;
  label : string
}.

(** The items of the dict [METRICS], in source order. *)
Definition METRICS_items : list (string * MetricConfig) := [
    ("pvp_kills", mkMetric "pvp" "kill_player" "PvP Kills");
    ("pvp_deaths", mkMetric "pvp" "death_player" "PvP Deaths");
    ("pve_sharks", mkMetric "pve" "killed_shark" "Sharks Killed");
    ("pve_chickens", mkMetric "pve" "killed_chicken" "Chickens Killed");
    ("pve_patrol_heli", mkMetric "pve" "killed_patrolheli" "Patrol Helicopters Killed");
    ("pve_bradleys", mkMetric "pve" "killed_bradley" "Bradleys Killed");
    ("pve_scientists", mkMetric "pve" "killed_scientist" "Scientists Killed");
    ("pve_tunnel_dwellers", mkMetric "pve" "killed_tunneldweller" "Tunnel Dwellers Killed");
    ("pve_bears", mkMetric "pve" "killed_bear" "Bears Killed");
    ("pve_deer", mkMetric "pve" "killed_deer" "Deer Killed");
    ("pve_polar_bears", mkMetric "pve" "killed_polarbear" "Polar Bears Killed");
    ("pve_boars", mkMetric "pve" "killed_boar" "Boars Killed");
    ("pve_wolves", mkMetric "pve" "killed_wolf" "Wolves Killed");
    ("pve_underwater_dwellers", mkMetric "pve" "killed_underwaterdweller" "Underwater Dwellers Killed");
    ("gambling_poker_won", mkMetric "gambling" "gambling_pokerwon" "Poker Winnings");
    ("gambling_poker_deposited", mkMetric "gambling" "gambling_pokerdeposited" "Poker Deposited");
    ("gambling_slot_won", mkMetric "gambling" "gambling_slotwon" "Slots Winnings");
    ("gambling_slot_deposited", mkMetric "gambling" "gambling_slotdeposited" "Slots Deposited");
    ("gambling_wheel_won", mkMetric "gambling" "gambling_wheelwon" "Wheel Winnings");
    ("gambling_wheel_deposited", mkMetric "gambling" "gambling_wheeldeposited" "Wheel Deposited");
    ("gambling_blackjack_deposited", mkMetric "gambling" "gambling_blackjackdeposited" "Blackjack Deposited");
    ("gambling_blackjack_won", mkMetric "gambling" "gambling_blackjackwon" "Blackjack Winnings");
    ("looted_oil_barrels", mkMetric "looted" "looted_oilbarrel" "Oil Barrels Looted");
    ("looted_crates", mkMetric "looted" "looted_crate" "Crates Looted");
    ("looted_hackable", mkMetric "looted" "looted_hackablecrate" "Hackable Crates Looted");
    ("looted_barrels", mkMetric "looted" "looted_barrel" "Barrels Looted");
    ("looted_bradley_crates", mkMetric "looted" "looted_bradleycrate" "Bradley Crates Looted");
    ("looted_heli_crates", mkMetric "looted" "looted_helicrate" "Heli Crates Looted");
    ("looted_supply_drops", mkMetric "looted" "looted_supplydrop" "Supply Drops Looted");
    ("looted_elite_crates", mkMetric "looted" "looted_elitecrate" "Elite Crates Looted");
    ("build_foundation", mkMetric "building" "build_foundation" "Foundations Built");
    ("build_foundation_triangle", mkMetric "building" "build_foundation.triangle" "Triangle Foundations Built");
    ("build_floor_triangle", mkMetric "building" "build_floor.triangle" "Triangle Floors Built");
    ("build_floor", mkMetric "building" "build_floor" "Floors Built");
    ("build_foundation_steps", mkMetric "building" "build_foundation.steps" "Foundation Steps Built");
    ("build_floor_frame", mkMetric "building" "build_floor.frame" "Floor Frames Built");
    ("build_floor_triangle_frame", mkMetric "building" "build_floor.triangle.frame" "Triangle Floor Frames Built");
    ("build_wall_low", mkMetric "building" "build_wall.low" "Low Walls Built");
    ("build_wall", mkMetric "building" "build_wall" "Walls Built");
    ("build_wall_window", mkMetric "building" "build_wall.window" "Window Walls Built");
    ("build_wall_half", mkMetric "building" "build_wall.half" "Half Walls Built");
    ("build_wall_frame", mkMetric "building" "build_wall.frame" "Wall Frames Built");
    ("build_wall_doorway", mkMetric "building" "build_wall.doorway" "Doorways Built");
    ("build_stairs_spiral", mkMetric "building" "build_stairs.spiral" "Spiral Stairs Built");
    ("build_stairs_u", mkMetric "building" "build_stairs.u" "U Stairs Built");
    ("build_stairs_spiral_triangle", mkMetric "building" "build_stairs.spiral.triangle" "Spiral Triangle Stairs Built");
    ("build_stairs_l", mkMetric "building" "build_stairs.l" "L Stairs Built");
    ("build_roof", mkMetric "building" "build_roof" "Roofs Built");
    ("build_roof_triangle", mkMetric "building" "build_roof.triangle" "Triangle Roofs Built");
    ("build_ramp", mkMetric "building" "build_ramp" "Ramps Built");
    ("placed_external_stone_gate", mkMetric "item_placed" "build_gates.external.high.stone" "Stone External Gates Placed");
    ("placed_sleeping_bags", mkMetric "item_placed" "build_sleepingbag_leather_deployed" "Sleeping Bags Placed");
    ("placed_beds", mkMetric "item_placed" "build_bed_deployed" "Beds Placed");
    ("placed_lockers", mkMetric "item_placed" "build_locker.deployed" "Lockers Placed");
    ("placed_gun_traps", mkMetric "item_placed" "build_guntrap.deployed" "Gun Traps Placed");
    ("placed_tc", mkMetric "item_placed" "build_cupboard.tool.deployed" "Tool Cupboards Placed");
    ("placed_vending_machines", mkMetric "item_placed" "build_vendingmachine.deployed" "Vending Machines Placed");
    ("placed_small_wood_boxes", mkMetric "item_placed" "build_woodbox_deployed" "Small Wood Boxes Placed");
    ("placed_flame_turrets", mkMetric "item_placed" "build_flameturret.deployed" "Flame Turrets Placed");
    ("placed_sam_sites", mkMetric "item_placed" "build_sam_site_turret_deployed" "SAM Sites Placed");
    ("placed_furnaces", mkMetric "item_placed" "build_furnace" "Furnaces Placed");
    ("placed_large_furnaces", mkMetric "item_placed" "build_furnace.large" "Large Furnaces Placed");
    ("placed_external_ice_walls", mkMetric "item_placed" "build_wall.external.high.ice" "High External Ice Walls Placed");
    ("placed_external_stone_walls", mkMetric "item_placed" "build_wall.external.high.stone" "High External Stone Walls Placed");
    ("placed_external_wood_walls", mkMetric "item_placed" "build_wall.external.high.wood" "High External Wood Walls Placed");
    ("placed_large_wood_boxes", mkMetric "item_placed" "build_box.wooden.large" "Large Wood Boxes Placed");
    ("placed_external_wood_gates", mkMetric "item_placed" "build_gates.external.high.wood" "Wood External Gates Placed");
    ("recycled_propanetanks", mkMetric "recycled" "recycled_propanetank" "Propane Tanks Recycled");
    ("recycled_techparts", mkMetric "recycled" "recycled_techparts" "Tech Trash Recycled");
    ("recycled_smg_bodies", mkMetric "recycled" "recycled_smgbody" "SMG Bodies Recycled");
    ("recycled_metal_blades", mkMetric "recycled" "recycled_metalblade" "Metal Blades Recycled");
    ("recycled_fuses", mkMetric "recycled" "recycled_fuse" "Fuses Recycled");
    ("recycled_sheet_metal", mkMetric "recycled" "recycled_sheetmetal" "Sheet Metal Recycled");
    ("recycled_rope", mkMetric "recycled" "recycled_rope" "Rope Recycled");
    ("recycled_tarp", mkMetric "recycled" "recycled_tarp" "Tarp Recycled");
    ("recycled_sewing_kits", mkMetric "recycled" "recycled_sewingkit" "Sewing Kits Recycled");
    ("recycled_roadsigns", mkMetric "recycled" "recycled_roadsigns" "Road Signs Recycled");
    ("recycled_metal_springs", mkMetric "recycled" "recycled_metalspring" "Metal Springs Recycled");
    ("recycled_semi_bodies", mkMetric "recycled" "recycled_semibody" "Semi Bodies Recycled");
    ("recycled_rifle_bodies", mkMetric "recycled" "recycled_riflebody" "Rifle Bodies Recycled");
    ("recycled_metal_pipes", mkMetric "recycled" "recycled_metalpipe" "Metal Pipes Recycled");
    ("recycled_gears", mkMetric "recycled" "recycled_gears" "Gears Recycled");
    ("gathered_metal_ore", mkMetric "gathered" "gathered_metal.ore" "Metal Ore Gathered");
    ("gathered_cactus_flesh", mkMetric "gathered" "gathered_cactusflesh" "Cactus Flesh Gathered");
    ("gathered_cloth", mkMetric "gathered" "gathered_cloth" "Cloth Gathered");
    ("gathered_sulfur_ore", mkMetric "gathered" "gathered_sulfur.ore" "Sulfur Ore Gathered");
    ("gathered_hqm_ore", mkMetric "gathered" "gathered_hq.metal.ore" "HQM Ore Gathered");
    ("gathered_animal_fat", mkMetric "gathered" "gathered_fat.animal" "Animal Fat Gathered");
    ("gathered_leather", mkMetric "gathered" "gathered_leather" "Leather Gathered");
    ("gathered_wood", mkMetric "gathered" "gathered_wood" "Wood Gathered");
    ("gathered_stone", mkMetric "gathered" "gathered_stones" "Stone Gathered");
    ("boom_rocket_hv", mkMetric "boom" "shot_ammo.rocket.hv" "HV Rockets Fired");
    ("boom_rocket_fire", mkMetric "boom" "shot_ammo.rocket.fire" "Fire Rockets Fired");
    ("boom_rocket_basic", mkMetric "boom" "shot_ammo.rocket.basic" "Rockets Fired");
    ("boom_beancan", mkMetric "boom" "thrown_grenade.beancan" "Beancan Grenades Thrown");
    ("boom_f1", mkMetric "boom" "thrown_grenade.f1" "F1 Grenades Thrown");
    ("boom_flashbang", mkMetric "boom" "thrown_grenade.flashbang" "Flashbangs Thrown");
    ("boom_molotov", mkMetric "boom" "thrown_grenade.molotov" "Molotovs Thrown");
    ("boom_satchel", mkMetric "boom" "thrown_explosive.satchel" "Satchels Thrown");
    ("boom_smoke_grenade", mkMetric "boom" "thrown_grenade.smoke" "Smoke Grenades Thrown");
    ("boom_catapult_incendiary", mkMetric "boom" "explode_catapult.ammo.incendiary" "Catapult Incendiary Ammo");
    ("boom_catapult_boulder", mkMetric "boom" "explode_catapult.ammo.boulder" "Catapult Boulder Ammo");
    ("boom_catapult_explosive", mkMetric "boom" "explode_catapult.ammo.explosive" "Catapult Explosive Ammo");
    ("boom_c4", mkMetric "boom" "thrown_explosive.timed" "Timed Explosives Thrown");
    ("boom_gl_he", mkMetric "boom" "shot_ammo.grenadelauncher.he" "GL HE Rounds Fired");
    ("boom_gl_smoke", mkMetric "boom" "shot_ammo.grenadelauncher.smoke" "GL Smoke Rounds Fired");
    ("boom_explosive_rifle", mkMetric "boom" "shot_ammo.rifle.explosive" "Explosive Rifle Rounds Fired")
  ].

Definition METRICS : gmap string MetricConfig := list_to_map METRICS_items.

Inductive BoardType : Type :=
  | ClanBoard
  | PlayerBoard.

(** The query of one [requests.get(BASE_URL, params=...)]; the server ids of
    [_build_common_params] are fixed for the process and left out. *)
Record Request : Type := mkRequest {
  req_type : BoardType;
  req_group : string;
  req_sortBy : string;
  req_limit : nat
}.

(** What the three lines [requests.get], [raise_for_status], [resp.json]
    can do: raise a [requests.RequestException], raise a [ValueError] while
    decoding, raise something else, or yield a decoded body.  Of the body
    only [data["data"]["entries"]] is read: [Some l] when it can be
    iterated, with the elements [l] as [list] yields them (the elements of a
    JSON list; the characters of a string and the keys of an object, none of
    which is an object); [None] when the path is missing or leads to a value
    that cannot be iterated. *)
Inductive HttpOutcome : Type :=
  | RequestException
  | InvalidJson
  | OtherException
  | JsonBody (entries : option (list Entry)).

(** The result of a fetch wrapper: an exception that escapes it, or the dict
    it returns (again reduced to its entries; the error dicts
    [{"success": False, ..., "data": {}}] have none). *)
Inductive Fetched : Type :=
  | Raised
  | Returned (entries : option (list Entry)).

Definition wrap_http (out : HttpOutcome) : Fetched :=
    match out with
    | RequestException => Returned None
    | InvalidJson => Returned None
    | OtherException => Raised
    | JsonBody entries => Returned entries
    end.

(** [fetch_leaderboard_for_metric(metric_key)], default [limit=50]; an
    unknown key raises [KeyError]. *)
Definition fetch_leaderboard_for_metric (http : Request -> HttpOutcome)
      (metric_key : string) : Fetched :=
    match METRICS !! metric_key with
    | None => Raised
    | Some cfg => wrap_http (http (mkRequest ClanBoard (group cfg) (sortBy cfg) 50))
    end.

(** [fetch_player_leaderboard(group, sort_by)], default [limit=50]. *)
Definition fetch_player_leaderboard (http : Request -> HttpOutcome)
      (grp sort_by : string) : Fetched :=
    wrap_http (http (mkRequest PlayerBoard grp sort_by 50)).

(** [parse_leaderboard_rows]: [list(data["data"]["entries"])], or [[]] on
    the [KeyError] or [TypeError] of a missing path or of a value that cannot
    be iterated.  The elements are not looked at. *)
Definition parse_leaderboard_rows (data : option (list Entry)) : list Entry :=
    default [] data.

End RustinityClient.

(** ** Trend view ([embeds.py]) *)

Module Embeds.

Import RustinityClient.

Definition DISPLAY_METRICS : list string :=
    [ "kill_player"; "looted_hackable"; "gathered_sulfur_ore";
      "boom_rocket_basic"; "looted_bradley_crates" ].

Definition TREND_METRICS : list string := DISPLAY_METRICS.

(** The tuple [(clan, delta, end_val, rank)] built for each clan. *)
Record TrendRow : Type := mkTrendRow {
  clan : string;
  delta : Q;
  end_val : Q;
  rank : Z
}.

Definition trend_row (item : string * Storage.Change) : TrendRow :=
    let '(c, info) := item in
    {| clan := c;
       delta := Storage.end_val info - Storage.start_val info;
       end_val := Storage.end_val info;
       rank := Storage.latest_rank info |}.

(** [rows.sort(key=lambda r: r[1], reverse=True)]: Python's sort is stable,
    also under [reverse=True], so a row is placed before the first row of
    strictly smaller delta and after every row of equal delta that preceded
    it in the input. *)
Fixpoint insert_desc (r : TrendRow) (sorted : list TrendRow) : list TrendRow :=
  match sorted with
  | [] => [r]
  | r' :: rest =>
      if Qle_bool (delta r') (delta r)
      then r :: r' :: rest
      else r' :: insert_desc r rest
  end.

Fixpoint sort_desc (rows : list TrendRow) : list TrendRow :=
  match rows with
  | [] => []
  | r :: rest => insert_desc r (sort_desc rest)
  end.

(** The loop that builds [lines] from [top5]: rows with [delta <= 0] are
    skipped.  A line is kept as the row it is formatted from. *)
Definition positive_lines (top5 : list TrendRow) : list TrendRow :=
    List.filter (fun r => negb (Qle_bool (delta r) 0)) top5.

(** Lines 297-317 of [build_trend_embed] for one metric. *)
Definition trend_lines (trend : list (string * Storage.Change)) : list TrendRow :=
    let rows := map trend_row trend in
    let top5 := take 5 (sort_desc rows) in
    positive_lines top5.

(** The value of one embed field. *)
Inductive TrendField : Type :=
  | NoDataYet
  | NoPositiveGains
  | Lines (lines : list TrendRow).

Definition trend_field (trend : list (string * Storage.Change)) : TrendField :=
    match trend with
    | [] => NoDataYet
    | _ :: _ =>
        match trend_lines trend with
        | [] => NoPositiveGains
        | l => Lines l
        end
    end.

(** The fields of [build_trend_embed()], one per trend metric defined in
    [METRICS], labelled by the metric's label; [now_at k] is the clock
    reading inside the call of [get_clan_metric_changes] for metric [k]. *)
Definition build_trend_embed (now_at : string -> Z) (db : Storage.Database)
      : list (string * TrendField) :=
    omap (fun metric_key =>
            match METRICS !! metric_key with
            | None => None
            | Some metric_info =>
                Some (label metric_info,
                      trend_field
                        (Storage.get_clan_metric_changes (now_at metric_key) metric_key 12 db))
            end)
         TREND_METRICS.

End Embeds.

(** ** Watchers and the poll cycle ([watchers.py]) *)

Module Watchers.

Import Leaderboard RustinityClient.

(** Alert thresholds for specific metrics. *)
Definition ALERT_THRESHOLDS : gmap string Q :=
    list_to_map [ ("gathered_sulfur_ore", 5000%Q);
                  ("looted_hackable", 2%Q);
                  ("boom_rocket_basic", 50%Q);
                  ("looted_bradley_crates", 2%Q) ].

Definition TREND_TOP_N : nat := 5.

Inductive AlertKind : Type :=
  | WATCH
  | PLAYER_WATCH
  | SPIKE.

(** The content of an alert text, before formatting: the three f-strings
    print these fields (the two numbers through [int]), followed by the
    wall-clock time.  A text exists only when both calls of [int] return, so
    the two numbers are finite. *)
Record Message : Type := mkMessage {
  kind : AlertKind;
  who : string;
  clan_label : option string;
  what : string;
  in_group : option string;
  delta : Q;
  now_val : Q;
  at_rank : option Z;
  mention : option Z
}.

(** Effects, in program order. *)
Inductive Event : Type :=
  | ClanCacheSet (key : string * string * string) (v : PyFloat)
  | PlayerCacheSet (key : string * string * string) (v : PyFloat)
  | MetricCacheSet (key : string * string) (v : PyFloat)
  | SnapshotAdded (s : Storage.Snapshot)
  | SendAttempt (msg : Message) (ok : bool)
  | ClanFetch (metric_key : string) (res : Fetched)
  | PlayerFetch (grp : string) (sort_by : string) (res : Fetched).

(** The module-level state: the three last-value caches, the tracking
    toggle, the SQLite file, and the ghost trace. *)
Record State : Type := mkState {
  WATCH_CLAN_LAST_VALUES : gmap (string * string * string) PyFloat;
  WATCH_PLAYER_LAST_VALUES : gmap (string * string * string) PyFloat;
  LAST_CLAN_METRIC_VALUES : gmap (string * string) PyFloat;
  tracking_enabled : bool;
  db : Storage.Database;
  trace : list Event
}.

(** The outside world.  Each oracle is asked with the number of effects
    performed so far. [send_ok n msg] tells whether [alert_channel.send(msg)]
    returns (rather than raises); [clock n] is [int(time.time())]. *)
Record World : Type := mkWorld {
  send_ok : nat -> Message -> bool;
  clock : nat -> Z;
  http_get : nat -> Request -> HttpOutcome
}.

(** How a call ends: it returns [r], or an exception leaves it.  Of a call
    that was left by an exception only the module state remains. *)
Inductive Outcome (R : Type) : Type :=
  | Done (r : R)
  | Failed (st : State).

Arguments Done {R} r.
Arguments Failed {R} st.

(** The module state after the call, however it ended. *)
Definition left_by {R : Type} (π : R -> State) (o : Outcome R) : State :=
    match o with
    | Done r => π r
    | Failed st => st
    end.

Definition outcome_map {R R' : Type} (f : R -> R') (o : Outcome R) : Outcome R' :=
    match o with
    | Done r => Done (f r)
    | Failed st => Failed st
    end.

(** Sequencing: what follows a call runs only if the call returns. *)
Definition and_then {R R' : Type} (o : Outcome R) (k : R -> Outcome R')
    : Outcome R' :=
    match o with
    | Done r => k r
    | Failed st => Failed st
    end.

(** A [for] loop whose body may raise: the exception ends the loop. *)
Fixpoint fold_outcome {R X : Type} (body : R -> X -> Outcome R) (l : list X) (r : R)
    : Outcome R :=
  match l with
  | [] => Done r
  | x :: rest =>
      match body r x with
      | Done r' => fold_outcome body rest r'
      | Failed st => Failed st
      end
  end.

(** State at import time: empty caches, tracking off. *)
Definition initial_state (d : Storage.Database) : State :=
    mkState ∅ ∅ ∅ false d [].

Definition is_tracking_enabled (st : State) : bool := tracking_enabled st.

Definition set_tracking_enabled (enabled : bool) (st : State) : State :=
    mkState (WATCH_CLAN_LAST_VALUES st) (WATCH_PLAYER_LAST_VALUES st)
            (LAST_CLAN_METRIC_VALUES st) enabled (db st) (trace st).

Definition emit (e : Event) (st : State) : State :=
    mkState (WATCH_CLAN_LAST_VALUES st) (WATCH_PLAYER_LAST_VALUES st)
            (LAST_CLAN_METRIC_VALUES st) (tracking_enabled st) (db st)
            (trace st ++ [e]).

Definition store_clan_value (key : string * string * string) (v : PyFloat) (st : State)
    : State :=
    emit (ClanCacheSet key v)
         (mkState (<[key := v]> (WATCH_CLAN_LAST_VALUES st)) (WATCH_PLAYER_LAST_VALUES st)
                  (LAST_CLAN_METRIC_VALUES st) (tracking_enabled st) (db st) (trace st)).

Definition store_player_value (key : string * string * string) (v : PyFloat) (st : State)
    : State :=
    emit (PlayerCacheSet key v)
         (mkState (WATCH_CLAN_LAST_VALUES st) (<[key := v]> (WATCH_PLAYER_LAST_VALUES st))
                  (LAST_CLAN_METRIC_VALUES st) (tracking_enabled st) (db st) (trace st)).

Definition store_metric_value (key : string * string) (v : PyFloat) (st : State) : State :=
    emit (MetricCacheSet key v)
         (mkState (WATCH_CLAN_LAST_VALUES st) (WATCH_PLAYER_LAST_VALUES st)
                  (<[key := v]> (LAST_CLAN_METRIC_VALUES st)) (tracking_enabled st) (db st)
                  (trace st)).

(** What the REAL column [value] keeps of a float.  SQLite stores the NaN as
    NULL.  An infinity is stored as it is; the column of [Storage.Snapshot]
    holds rationals and has no place for it, so it is left empty here, and
    nothing below is stated about the stored value of an infinite
    observation. *)
Definition stored_real (v : PyFloat) : option Q :=
    match v with
    | Finite q => Some q
    | PosInf | NegInf | NaN => None
    end.

(** The call [add_clan_metric_snapshot(metric_key=..., clan_name=..., rank=...,
    value=...)] of the spike detector, stamped by the clock. *)
Definition log_snapshot (w : World) (metric clan : string) (rk : option Z) (v : PyFloat)
      (st : State) : State :=
    let now := clock w (length (trace st)) in
    emit (SnapshotAdded (Storage.mkSnapshot metric clan now rk (stored_real v)))
         (mkState (WATCH_CLAN_LAST_VALUES st) (WATCH_PLAYER_LAST_VALUES st)
                  (LAST_CLAN_METRIC_VALUES st) (tracking_enabled st)
                  (Storage.add_clan_metric_snapshot now metric clan rk (stored_real v)
                                                    None (db st))
                  (trace st)).

(** [last_val = CACHE.get(cache_key)] and
    [delta = 0.0 if last_val is None else current_val - last_val]
    (lines 109-110, 193-194 and 278-279). *)
Definition delta_since (last_val : option PyFloat) (current_val : PyFloat) : PyFloat :=
    match last_val with
    | None => Finite 0
    | Some last => py_sub current_val last
    end.

(** [int(delta)] and [int(current_val)] of the alert text, which is built
    before the [try] of the send; [None] when one of the two raises. *)
Definition alert_numbers (d current_val : PyFloat) : option (Q * Q) :=
    match py_int d, py_int current_val with
    | Some dq, Some cq => Some (dq, cq)
    | _, _ => None
    end.

(** [try: await alert_channel.send(msg); alerts_sent += 1 / except: log]. *)
Definition try_send (w : World) (msg : Message) (acc : State * nat) : State * nat :=
    let '(st, alerts_sent) := acc in
    let ok := send_ok w (length (trace st)) msg in
    (emit (SendAttempt msg ok) st, if ok then S alerts_sent else alerts_sent).

(** *** Clan all-stats watch *)

(** Body of [for stat_key, current_val in stats.items()] (lines 101-134). *)
Definition watch_clan_stat (w : World) (cfg : Config.Settings)
      (grp clan_raw clan_lc : string) (rk : option Z)
      (acc : State * nat) (item : string * StatValue) : Outcome (State * nat) :=
    let '(stat_key, raw_val) := item in
    let '(st, alerts_sent) := acc in
    match py_float raw_val with
    | Skipped => Done acc
    | Overflow => Failed st
    | Float current_val =>
        let cache_key := (grp, clan_lc, stat_key) in
        let last_val := WATCH_CLAN_LAST_VALUES st !! cache_key in
        let d := delta_since last_val current_val in
        let st1 := store_clan_value cache_key current_val st in
        if py_le d 0 then Done (st1, alerts_sent)
        else
          match alert_numbers d current_val with
          | None => Failed st1
          | Some (dq, cq) =>
              Done (try_send w
                      (mkMessage WATCH clan_raw None stat_key (Some grp) dq cq rk
                                 (Config.role_mention cfg))
                      (st1, alerts_sent))
          end
    end.

(** Body of [for row in rows] (lines 88-134) on an object; the third
    component is [found_any]. *)
Definition watch_clan_row (w : World) (cfg : Config.Settings) (grp : string)
      (watched_clans : gset string)
      (acc : State * nat * bool) (row : Row) : Outcome (State * nat * bool) :=
    let clan_raw := clan_name_raw row in
    if negb (PyStr.truthy clan_raw) then Done acc
    else
      let clan_lc := PyStr.lower clan_raw in
      if negb (bool_decide (clan_lc ∈ watched_clans)) then Done acc
      else
        outcome_map (fun a => (a, true))
          (fold_outcome (watch_clan_stat w cfg grp clan_raw clan_lc (rank row))
                        (stats row) acc.1).

(** The same body on any entry: [row.get("name")] raises on what is not an
    object. *)
Definition watch_clan_entry (w : World) (cfg : Config.Settings) (grp : string)
      (watched_clans : gset string)
      (acc : State * nat * bool) (entry : Entry) : Outcome (State * nat * bool) :=
    match entry with
    | Object row => watch_clan_row w cfg grp watched_clans acc row
    | NotAnObject => Failed acc.1.1
    end.

(** [track_watch_clan_all_stats(group, rows, alert_channel)]: the number of
    alerts sent and the state left behind. *)
Definition track_watch_clan_all_stats (w : World) (cfg : Config.Settings)
      (grp : string) (rows : list Entry) (st : State) : Outcome (nat * State) :=
    let watched_clans : gset string :=
      set_map PyStr.lower (Storage.get_watch_clans (db st)) in
    if bool_decide (watched_clans = ∅) then Done (0, st)
    else
      match rows with
      | [] => Done (0, st)
      | _ :: _ =>
          outcome_map (fun a : State * nat * bool => (a.1.2, a.1.1))
            (fold_outcome (watch_clan_entry w cfg grp watched_clans) rows (st, 0, false))
      end.

(** *** Player all-stats watch *)

(** Body of [for stat_key, current_val in stats.items()] (lines 186-218). *)
Definition watch_player_stat (w : World) (cfg : Config.Settings)
      (grp steam_id user lbl : string) (rk : option Z)
      (acc : State * nat) (item : string * StatValue) : Outcome (State * nat) :=
    let '(stat_key, raw_val) := item in
    let '(st, alerts_sent) := acc in
    match py_float raw_val with
    | Skipped => Done acc
    | Overflow => Failed st
    | Float current_val =>
        let cache_key := (grp, steam_id, stat_key) in
        let last_val := WATCH_PLAYER_LAST_VALUES st !! cache_key in
        let d := delta_since last_val current_val in
        let st1 := store_player_value cache_key current_val st in
        if py_le d 0 then Done (st1, alerts_sent)
        else
          match alert_numbers d current_val with
          | None => Failed st1
          | Some (dq, cq) =>
              Done (try_send w
                      (mkMessage PLAYER_WATCH user (Some lbl) stat_key (Some grp) dq cq rk
                                 (Config.role_mention cfg))
                      (st1, alerts_sent))
          end
    end.

(** [extra_clans.get(steam_id) or row.get("clanName") or "Unknown"] *)
Definition player_clan_label (extra_clans : gmap string string) (steam_id : string)
      (row : Row) : string :=
    PyStr.get_or (extra_clans !! steam_id) (PyStr.get_or (clanName row) "Unknown").

(** Body of [for row in rows] (lines 170-218) on an object; the third
    component is [found_any]. *)
Definition watch_player_row (w : World) (cfg : Config.Settings) (grp : string)
      (watched_players : gset string) (extra_clans : gmap string string)
      (acc : State * nat * bool) (row : Row) : Outcome (State * nat * bool) :=
    let steam_id := steam_id_of row in
    if negb (PyStr.truthy steam_id) then Done acc
    else if negb (bool_decide (steam_id ∈ watched_players))
            && negb (bool_decide (is_Some (extra_clans !! steam_id)))
    then Done acc
    else
      let user := default "Unknown" (username row) in
      let lbl := player_clan_label extra_clans steam_id row in
      outcome_map (fun a => (a, true))
        (fold_outcome (watch_player_stat w cfg grp steam_id user lbl (rank row))
                      (stats row) acc.1).

(** The same body on any entry: [row.get("steamId", "")] raises on what is
    not an object. *)
Definition watch_player_entry (w : World) (cfg : Config.Settings) (grp : string)
      (watched_players : gset string) (extra_clans : gmap string string)
      (acc : State * nat * bool) (entry : Entry) : Outcome (State * nat * bool) :=
    match entry with
    | Object row => watch_player_row w cfg grp watched_players extra_clans acc row
    | NotAnObject => Failed acc.1.1
    end.

(** [track_watch_players_all_stats(group, rows, alert_channel)] *)
Definition track_watch_players_all_stats (w : World) (cfg : Config.Settings)
      (grp : string) (rows : list Entry) (st : State) : Outcome (nat * State) :=
    let watched_players := Storage.get_watch_players (db st) in
    let extra_clans := Config.player_clan_overrides cfg in
    if bool_decide (watched_players = ∅) && bool_decide (extra_clans = ∅)
    then Done (0, st)
    else
      match rows with
      | [] => Done (0, st)
      | _ :: _ =>
          outcome_map (fun a : State * nat * bool => (a.1.2, a.1.1))
            (fold_outcome (watch_player_entry w cfg grp watched_players extra_clans)
                          rows (st, 0, false))
      end.

(** *** Spike detector *)

(** Body of [for row in top_rows] (lines 252-305) on an object. *)
Definition spike_row (w : World) (cfg : Config.Settings)
      (metric_key sort_by : string) (threshold : option Q)
      (acc : State * nat) (row : Row) : Outcome (State * nat) :=
    let clan_raw := clan_name_raw row in
    let '(st, alerts_sent) := acc in
    if negb (PyStr.truthy clan_raw) then Done acc
    else
      match py_float_of (dict_get sort_by (stats row)) with
      | Skipped => Done acc
      | Overflow => Failed st
      | Float current_val =>
          let st1 := log_snapshot w metric_key clan_raw (rank row) current_val st in
          match threshold with
          | None => Done (st1, alerts_sent)
          | Some limit =>
              let cache_key := (metric_key, clan_raw) in
              let last_val := LAST_CLAN_METRIC_VALUES st1 !! cache_key in
              let d := delta_since last_val current_val in
              let st2 := store_metric_value cache_key current_val st1 in
              if py_lt d limit then Done (st2, alerts_sent)
              else if String.eqb (PyStr.lower clan_raw)
                                 (PyStr.lower (Config.clan_name cfg))
              then Done (st2, alerts_sent)
              else
                match alert_numbers d current_val with
                | None => Failed st2
                | Some (dq, cq) =>
                    Done (try_send w
                            (mkMessage SPIKE clan_raw None metric_key None dq cq
                                       (rank row) (Config.role_mention cfg))
                            (st2, alerts_sent))
                end
          end
      end.

(** The same body on any entry: [row.get("name")] raises on what is not an
    object. *)
Definition spike_entry (w : World) (cfg : Config.Settings)
      (metric_key sort_by : string) (threshold : option Q)
      (acc : State * nat) (entry : Entry) : Outcome (State * nat) :=
    match entry with
    | Object row => spike_row w cfg metric_key sort_by threshold acc row
    | NotAnObject => Failed acc.1
    end.

(** [log_top_and_detect_spikes(metric_key, rows, sort_by, alert_channel)] *)
Definition log_top_and_detect_spikes (w : World) (cfg : Config.Settings)
      (metric_key : string) (rows : list Entry) (sort_by : string) (st : State)
      : Outcome (nat * State) :=
    let threshold := ALERT_THRESHOLDS !! metric_key in
    match rows with
    | [] => Done (0, st)
    | _ :: _ =>
        let top_rows := take TREND_TOP_N rows in
        outcome_map (fun a : State * nat => (a.2, a.1))
          (fold_outcome (spike_entry w cfg metric_key sort_by threshold) top_rows (st, 0))
    end.

(** *** One poll cycle *)

(** The locals of [post_walobots_update] that live across metrics. *)
Record Cycle : Type := mkCycle {
  stats_for_leaderboard : gmap string (Entry * option Entry);
  alert_count : nat;
  player_rows_cache : gmap string (list Entry)
}.

Definition add_alerts (n : nat) (cy : Cycle) : Cycle :=
    mkCycle (stats_for_leaderboard cy) (alert_count cy + n) (player_rows_cache cy).

Definition cache_player_rows (grp : string) (rows : list Entry) (cy : Cycle) : Cycle :=
    mkCycle (stats_for_leaderboard cy) (alert_count cy)
            (<[grp := rows]> (player_rows_cache cy)).

Definition record_top2 (metric_key : string) (rows : list Entry) (cy : Cycle) : Cycle :=
    match rows with
    | [] => cy
    | top1 :: rest =>
        mkCycle (<[metric_key := (top1, head rest)]> (stats_for_leaderboard cy))
                (alert_count cy) (player_rows_cache cy)
    end.

(** [alert_count += await consumer(...)]: the sum is taken when the consumer
    returns. *)
Definition count_alerts (cy : Cycle) (o : Outcome (nat * State)) : Outcome (State * Cycle) :=
    outcome_map (fun r : nat * State => (r.2, add_alerts r.1 cy)) o.

(** Lines 359-365: history and spikes, only for metrics with a threshold. *)
Definition cycle_spikes (w : World) (cfg : Config.Settings) (metric_key : string)
      (rows : list Entry) (sort_by : string) (acc : State * Cycle)
    : Outcome (State * Cycle) :=
    let '(st, cy) := acc in
    if bool_decide (is_Some (ALERT_THRESHOLDS !! metric_key))
    then count_alerts cy (log_top_and_detect_spikes w cfg metric_key rows sort_by st)
    else Done acc.

(** Lines 367-374: the clan watcher. *)
Definition cycle_clan_watch (w : World) (cfg : Config.Settings) (grp : string)
      (rows : list Entry) (acc : State * Cycle) : Outcome (State * Cycle) :=
    let '(st, cy) := acc in
    if is_tracking_enabled st
       && negb (bool_decide (Storage.get_watch_clans (db st) = ∅))
    then count_alerts cy (track_watch_clan_all_stats w cfg grp rows st)
    else Done acc.

(** Lines 393-397: the player watcher on the rows cached for the group. *)
Definition cycle_player_watch (w : World) (cfg : Config.Settings) (grp : string)
      (prows : list Entry) (acc : State * Cycle) : Outcome (State * Cycle) :=
    let '(st, cy) := acc in
    count_alerts cy (track_watch_players_all_stats w cfg grp prows st).

(** Lines 376-397: fetch the group's player leaderboard unless the cycle
    already holds it, then run the player watcher; an exception from the
    fetch ends the iteration ([continue]) and leaves the cache as it was. *)
Definition cycle_players (w : World) (cfg : Config.Settings) (grp sort_by : string)
      (acc : State * Cycle) : Outcome (State * Cycle) :=
    let '(st, cy) := acc in
    if is_tracking_enabled st
       && (negb (bool_decide (Storage.get_watch_players (db st) = ∅))
           || negb (bool_decide (Config.player_clan_overrides cfg = ∅)))
    then
      match player_rows_cache cy !! grp with
      | Some prows => cycle_player_watch w cfg grp prows (st, cy)
      | None =>
          let res := fetch_player_leaderboard (http_get w (length (trace st))) grp sort_by in
          let st1 := emit (PlayerFetch grp sort_by res) st in
          match res with
          | Raised => Done (st1, cy)
          | Returned pdata =>
              let prows := parse_leaderboard_rows pdata in
              cycle_player_watch w cfg grp prows (st1, cache_player_rows grp prows cy)
          end
      end
    else Done acc.

(** Body of [for metric_key in metric_keys_to_fetch] (lines 335-397).  The
    fetch of the clan leaderboard sits in a [try]; the three consumers do
    not, so an exception from one of them leaves the loop. *)
Definition poll_metric (w : World) (cfg : Config.Settings)
      (acc : State * Cycle) (metric_key : string) : Outcome (State * Cycle) :=
    match METRICS !! metric_key with
    | None => Done acc
    | Some metric_info =>
        let '(st, cy) := acc in
        let res := fetch_leaderboard_for_metric (http_get w (length (trace st))) metric_key in
        let st1 := emit (ClanFetch metric_key res) st in
        match res with
        | Raised => Done (st1, cy)
        | Returned data =>
            match parse_leaderboard_rows data with
            | [] => Done (st1, cy)
            | (_ :: _) as rows =>
                let sort_by := sortBy metric_info in
                let grp := group metric_info in
                and_then (cycle_spikes w cfg metric_key rows sort_by
                            (st1, record_top2 metric_key rows cy))
                  (fun a1 =>
                     and_then (cycle_clan_watch w cfg grp rows a1)
                       (cycle_players w cfg grp sort_by))
            end
        end
    end.

(** Step 1 of [post_walobots_update(bot)], entered once the channel has been
    found messageable.  [order] is the order in which the set
    [set(METRICS.keys())] is iterated.  Steps 2 and 3 render the two embeds
    from [stats_for_leaderboard] and from the history table; they issue no
    leaderboard fetch and leave the caches and the tables as they are.  They
    are reached only when step 1 returns. *)
Definition post_walobots_update (w : World) (cfg : Config.Settings)
      (order : list string) (st : State) : Outcome (State * Cycle) :=
    fold_outcome (poll_metric w cfg) order (st, mkCycle ∅ 0 ∅).

(** The module state a cycle leaves behind. *)
Definition cycle_state (o : Outcome (State * Cycle)) : State := left_by fst o.

End Watchers.

(** ** Reading the tracking configuration ([config.py]) *)

Module ConfigParse.

(** [s.split(sep)] for a separator of one character: at least one piece,
    the pieces between the separators in order. *)
Fixpoint split_on (sep : ascii) (s : string) : list string :=
  match s with
  | EmptyString => [EmptyString]
  | String c rest =>
      if Ascii.eqb c sep then EmptyString :: split_on sep rest
      else match split_on sep rest with
           | [] => [String c EmptyString]
           | piece :: pieces => String c piece :: pieces
           end
  end.

(** [s.split(sep, 1)] when [sep in s]: what is before and what is after the
    first separator; [None] when the separator does not occur. *)
Fixpoint split_once (sep : ascii) (s : string) : option (string * string) :=
  match s with
  | EmptyString => None
  | String c rest =>
      if Ascii.eqb c sep then Some (EmptyString, rest)
      else match split_once sep rest with
           | Some (before, after) => Some (String c before, after)
           | None => None
           end
  end.

(** [_parse_csv(value)]; [None] is an unset environment variable. *)
Definition _parse_csv (value : option string) : list string :=
    match value with
    | None => []
    | Some v =>
        if PyStr.truthy v
        then List.filter PyStr.truthy (map PyStr.strip (split_on "," v))
        else []
    end.

(** Body of the loop of [_parse_overrides]. *)
Definition override_part (result : gmap string string) (part : string)
      : gmap string string :=
    match split_once ":" part with
    | None => result
    | Some (steam_id, clan_name) =>
        let steam_id := PyStr.strip steam_id in
        let clan_name := PyStr.strip clan_name in
        if PyStr.truthy steam_id && PyStr.truthy clan_name
        then <[steam_id := clan_name]> result
        else result
    end.

(** [_parse_overrides(value)] *)
Definition _parse_overrides (value : option string) : gmap string string :=
    fold_left override_part (_parse_csv value) ∅.

(** The tracking fields of [load_settings()] (lines 124-131), from the
    values of [WATCH_CLAN_NAME], [WATCH_PLAYER_IDS] and
    [PLAYER_CLAN_OVERRIDES]; the clan name and the role id are taken as
    already read. *)
Definition tracking_settings (clan : string) (role_id : option Z)
      (env_watch_clan_name env_watch_player_ids env_player_clan_overrides : option string)
      : Config.Settings :=
    {| Config.clan_name := clan;
       Config.alert_role_id := role_id;
       Config.watch_clan_names :=
         list_to_set (map PyStr.lower (_parse_csv env_watch_clan_name));
       Config.watch_player_ids := list_to_set (_parse_csv env_watch_player_ids);
       Config.player_clan_overrides := _parse_overrides env_player_clan_overrides |}.

End ConfigParse.

(** ** Linked accounts ([storage.py], table [user_links]) *)

Module Links.

(** Table [user_links]: primary key [discord_id], the decimal text of the
    user's integer id (kept here as the integer), and a [steam_id]. *)
Definition link_user (discord_id : Z) (steam_id : string) (links : gmap Z string)
      : gmap Z string :=
    <[discord_id := steam_id]> links.

(** [get_linked_steam_id(discord_id)] *)
Definition get_linked_steam_id (discord_id : Z) (links : gmap Z string) : option string :=
    links !! discord_id.

End Links.

(** ** Row helpers ([rustinity_client.py]) *)

Module RowHelpers.

Import Leaderboard.

(** [str(row.get("name", "")).lower()], for a name that is a string when
    the key is present. *)
Definition name_lower (row : Row) : string :=
    PyStr.lower (default "" (name row)).

(** [find_clan_in_rows(rows, clan_name)] *)
Definition find_clan_in_rows (rows : list Row) (clan_name : string) : option Row :=
    let target := PyStr.lower clan_name in
    find (fun row => String.eqb (name_lower row) target) rows.

(** [get_clan_and_next(rows, clan_name)] *)
Fixpoint get_clan_and_next (rows : list Row) (clan_name : string)
    : option Row * option Row :=
  match rows with
  | [] => (None, None)
  | row :: rest =>
      if String.eqb (name_lower row) (PyStr.lower clan_name)
      then (Some row, head rest)
      else get_clan_and_next rest clan_name
  end.

End RowHelpers.

(** ** Status embed ([embeds.py]) *)

Module StatusEmbed.

(** [sorted(...)] on strings: insertion into a list in ascending order of
    code points. *)
Fixpoint insert_sorted (x : string) (sorted : list string) : list string :=
  match sorted with
  | [] => [x]
  | y :: rest => if String.leb x y then x :: y :: rest else y :: insert_sorted x rest
  end.

Fixpoint py_sorted (names : list string) : list string :=
  match names with
  | [] => []
  | x :: rest => insert_sorted x (py_sorted rest)
  end.

(** The three fields of the embed: the tracking state (which also picks the
    colour), the watched names in the order they are listed ([None] for the
    line "No clans are currently monitored"), and the total. *)
Record Status : Type := mkStatus {
  tracking_on : bool;
  watched_list : option (list string);
  total_watched : nat
}.

(** [build_status_embed(tracking_enabled, watched_clans)]; the collection is
    given in iteration order and may repeat a name. *)
Definition build_status_embed (tracking_enabled : bool) (watched_clans : list string)
      : Status :=
    {| tracking_on := tracking_enabled;
       watched_list :=
         match watched_clans with
         | [] => None
         | _ :: _ => Some (py_sorted (remove_dups watched_clans))
         end;
       total_watched := length (remove_dups watched_clans) |}.

End StatusEmbed.

(** ** Slash commands ([commands.py]) *)

Module Commands.

Import Watchers.

(** [str.isdigit] on ASCII text, the text this development covers: not
    empty and nothing but the digits 0-9.  (Beyond ASCII, [str.isdigit] also
    accepts the digits of other scripts; no statement below says that a
    text with such characters is refused.) *)
Definition is_digit_char (c : ascii) : bool :=
    let n := nat_of_ascii c in ((48 <=? n) && (n <=? 57))%nat.

Fixpoint all_digits (s : string) : bool :=
  match s with
  | EmptyString => true
  | String c rest => is_digit_char c && all_digits rest
  end.

Definition isdigit (s : string) : bool := PyStr.truthy s && all_digits s.

(** [_is_valid_steam_id(steam_id)] *)
Definition _is_valid_steam_id (steam_id : string) : bool :=
    let cleaned := PyStr.strip steam_id in
    isdigit cleaned && (String.length cleaned =? 17)%nat.

(** What a command answers. *)
Inductive Reply : Type :=
  | Usage
  | InvalidSteamId
  | AlreadyTracked (steam_id : string)
  | Added (what : string)
  | Removed (what : string)
  | Linked (steam_id : string)
  | TrackingNow (enabled : bool)
  | NotTextChannel
  | Cleared (count : nat).

(** [not text or not text.strip()] for an optional command argument. *)
Definition blank (arg : option string) : bool :=
    match arg with
    | None => true
    | Some text => negb (PyStr.truthy text) || negb (PyStr.truthy (PyStr.strip text))
    end.

(** [/track]: [track_command(interaction, clan_name)] *)
Definition track_command (clan_name : option string) (d : Storage.Database)
      : Reply * Storage.Database :=
    if blank clan_name then (Usage, d)
    else
      let cleaned := PyStr.strip (default "" clan_name) in
      (Added cleaned, Storage.add_watch_clan cleaned d).

(** [/untrack]: [untrack_command(interaction, clan_name)] *)
Definition untrack_command (clan_name : option string) (d : Storage.Database)
      : Reply * Storage.Database :=
    if blank clan_name then (Usage, d)
    else
      let cleaned := PyStr.strip (default "" clan_name) in
      (Removed cleaned, Storage.remove_watch_clan cleaned d).

(** [/trackplayer]: [track_player_command(interaction, steam_id)] *)
Definition track_player_command (steam_id : option string) (d : Storage.Database)
      : Reply * Storage.Database :=
    if blank steam_id then (Usage, d)
    else
      let cleaned := PyStr.strip (default "" steam_id) in
      if negb (_is_valid_steam_id cleaned) then (InvalidSteamId, d)
      else if bool_decide (cleaned ∈ Storage.get_watch_players d)
      then (AlreadyTracked cleaned, d)
      else (Added cleaned, Storage.add_watch_player cleaned d).

(** [/untrackplayer]: [untrack_player_command(interaction, steam_id)] *)
Definition untrack_player_command (steam_id : option string) (d : Storage.Database)
      : Reply * Storage.Database :=
    if blank steam_id then (Usage, d)
    else
      let cleaned := PyStr.strip (default "" steam_id) in
      (Removed cleaned, Storage.remove_watch_player cleaned d).

(** [/link]: [link_command(interaction, steam_id)] for the user [user_id]. *)
Definition link_command (user_id : Z) (steam_id : string) (links : gmap Z string)
      : Reply * gmap Z string :=
    let cleaned := PyStr.strip steam_id in
    if negb (_is_valid_steam_id cleaned) then (InvalidSteamId, links)
    else (Linked cleaned, Links.link_user user_id cleaned links).

(** [/toggle]: [toggle_tracking_command(interaction)] *)
Definition toggle_tracking_command (st : State) : Reply * State :=
    let current := is_tracking_enabled st in
    let new_state := negb current in
    (TrackingNow new_state, set_tracking_enabled new_state st).

(** A message of the channel, as [/clear] reads it. *)
Record ChatMessage : Type := mkChatMessage {
  message_id_of : Z;
  pinned : bool
}.

(** The four message ids of the settings; [message_id] is required, the
    others may be unset. *)
Record PersistentIds : Type := mkPersistentIds {
  message_id : Z;
  trend_message_id : option Z;
  help_message_id : option Z;
  status_message_id : option Z
}.

(** [keep_ids = {mid for mid in keep_ids if mid}]: unset ids and 0 are
    dropped. *)
Definition keep_ids (ids : PersistentIds) : gset Z :=
    list_to_set
      (List.filter (fun mid => negb (mid =? 0)%Z)
         (omap id [ Some (message_id ids); trend_message_id ids;
                    help_message_id ids; status_message_id ids ])).

(** Body of [async for message in channel.history(limit=200)];
    [delete_ok message] tells whether [message.delete()] returns rather than
    raises [discord.HTTPException]. *)
Definition clear_step (keep : gset Z) (delete_ok : ChatMessage → bool)
      (deleted : list ChatMessage) (message : ChatMessage) : list ChatMessage :=
    if bool_decide (message_id_of message ∈ keep) then deleted
    else if pinned message then deleted
    else if delete_ok message then deleted ++ [message]
    else deleted.

(** [/clear]: [clear_command(interaction)]. [history] lists the channel's
    messages from the most recent on; the result is the reply and the
    messages that were deleted, in order. *)
Definition clear_command (ids : PersistentIds) (is_text_channel : bool)
      (delete_ok : ChatMessage → bool) (history : list ChatMessage)
      : Reply * list ChatMessage :=
    if negb is_text_channel then (NotTextChannel, [])
    else
      let deleted := fold_left (clear_step (keep_ids ids) delete_ok) (take 200 history) [] in
      (Cleared (length deleted), deleted).

(** [/status]: [status_command(interaction)], and likewise
    [refresh_status_embed]; [elements] stands for the order in which the set
    returned by [get_watch_clans] is iterated. *)
Definition status_command (st : State) : StatusEmbed.Status :=
    StatusEmbed.build_status_embed (is_tracking_enabled st)
      (elements (Storage.get_watch_clans (db st))).

End Commands.

(** * Properties *)

(** ** Strings *)

Module PyStrFacts.

Import PyStr.

Lemma lower_char_idem (c : ascii) : lower_char (lower_char c) = lower_char c.
Proof. destruct c as [[] [] [] [] [] [] [] []]; reflexivity. Qed.

Lemma lower_idem (s : string) : lower (lower s) = lower s.
Proof.
  induction s as [|c rest IH]; simpl.
  - reflexivity.
  - rewrite lower_char_idem, IH. reflexivity.
Qed.

Lemma truthy_true (s : string) : truthy s = true <-> s <> "".
Proof. destruct s; simpl; split; intros; congruence. Qed.

Lemma truthy_lower (s : string) : truthy (lower s) = truthy s.
Proof. destruct s; reflexivity. Qed.

End PyStrFacts.

(** ** Watch registry *)

Module RegistryFacts.

Import PyStr Storage.

(** Every stored clan name is in lower case. *)
Definition stored_lower (d : Database) : Prop :=
    ∀ n, n ∈ watch_clans d → lower n = n.

Lemma stored_lower_empty : stored_lower empty_db.
Proof. intros n Hn. simpl in Hn. set_solver. Qed.

Lemma stored_lower_init_db cfg d :
  stored_lower d → stored_lower (init_db cfg d).
Proof.
  intros Hd n Hn. simpl in Hn.
  apply elem_of_union in Hn as [Hn | Hn].
  - apply elem_of_map in Hn as (x & -> & _). apply PyStrFacts.lower_idem.
  - by apply Hd.
Qed.

Lemma stored_lower_add clan d :
  stored_lower d → stored_lower (add_watch_clan clan d).
Proof.
  intros Hd n. unfold add_watch_clan. destruct (truthy clan); simpl.
  - intros [Hn | Hn]%elem_of_union.
    + apply elem_of_singleton in Hn as ->. apply PyStrFacts.lower_idem.
    + by apply Hd.
  - apply Hd.
Qed.

Lemma stored_lower_remove clan d :
  stored_lower d → stored_lower (remove_watch_clan clan d).
Proof.
  intros Hd n. unfold remove_watch_clan. destruct (truthy clan); simpl.
  - intros [Hn _]%elem_of_difference. by apply Hd.
  - apply Hd.
Qed.

Lemma add_watch_clan_idem clan d :
  add_watch_clan clan (add_watch_clan clan d) = add_watch_clan clan d.
Proof.
  unfold add_watch_clan. destruct (truthy clan); simpl; [|done].
  f_equal. apply set_eq. intros x. rewrite !elem_of_union. tauto.
Qed.

Lemma remove_watch_clan_idem clan d :
  remove_watch_clan clan (remove_watch_clan clan d) = remove_watch_clan clan d.
Proof.
  unfold remove_watch_clan. destruct (truthy clan); simpl; [|done].
  f_equal. apply set_eq. intros x. rewrite !elem_of_difference. tauto.
Qed.

(** C8. For a (non-empty) clan name and a registry whose stored names are in
    lower case: after [add_watch_clan] the listing holds the lower-cased name,
    which matches the given name case-insensitively; after [remove_watch_clan]
    the listing holds no name that matches it case-insensitively, whether or
    not it was added before; adding twice and removing twice are the same as
    once; the stored names stay in lower case. *)
Theorem C8_watch_clan_round_trip (clan : string) (d : Database)
    (Hname : clan ≠ "") (Hlower : stored_lower d) :
  (lower clan ∈ get_watch_clans (add_watch_clan clan d)
   ∧ ∃ n, n ∈ get_watch_clans (add_watch_clan clan d) ∧ lower n = lower clan)
  ∧ (∀ n, n ∈ get_watch_clans (remove_watch_clan clan d) → lower n ≠ lower clan)
  ∧ (∀ n, n ∈ get_watch_clans (remove_watch_clan clan (add_watch_clan clan d)) →
          lower n ≠ lower clan)
  ∧ add_watch_clan clan (add_watch_clan clan d) = add_watch_clan clan d
  ∧ remove_watch_clan clan (remove_watch_clan clan d) = remove_watch_clan clan d
  ∧ get_watch_clans (add_watch_clan clan d) = {[ lower clan ]} ∪ get_watch_clans d
  ∧ get_watch_clans (remove_watch_clan clan d) = get_watch_clans d ∖ {[ lower clan ]}
  ∧ stored_lower (add_watch_clan clan d)
  ∧ stored_lower (remove_watch_clan clan d).
Proof.
  apply PyStrFacts.truthy_true in Hname.
  assert (Hin : lower clan ∈ get_watch_clans (add_watch_clan clan d)).
  { unfold get_watch_clans, add_watch_clan. rewrite Hname. simpl. set_solver. }
  assert (Hout : ∀ d', stored_lower d' →
            ∀ n, n ∈ get_watch_clans (remove_watch_clan clan d') → lower n ≠ lower clan).
  { intros d' Hd' n. unfold get_watch_clans, remove_watch_clan. rewrite Hname. simpl.
    intros [Hn Hne]%elem_of_difference Heq. apply Hne, elem_of_singleton.
    rewrite <- Heq. symmetry. by apply Hd'. }
  split; [split; [exact Hin|]|].
  { exists (lower clan). split; [exact Hin | apply PyStrFacts.lower_idem]. }
  split; [by apply Hout|].
  split; [by apply Hout, stored_lower_add|].
  split; [apply add_watch_clan_idem|].
  split; [apply remove_watch_clan_idem|].
  split; [unfold get_watch_clans, add_watch_clan; by rewrite Hname|].
  split; [unfold get_watch_clans, remove_watch_clan; by rewrite Hname|].
  split; [by apply stored_lower_add | by apply stored_lower_remove].
Qed.

End RegistryFacts.

(** ** Snapshot store: windowed changes *)

Module StorageFacts.

Import Storage.

Lemma group_upsert_keys clan t groups c :
  In c (map fst (group_upsert clan t groups)) ↔ c = clan ∨ In c (map fst groups).
Proof.
  induction groups as [|[c' [lo hi]] rest IH]; simpl.
  - intuition congruence.
  - destruct (String.eqb c' clan) eqn:E; simpl.
    + apply String.eqb_eq in E. intuition congruence.
    + rewrite IH. intuition congruence.
Qed.

Lemma group_fold_keys selected groups c :
  In c (map fst (fold_left (fun g s => group_upsert (clan_name s) (ts s) g)
                           selected groups))
  ↔ In c (map fst groups) ∨ ∃ s, In s selected ∧ clan_name s = c.
Proof.
  revert groups. induction selected as [|s rest IH]; intros groups; simpl.
  - split; [auto | intros [H | (s & [] & _)]; exact H].
  - rewrite IH, group_upsert_keys. split.
    + intros [[-> | H] | (s' & Hs' & Hc)]; eauto.
    + intros [H | (s' & [<- | Hs'] & Hc)]; eauto.
Qed.

(** Both bounds of every group are timestamps of rows of that clan taken
    from [pool]. *)
Definition bounds_attained (pool : Snapshot → Prop) (groups : list (string * (Z * Z)))
    : Prop :=
    ∀ c lo hi, In (c, (lo, hi)) groups →
      (∃ s, pool s ∧ clan_name s = c ∧ ts s = lo)
      ∧ (∃ s, pool s ∧ clan_name s = c ∧ ts s = hi).

Lemma group_upsert_bounds pool s groups :
  pool s → bounds_attained pool groups →
  bounds_attained pool (group_upsert (clan_name s) (ts s) groups).
Proof.
  intros Hs. induction groups as [|[c' [lo' hi']] rest IH]; intros Hg c lo hi; simpl.
  - intros [[= <- <- <-] | []]. split; exists s; auto.
  - assert (Hrest : bounds_attained pool rest).
    { intros c0 lo0 hi0 H0. apply Hg. by right. }
    destruct (Hg c' lo' hi' (or_introl eq_refl)) as [Hlo Hhi].
    destruct (String.eqb c' (clan_name s)) eqn:E.
    + apply String.eqb_eq in E.
      intros [[= <- <- <-] | Hin]; [|apply Hg; by right].
      split.
      * destruct (Z.min_spec lo' (ts s)) as [[_ ->] | [_ ->]]; [exact Hlo|].
        exists s; auto.
      * destruct (Z.max_spec hi' (ts s)) as [[_ ->] | [_ ->]]; [|exact Hhi].
        exists s; auto.
    + intros [[= <- <- <-] | Hin]; [by split|].
      by apply (IH Hrest).
Qed.

Lemma group_fold_bounds pool selected groups :
  (∀ s, In s selected → pool s) → bounds_attained pool groups →
  bounds_attained pool
    (fold_left (fun g s => group_upsert (clan_name s) (ts s) g) selected groups).
Proof.
  revert groups. induction selected as [|s rest IH]; intros groups Hsel Hg; simpl.
  - exact Hg.
  - apply IH; [intros; apply Hsel; by right|].
    apply group_upsert_bounds; [apply Hsel; by left | exact Hg].
Qed.

Lemma group_upsert_NoDup clan t groups :
  List.NoDup (map fst groups) → List.NoDup (map fst (group_upsert clan t groups)).
Proof.
  induction groups as [|[c' [lo hi]] rest IH]; simpl; intros Hnd.
  - constructor; [intros [] | constructor].
  - apply List.NoDup_cons_iff in Hnd as [Hnotin Hnd].
    destruct (String.eqb c' clan) eqn:E; simpl.
    + by constructor.
    + constructor; [|by apply IH].
      rewrite group_upsert_keys. intros [-> | Hin]; [|contradiction].
      by rewrite String.eqb_refl in E.
Qed.

(** The result is a dict: no clan has two entries. *)
Lemma changes_keys_NoDup now metric hours d :
  List.NoDup (map fst (get_clan_metric_changes now metric hours d)).
Proof.
  assert (Hfold : ∀ selected groups, List.NoDup (map fst groups) →
            List.NoDup (map fst (fold_left
                                   (fun g s => group_upsert (clan_name s) (ts s) g)
                                   selected groups))).
  { induction selected as [|s rest IH]; intros groups Hnd; simpl; [exact Hnd|].
    by apply IH, group_upsert_NoDup. }
  unfold get_clan_metric_changes. rewrite map_map.
  erewrite map_ext; [apply (Hfold _ []); constructor|].
  by intros [c [lo hi]].
Qed.

Lemma find_exists {A} (f : A → bool) (l : list A) x :
  In x l → f x = true → ∃ y, find f l = Some y ∧ In y l ∧ f y = true.
Proof.
  intros Hin Hf. destruct (find f l) as [y|] eqn:E.
  - exists y. apply find_some in E. tauto.
  - pose proof (find_none f l E x Hin). congruence.
Qed.

Lemma changes_keys now metric hours d :
  map fst (get_clan_metric_changes now metric hours d)
  = map fst (group_by_clan (List.filter (in_window metric (now - hours * 3600))
                                        (clan_metric_history d))).
Proof.
  unfold get_clan_metric_changes. rewrite map_map. apply map_ext.
  intros [c [lo hi]]. reflexivity.
Qed.

(** C6, on the code. The result of [get_clan_metric_changes] has an entry
    for a clan exactly when the history holds a snapshot of that metric and
    clan with a timestamp at or after [now - hours*3600]: the query has a
    lower bound only.  The start, end and rank of every entry are read from
    such snapshots, never made up.  When no stored snapshot is stamped later
    than the clock reading [now] of the query, these are the snapshots with
    a timestamp in [[now - hours*3600, now]]. *)
Theorem C6_windowed_changes_only_observed (now hours : Z) (metric : string)
    (d : Database) :
  let selected clan s :=
    In s (clan_metric_history d) ∧ metric_key s = metric ∧ clan_name s = clan
    ∧ (now - hours * 3600 <= ts s)%Z in
  (∀ clan, In clan (map fst (get_clan_metric_changes now metric hours d))
           ↔ ∃ s, selected clan s)
  ∧ (∀ clan info, In (clan, info) (get_clan_metric_changes now metric hours d) →
       ∃ s1 s2, selected clan s1 ∧ selected clan s2
         ∧ start_val info = default 0%Q (value s1)
         ∧ end_val info = default 0%Q (value s2)
         ∧ latest_rank info = default 0%Z (rank s2))
  ∧ (Forall (fun s => (ts s <= now)%Z) (clan_metric_history d) →
     ∀ clan s, selected clan s → (now - hours * 3600 <= ts s <= now)%Z).
Proof.
  intros selected.
  assert (Hsel : ∀ s, In s (List.filter (in_window metric (now - hours * 3600))
                                        (clan_metric_history d))
                      ↔ In s (clan_metric_history d) ∧ metric_key s = metric
                        ∧ (now - hours * 3600 <= ts s)%Z).
  { intros s. rewrite filter_In. unfold in_window.
    rewrite andb_true_iff, String.eqb_eq, Z.leb_le. tauto. }
  split; [|split].
  - intros clan. rewrite changes_keys. unfold group_by_clan.
    rewrite group_fold_keys. simpl. split.
    + intros [[] | (s & Hs & Hc)]. apply Hsel in Hs. exists s. unfold selected. tauto.
    + intros (s & Hin & Hm & Hc & Hr). right. exists s. split; [|exact Hc].
      apply Hsel. tauto.
  - intros clan info Hin. unfold get_clan_metric_changes in Hin.
    apply in_map_iff in Hin as ([c [lo hi]] & [= <- <-] & Hg).
    pose proof (group_fold_bounds
                  (fun s => In s (clan_metric_history d) ∧ metric_key s = metric
                            ∧ (now - hours * 3600 <= ts s)%Z)
                  (List.filter (in_window metric (now - hours * 3600))
                               (clan_metric_history d)) []) as Hb.
    destruct (Hb (fun s Hs => proj1 (Hsel s) Hs) (fun _ _ _ (H : In _ []) => match H with end)
                 c lo hi Hg)
      as [(a & (Ha & Hma & Hra) & Hca & Hta) (b & (Hb' & Hmb & Hrb) & Hcb & Htb)].
    assert (Hfind : ∀ x t, In x (clan_metric_history d) → metric_key x = metric →
              clan_name x = c → ts x = t → (now - hours * 3600 <= t)%Z →
              ∃ y, row_at metric c t d = Some y ∧ selected c y).
    { intros x t Hx Hmx Hcx Htx Hrx. unfold row_at.
      destruct (find_exists
                  (fun s => String.eqb (metric_key s) metric
                            && String.eqb (clan_name s) c && (ts s =? t)%Z)
                  (clan_metric_history d) x Hx) as (y & Hy & Hyin & Hyf).
      { rewrite !andb_true_iff, !String.eqb_eq, Z.eqb_eq. auto. }
      exists y. split; [exact Hy|].
      rewrite !andb_true_iff, !String.eqb_eq, Z.eqb_eq in Hyf.
      destruct Hyf as [[Hym Hyc] Hyt]. unfold selected. rewrite Hyt. tauto. }
    destruct (Hfind a lo Ha Hma Hca Hta) as (s1 & E1 & R1); [lia|].
    destruct (Hfind b hi Hb' Hmb Hcb Htb) as (s2 & E2 & R2); [lia|].
    exists s1, s2. rewrite E1, E2. simpl. auto.
  - intros Hclock clan s (Hin & _ & _ & Hlo). rewrite List.Forall_forall in Hclock.
    pose proof (Hclock s Hin). lia.
Qed.

(** C6 as worded fails for a snapshot of the future.  A snapshot written
    with the explicit timestamp 9000 is counted by a query made at time
    5000, over twelve hours, although no snapshot of the clan lies in
    [[5000 - 12*3600, 5000]]. *)
Lemma C6_snapshot_after_now_is_counted :
  let d := add_clan_metric_snapshot 4000 "looted_hackable" "Alpha" (Some 1%Z) (Some 50%Q)
                                    (Some 9000%Z) empty_db in
  In "Alpha" (map fst (get_clan_metric_changes 5000 "looted_hackable" 12 d))
  ∧ ¬ ∃ s, In s (clan_metric_history d) ∧ metric_key s = "looted_hackable"
           ∧ clan_name s = "Alpha" ∧ (5000 - 12 * 3600 <= ts s <= 5000)%Z.
Proof.
  split; [by left|].
  intros (s & [<- | []] & _ & _ & Hr). simpl in Hr. lia.
Qed.

End StorageFacts.

(** ** Trend view *)

Module EmbedsFacts.

Import Embeds.

(** Deltas never increase along the list. *)
Definition descending (rows : list TrendRow) : Prop :=
    StronglySorted (fun a b => (delta b <= delta a)%Q) rows.

(** Deltas strictly decrease along the list. *)
Definition strictly_descending (rows : list TrendRow) : Prop :=
    StronglySorted (fun a b => (delta b < delta a)%Q) rows.

Lemma insert_desc_In r sorted x :
  In x (insert_desc r sorted) ↔ x = r ∨ In x sorted.
Proof.
  induction sorted as [|r' rest IH]; simpl.
  - intuition.
  - destruct (Qle_bool (delta r') (delta r)); simpl; [|rewrite IH]; intuition.
Qed.

Lemma insert_desc_descending r sorted :
  descending sorted → descending (insert_desc r sorted).
Proof.
  unfold descending. induction 1 as [|r' rest Hrest IH Hall]; simpl.
  - repeat constructor.
  - rewrite List.Forall_forall in Hall.
    destruct (Qle_bool (delta r') (delta r)) eqn:E.
    + apply Qle_bool_iff in E. constructor; [by constructor; [|apply List.Forall_forall]|].
      constructor; [exact E|]. apply List.Forall_forall. intros x Hx.
      eapply Qle_trans; [apply Hall, Hx | exact E].
    + assert (Hlt : (delta r < delta r')%Q).
      { apply Qnot_le_lt. intros H. apply Qle_bool_iff in H. congruence. }
      constructor; [exact IH|]. apply List.Forall_forall. intros x Hx.
      apply insert_desc_In in Hx as [-> | Hx]; [by apply Qlt_le_weak | by apply Hall].
Qed.

Lemma sort_desc_descending rows : descending (sort_desc rows).
Proof.
  induction rows as [|r rest IH]; simpl.
  - constructor.
  - by apply insert_desc_descending.
Qed.

Lemma sort_desc_In rows x : In x (sort_desc rows) ↔ In x rows.
Proof.
  induction rows as [|r rest IH]; simpl; [tauto|].
  rewrite insert_desc_In, IH. intuition.
Qed.

Lemma take_In {A} n (l : list A) x : In x (take n l) → In x l.
Proof.
  revert l. induction n as [|n IH]; intros [|y l]; simpl; try tauto.
  intros [-> | H]; auto.
Qed.

Lemma take_descending n rows : descending rows → descending (take n rows).
Proof.
  unfold descending. intros H. revert n.
  induction H as [|r rest Hrest IH Hall]; intros [|n]; simpl; try constructor.
  - apply IH.
  - rewrite List.Forall_forall in *. intros x Hx. apply Hall. by eapply take_In.
Qed.

Lemma filter_descending (f : TrendRow → bool) rows :
  descending rows → descending (List.filter f rows).
Proof.
  unfold descending. induction 1 as [|r rest Hrest IH Hall]; simpl; [constructor|].
  destruct (f r); [|exact IH]. constructor; [exact IH|].
  rewrite List.Forall_forall in *. intros x [Hx _]%filter_In. by apply Hall.
Qed.

Lemma filter_length_le {A} (f : A → bool) (l : list A) :
  (List.length (List.filter f l) ≤ List.length l)%nat.
Proof. induction l as [|x l IH]; simpl; [lia|]. destruct (f x); simpl; lia. Qed.

(** A field that shows lines shows the trend lines of one trend metric. *)
Lemma build_trend_embed_lines now_at d lbl lines :
  In (lbl, Lines lines) (build_trend_embed now_at d) →
  ∃ metric_key, In metric_key TREND_METRICS ∧ lines ≠ []
    ∧ lines = trend_lines
                (Storage.get_clan_metric_changes (now_at metric_key) metric_key 12 d).
Proof.
  unfold build_trend_embed. intros H. apply list_elem_of_In, list_elem_of_omap in H.
  destruct H as (k & Hk & Hf). exists k. split; [by apply list_elem_of_In|].
  destruct (RustinityClient.METRICS !! k); [|discriminate].
  injection Hf as _ Hf. unfold trend_field in Hf.
  destruct (Storage.get_clan_metric_changes _ _ _ _); [discriminate|].
  destruct (trend_lines _); [discriminate|]. injection Hf as <-. split; [discriminate|].
  reflexivity.
Qed.

(** C3 (as far as the code goes). The trend lines of a metric are in
    descending order of delta where equal deltas may follow one another, there
    are at most five of them, and each has a delta greater than zero; what is
    kept is taken from the windowed changes. *)
Theorem C3_trend_lines_descending_top5_positive
    (trend : list (string * Storage.Change)) :
  descending (trend_lines trend)
  ∧ (List.length (trend_lines trend) ≤ 5)%nat
  ∧ Forall (fun r => (0 < delta r)%Q) (trend_lines trend)
  ∧ (∀ r, In r (trend_lines trend) → In r (map trend_row trend)).
Proof.
  unfold trend_lines, positive_lines. repeat split.
  - apply filter_descending, take_descending, sort_desc_descending.
  - etransitivity; [apply filter_length_le|]. rewrite length_take. lia.
  - apply List.Forall_forall. intros r [_ Hr]%filter_In.
    apply Qnot_le_lt. intros H. apply Qle_bool_iff in H. rewrite H in Hr. discriminate.
  - intros r [Hr _]%filter_In. by apply sort_desc_In, (take_In 5).
Qed.

(** Two clans whose hackable-crate count rose by the same amount inside the
    window. *)
Definition tied_history : Storage.Database :=
    {| Storage.clan_metric_history :=
         [ Storage.mkSnapshot "looted_hackable" "Alpha" 1000 (Some 1%Z) (Some 5%Q);
           Storage.mkSnapshot "looted_hackable" "Bravo" 1000 (Some 2%Z) (Some 3%Q);
           Storage.mkSnapshot "looted_hackable" "Alpha" 4600 (Some 1%Z) (Some 15%Q);
           Storage.mkSnapshot "looted_hackable" "Bravo" 4600 (Some 2%Z) (Some 13%Q) ];
       Storage.watch_clans := ∅;
       Storage.watch_players := ∅ |}.

Example tied_history_field :
  build_trend_embed (fun _ => 5000%Z) tied_history
  = [ ("Hackable Crates Looted",
       Lines [ mkTrendRow "Alpha" (15 - 5) 15 1; mkTrendRow "Bravo" (13 - 3) 13 2 ]);
      ("Sulfur Ore Gathered", NoDataYet);
      ("Rockets Fired", NoDataYet);
      ("Bradley Crates Looted", NoDataYet) ].
Proof. vm_compute. reflexivity. Qed.

(** Spec scenario of section 8: with a single snapshot of a clan inside the
    window, start equals end; the clan is in the windowed changes and not in
    the trend lines. *)
Definition single_snapshot : Storage.Database :=
    {| Storage.clan_metric_history :=
         [ Storage.mkSnapshot "looted_hackable" "Alpha" 4000 (Some 1%Z) (Some 5%Q) ];
       Storage.watch_clans := ∅;
       Storage.watch_players := ∅ |}.

Example single_snapshot_views :
  Storage.get_clan_metric_changes 5000 "looted_hackable" 12 single_snapshot
  = [ ("Alpha", Storage.mkChange 5 5 1) ]
  ∧ trend_lines (Storage.get_clan_metric_changes 5000 "looted_hackable" 12 single_snapshot)
    = []
  ∧ trend_field (Storage.get_clan_metric_changes 5000 "looted_hackable" 12 single_snapshot)
    = NoPositiveGains.
Proof. split; [|split]; vm_compute; reflexivity. Qed.

(** C3, the word "strictly": with two clans that gained the same amount the
    trend lines of the metric show both, so the deltas do not strictly
    decrease. *)
Lemma C3_ties_are_both_shown :
  ¬ strictly_descending
      (trend_lines (Storage.get_clan_metric_changes 5000 "looted_hackable" 12 tied_history)).
Proof.
  intros H. vm_compute in H. inversion H as [|? ? _ Hall]; subst.
  inversion Hall as [|? ? Hlt _]; subst.
  vm_compute in Hlt. discriminate.
Qed.

End EmbedsFacts.

(** ** Delta engine: one observation *)

Module DeltaFacts.

Import Leaderboard RustinityClient Watchers.

(** The effects performed between two states of one run. *)
Definition events_since (st st' : State) : list Event :=
    drop (length (trace st)) (trace st').

Definition attempted (evs : list Event) : Prop :=
    ∃ msg ok, In (SendAttempt msg ok) evs.

(** The call was left by an exception. *)
Definition raises {R : Type} (o : Outcome R) : Prop := ∃ st, o = Failed st.

Lemma events_since_app st st' evs :
  trace st' = trace st ++ evs → events_since st st' = evs.
Proof. unfold events_since. intros ->. apply drop_app_length. Qed.

Lemma not_attempted_nil : ¬ attempted [].
Proof. intros (msg & ok & []). Qed.

Lemma Qle_bool_false (x y : Q) : Qle_bool x y = false ↔ (y < x)%Q.
Proof.
  split.
  - intros E. apply Qnot_le_lt. intros H. apply Qle_bool_iff in H. congruence.
  - intros H. destruct (Qle_bool x y) eqn:E; [|reflexivity].
    apply Qle_bool_iff in E. apply Qlt_not_le in H. contradiction.
Qed.

Lemma lower_eqb_false (a b : string) :
  String.eqb (PyStr.lower a) (PyStr.lower b) = false ↔ PyStr.lower a ≠ PyStr.lower b.
Proof. apply String.eqb_neq. Qed.

(** Every configured threshold is positive. *)
Lemma ALERT_THRESHOLDS_positive metric_key limit :
  ALERT_THRESHOLDS !! metric_key = Some limit → (0 < limit)%Q.
Proof.
  unfold ALERT_THRESHOLDS. simpl. intros H.
  repeat (apply lookup_insert_Some in H as [[_ <-] | [_ H]]; [reflexivity|]).
  rewrite lookup_empty in H. discriminate.
Qed.

(** A finite delta other than the [0.0] of a first observation comes from
    two finite values. *)
Lemma delta_since_finite last cur dq :
  delta_since last cur = Finite dq → ¬ (dq == 0)%Q → ∃ cq, cur = Finite cq.
Proof.
  destruct last as [last|]; simpl.
  - destruct cur as [c| | |], last as [l| | |]; simpl; try discriminate. by exists c.
  - intros [= <-] H. exfalso. apply H. reflexivity.
Qed.

Lemma delta_since_positive last cur dq :
  delta_since last cur = Finite dq → (0 < dq)%Q → ∃ cq, cur = Finite cq.
Proof.
  intros Hd Hpos. apply (delta_since_finite _ _ _ Hd).
  intros H. rewrite H in Hpos. by apply Qlt_irrefl in Hpos.
Qed.

(** The three loop bodies at a value that [float] accepts, as one
    conditional each. *)

Lemma watch_clan_stat_float w cfg grp clan_raw clan_lc rk st n stat_key raw cur :
  py_float raw = Float cur →
  watch_clan_stat w cfg grp clan_raw clan_lc rk (st, n) (stat_key, raw)
  = let key := (grp, clan_lc, stat_key) in
    let d := delta_since (WATCH_CLAN_LAST_VALUES st !! key) cur in
    if py_le d 0 then Done (store_clan_value key cur st, n)
    else match alert_numbers d cur with
         | None => Failed (store_clan_value key cur st)
         | Some (dq, cq) =>
             Done (try_send w (mkMessage WATCH clan_raw None stat_key (Some grp) dq cq rk
                                         (Config.role_mention cfg))
                            (store_clan_value key cur st, n))
         end.
Proof. intros H. unfold watch_clan_stat. rewrite H. reflexivity. Qed.

Lemma watch_player_stat_float w cfg grp steam_id user lbl rk st n stat_key raw cur :
  py_float raw = Float cur →
  watch_player_stat w cfg grp steam_id user lbl rk (st, n) (stat_key, raw)
  = let key := (grp, steam_id, stat_key) in
    let d := delta_since (WATCH_PLAYER_LAST_VALUES st !! key) cur in
    if py_le d 0 then Done (store_player_value key cur st, n)
    else match alert_numbers d cur with
         | None => Failed (store_player_value key cur st)
         | Some (dq, cq) =>
             Done (try_send w (mkMessage PLAYER_WATCH user (Some lbl) stat_key (Some grp)
                                         dq cq rk (Config.role_mention cfg))
                            (store_player_value key cur st, n))
         end.
Proof. intros H. unfold watch_player_stat. rewrite H. reflexivity. Qed.

Lemma spike_row_float w cfg metric_key sort_by threshold st n row cur :
  PyStr.truthy (clan_name_raw row) = true →
  py_float_of (dict_get sort_by (stats row)) = Float cur →
  spike_row w cfg metric_key sort_by threshold (st, n) row
  = let clan_raw := clan_name_raw row in
    let st1 := log_snapshot w metric_key clan_raw (rank row) cur st in
    match threshold with
    | None => Done (st1, n)
    | Some limit =>
        let key := (metric_key, clan_raw) in
        let d := delta_since (LAST_CLAN_METRIC_VALUES st !! key) cur in
        let st2 := store_metric_value key cur st1 in
        if py_lt d limit then Done (st2, n)
        else if String.eqb (PyStr.lower clan_raw) (PyStr.lower (Config.clan_name cfg))
        then Done (st2, n)
        else match alert_numbers d cur with
             | None => Failed st2
             | Some (dq, cq) =>
                 Done (try_send w (mkMessage SPIKE clan_raw None metric_key None dq cq
                                             (rank row) (Config.role_mention cfg))
                                (st2, n))
             end
    end.
Proof. intros Hname Hval. unfold spike_row. rewrite Hname, Hval. reflexivity. Qed.

(** Solves [trace st' = trace st ++ ?evs] once [st'] is an explicit chain of
    stores and sends from [st]. *)
Ltac since_by_trace := simpl; rewrite <- ?app_assoc; reflexivity.

(** C1, on the code. The first observation of a key yields the delta zero,
    the same as an unchanged value; the value is stored, the call returns
    and nothing is sent: the all-stats watches send only for a delta above
    zero, and every configured spike threshold is above zero.  This holds
    for every value that [float] accepts, the infinities and the NaN
    included.  For the spike detector the snapshot is logged as for any
    other row. *)
Theorem C1_first_observation_stores_and_is_silent (w : World) (cfg : Config.Settings) :
  (∀ grp clan_raw clan_lc rk st n stat_key raw cur,
     py_float raw = Float cur →
     WATCH_CLAN_LAST_VALUES st !! (grp, clan_lc, stat_key) = None →
     delta_since (WATCH_CLAN_LAST_VALUES st !! (grp, clan_lc, stat_key)) cur = Finite 0
     ∧ watch_clan_stat w cfg grp clan_raw clan_lc rk (st, n) (stat_key, raw)
       = Done (store_clan_value (grp, clan_lc, stat_key) cur st, n))
  ∧ (∀ grp steam_id user lbl rk st n stat_key raw cur,
     py_float raw = Float cur →
     WATCH_PLAYER_LAST_VALUES st !! (grp, steam_id, stat_key) = None →
     delta_since (WATCH_PLAYER_LAST_VALUES st !! (grp, steam_id, stat_key)) cur = Finite 0
     ∧ watch_player_stat w cfg grp steam_id user lbl rk (st, n) (stat_key, raw)
       = Done (store_player_value (grp, steam_id, stat_key) cur st, n))
  ∧ (∀ metric_key sort_by limit st n row cur,
     PyStr.truthy (clan_name_raw row) = true →
     py_float_of (dict_get sort_by (stats row)) = Float cur →
     ALERT_THRESHOLDS !! metric_key = Some limit →
     LAST_CLAN_METRIC_VALUES st !! (metric_key, clan_name_raw row) = None →
     delta_since (LAST_CLAN_METRIC_VALUES st !! (metric_key, clan_name_raw row)) cur
     = Finite 0
     ∧ spike_row w cfg metric_key sort_by (ALERT_THRESHOLDS !! metric_key) (st, n) row
       = Done (store_metric_value (metric_key, clan_name_raw row) cur
                 (log_snapshot w metric_key (clan_name_raw row) (rank row) cur st), n)).
Proof.
  split; [|split].
  - intros grp clan_raw clan_lc rk st n stat_key raw cur Hraw Hnew.
    rewrite (watch_clan_stat_float _ _ _ _ _ _ _ _ _ _ _ Hraw). simpl.
    rewrite Hnew. by split.
  - intros grp steam_id user lbl rk st n stat_key raw cur Hraw Hnew.
    rewrite (watch_player_stat_float _ _ _ _ _ _ _ _ _ _ _ _ Hraw). simpl.
    rewrite Hnew. by split.
  - intros metric_key sort_by limit st n row cur Hname Hval Hlimit Hnew.
    rewrite (spike_row_float _ _ _ _ _ _ _ _ _ Hname Hval), Hlimit. simpl.
    rewrite Hnew. simpl. split; [reflexivity|].
    apply ALERT_THRESHOLDS_positive, Qle_bool_false in Hlimit. by rewrite Hlimit.
Qed.

(** C1 as worded: "no delta, not zero".  In a fresh process the first
    reading of a watched clan's kill count has the delta zero, and so has a
    second, unchanged reading: the code does not tell the two apart. *)
Lemma C1_first_delta_is_zero_like_unchanged :
  let st := initial_state Storage.empty_db in
  let key := ("pvp", "walobots", "kill_player") in
  WATCH_CLAN_LAST_VALUES st !! key = None
  ∧ delta_since (WATCH_CLAN_LAST_VALUES st !! key) (Finite 50) = Finite 0
  ∧ delta_since (WATCH_CLAN_LAST_VALUES (store_clan_value key (Finite 50) st) !! key)
                (Finite 50) = Finite (50 - 50)
  ∧ (50 - 50 == 0)%Q
  ∧ ¬ (delta_since (WATCH_CLAN_LAST_VALUES st !! key) (Finite 50) ≠ Finite 0).
Proof.
  simpl. repeat split.
  intros H. apply H. reflexivity.
Qed.

Lemma attempted_two_stores e1 e2 :
  (∀ msg ok, e1 ≠ SendAttempt msg ok) → (∀ msg ok, e2 ≠ SendAttempt msg ok) →
  ¬ attempted [e1; e2].
Proof. intros H1 H2 (msg & ok & [H | [H | []]]); [by eapply H1 | by eapply H2]. Qed.

Lemma attempted_one_store e1 :
  (∀ msg ok, e1 ≠ SendAttempt msg ok) → ¬ attempted [e1].
Proof. intros H1 (msg & ok & [H | []]). by eapply H1. Qed.

(** What a send attempt among the effects of one observation carries: the
    delta and the current value, both finite. *)
Definition carries (evs : list Event) (d cur : PyFloat) : Prop :=
    ∀ msg ok, In (SendAttempt msg ok) evs →
      d = Finite (delta msg) ∧ cur = Finite (now_val msg).

(** A delta that passes the guard and on which [int] raises. *)
Definition unprintable (d : PyFloat) : Prop := d = PosInf ∨ d = NaN.

(** The ways of one observation by an all-stats watch whose delta is [d]:
    [quiet] when the guard [delta <= 0] holds, [sent] with the message, and
    [failed] when the text cannot be built. *)
Lemma watch_cases (d cur : PyFloat) :
  (∀ dq, d = Finite dq → (0 < dq)%Q → ∃ cq, cur = Finite cq) →
  (py_le d 0 = true ∧ ¬ unprintable d ∧ ¬ (∃ dq, d = Finite dq ∧ (0 < dq)%Q))
  ∨ (py_le d 0 = false ∧ ¬ unprintable d
     ∧ ∃ dq cq, d = Finite dq ∧ cur = Finite cq ∧ (0 < dq)%Q
                ∧ alert_numbers d cur = Some (dq, cq))
  ∨ (py_le d 0 = false ∧ unprintable d ∧ alert_numbers d cur = None
     ∧ ¬ (∃ dq, d = Finite dq ∧ (0 < dq)%Q)).
Proof.
  intros Hfin. unfold unprintable. destruct d as [dq| | |]; simpl.
  - destruct (Qle_bool dq 0) eqn:Hle.
    + left. apply Qle_bool_iff in Hle. split; [reflexivity|]. split.
      * intros [H | H]; discriminate.
      * intros (x & [= <-] & Hx). apply Qlt_not_le in Hx. contradiction.
    + right. left. apply Qle_bool_false in Hle.
      destruct (Hfin dq eq_refl Hle) as [cq ->]. split; [reflexivity|]. split.
      * intros [H | H]; discriminate.
      * by exists dq, cq.
  - right. right. repeat split; [by left|]. intros (x & H & _). discriminate.
  - left. repeat split; [intros [H | H]; discriminate|].
    intros (x & H & _). discriminate.
  - right. right. repeat split; [by right|]. intros (x & H & _). discriminate.
Qed.

(** The effects of one observation by the clan watch. *)
Lemma watch_clan_stat_effects w cfg grp clan_raw clan_lc rk st n stat_key raw cur :
  py_float raw = Float cur →
  let key := (grp, clan_lc, stat_key) in
  let d := delta_since (WATCH_CLAN_LAST_VALUES st !! key) cur in
  let out := watch_clan_stat w cfg grp clan_raw clan_lc rk (st, n) (stat_key, raw) in
  let st' := left_by fst out in
  WATCH_CLAN_LAST_VALUES st' = <[key := cur]> (WATCH_CLAN_LAST_VALUES st)
  ∧ carries (events_since st st') d cur
  ∧ (attempted (events_since st st') ↔ ∃ dq, d = Finite dq ∧ (0 < dq)%Q)
  ∧ (raises out ↔ unprintable d)
  ∧ (py_le d 0 = true → ¬ attempted (events_since st st')).
Proof.
  intros Hraw key d out st'. subst st' out.
  rewrite (watch_clan_stat_float _ _ _ _ _ _ _ _ _ _ _ Hraw). cbv zeta. fold key d.
  destruct (watch_cases d cur (delta_since_positive _ _))
    as [(Hle & Hnp & Hnf) | [(Hle & Hnp & dq & cq & Hd & Hc & Hpos & Hnum)
                            | (Hle & Hnp & Hnum & Hnf)]];
    rewrite Hle; [|rewrite Hnum..]; simpl;
    (split; [reflexivity|]); erewrite events_since_app by since_by_trace.
  - split; [intros msg ok [H | []]; discriminate|].
    split; [split; [intros H; by apply attempted_one_store in H | tauto]|].
    split; [split; [intros [s H]; discriminate | tauto]|].
    intros _ H. by apply attempted_one_store in H.
  - split; [intros msg ok [H | [[= <- _] | []]]; [discriminate | by split]|].
    split; [split; [by exists dq|]; intros _; eexists _, _; right; left; reflexivity|].
    split; [split; [intros [s H]; discriminate | tauto]|].
    discriminate.
  - split; [intros msg ok [H | []]; discriminate|].
    split; [split; [intros H; by apply attempted_one_store in H | tauto]|].
    split; [split; [tauto | intros _; by eexists]|].
    discriminate.
Qed.

(** The effects of one observation by the player watch. *)
Lemma watch_player_stat_effects w cfg grp steam_id user lbl rk st n stat_key raw cur :
  py_float raw = Float cur →
  let key := (grp, steam_id, stat_key) in
  let d := delta_since (WATCH_PLAYER_LAST_VALUES st !! key) cur in
  let out := watch_player_stat w cfg grp steam_id user lbl rk (st, n) (stat_key, raw) in
  let st' := left_by fst out in
  WATCH_PLAYER_LAST_VALUES st' = <[key := cur]> (WATCH_PLAYER_LAST_VALUES st)
  ∧ carries (events_since st st') d cur
  ∧ (attempted (events_since st st') ↔ ∃ dq, d = Finite dq ∧ (0 < dq)%Q)
  ∧ (raises out ↔ unprintable d)
  ∧ (py_le d 0 = true → ¬ attempted (events_since st st')).
Proof.
  intros Hraw key d out st'. subst st' out.
  rewrite (watch_player_stat_float _ _ _ _ _ _ _ _ _ _ _ _ Hraw). cbv zeta. fold key d.
  destruct (watch_cases d cur (delta_since_positive _ _))
    as [(Hle & Hnp & Hnf) | [(Hle & Hnp & dq & cq & Hd & Hc & Hpos & Hnum)
                            | (Hle & Hnp & Hnum & Hnf)]];
    rewrite Hle; [|rewrite Hnum..]; simpl;
    (split; [reflexivity|]); erewrite events_since_app by since_by_trace.
  - split; [intros msg ok [H | []]; discriminate|].
    split; [split; [intros H; by apply attempted_one_store in H | tauto]|].
    split; [split; [intros [s H]; discriminate | tauto]|].
    intros _ H. by apply attempted_one_store in H.
  - split; [intros msg ok [H | [[= <- _] | []]]; [discriminate | by split]|].
    split; [split; [by exists dq|]; intros _; eexists _, _; right; left; reflexivity|].
    split; [split; [intros [s H]; discriminate | tauto]|].
    discriminate.
  - split; [intros msg ok [H | []]; discriminate|].
    split; [split; [intros H; by apply attempted_one_store in H | tauto]|].
    split; [split; [tauto | intros _; by eexists]|].
    discriminate.
Qed.

(** The ways of one row at the spike check, for a threshold above zero. *)
Lemma spike_cases (limit : Q) (d cur : PyFloat) :
  (0 < limit)%Q →
  (∀ dq, d = Finite dq → (0 < dq)%Q → ∃ cq, cur = Finite cq) →
  (py_lt d limit = true ∧ ¬ unprintable d ∧ ¬ (∃ dq, d = Finite dq ∧ (limit <= dq)%Q))
  ∨ (py_lt d limit = false ∧ ¬ unprintable d
     ∧ ∃ dq cq, d = Finite dq ∧ cur = Finite cq ∧ (limit <= dq)%Q
                ∧ alert_numbers d cur = Some (dq, cq))
  ∨ (py_lt d limit = false ∧ unprintable d ∧ alert_numbers d cur = None
     ∧ ¬ (∃ dq, d = Finite dq ∧ (limit <= dq)%Q)).
Proof.
  intros Hlimit Hfin. unfold unprintable. destruct d as [dq| | |]; simpl.
  - destruct (Qle_bool limit dq) eqn:Hle; simpl.
    + right. left. apply Qle_bool_iff in Hle.
      destruct (Hfin dq eq_refl) as [cq ->]; [by eapply Qlt_le_trans|].
      split; [reflexivity|]. split.
      * intros [H | H]; discriminate.
      * by exists dq, cq.
    + left. apply Qle_bool_false in Hle. split; [reflexivity|]. split.
      * intros [H | H]; discriminate.
      * intros (x & [= <-] & Hx). apply Qlt_not_le in Hle. contradiction.
  - right. right. repeat split; [by left|]. intros (x & H & _). discriminate.
  - left. repeat split; [intros [H | H]; discriminate|].
    intros (x & H & _). discriminate.
  - right. right. repeat split; [by right|]. intros (x & H & _). discriminate.
Qed.

(** Whatever the threshold and however the row ends, the value it read is in
    the cache afterwards. *)
Lemma spike_row_cache w cfg metric_key sort_by limit st n row cur :
  PyStr.truthy (clan_name_raw row) = true →
  py_float_of (dict_get sort_by (stats row)) = Float cur →
  let key := (metric_key, clan_name_raw row) in
  let st' := left_by fst (spike_row w cfg metric_key sort_by (Some limit) (st, n) row) in
  LAST_CLAN_METRIC_VALUES st' = <[key := cur]> (LAST_CLAN_METRIC_VALUES st).
Proof.
  intros Hname Hval key st'. subst st'.
  rewrite (spike_row_float _ _ _ _ _ _ _ _ _ Hname Hval). cbv zeta.
  destruct (py_lt _ limit); [by simpl|].
  destruct (String.eqb _ _); [by simpl|].
  by destruct (alert_numbers _ cur) as [[dq cq]|]; simpl.
Qed.

(** The effects of one row that reaches the spike check. *)
Lemma spike_row_effects w cfg metric_key sort_by limit st n row cur :
  (0 < limit)%Q →
  PyStr.truthy (clan_name_raw row) = true →
  py_float_of (dict_get sort_by (stats row)) = Float cur →
  let key := (metric_key, clan_name_raw row) in
  let d := delta_since (LAST_CLAN_METRIC_VALUES st !! key) cur in
  let out := spike_row w cfg metric_key sort_by (Some limit) (st, n) row in
  let st' := left_by fst out in
  let other := PyStr.lower (clan_name_raw row) ≠ PyStr.lower (Config.clan_name cfg) in
  carries (events_since st st') d cur
  ∧ (attempted (events_since st st') ↔ (∃ dq, d = Finite dq ∧ (limit <= dq)%Q) ∧ other)
  ∧ (raises out ↔ unprintable d ∧ other)
  ∧ (py_lt d limit = true → ¬ attempted (events_since st st')).
Proof.
  intros Hlimit Hname Hval key d out st' other. subst st' out other.
  rewrite (spike_row_float _ _ _ _ _ _ _ _ _ Hname Hval). cbv zeta. fold key d.
  destruct (spike_cases limit d cur Hlimit (delta_since_positive _ _))
    as [(Hlt & Hnp & Hnf) | [(Hlt & Hnp & dq & cq & Hd & Hc & Hpos & Hnum)
                            | (Hlt & Hnp & Hnum & Hnf)]];
    rewrite Hlt.
  - simpl. erewrite events_since_app by since_by_trace.
    split; [intros msg ok [H | [H | []]]; discriminate|].
    split; [split; [intros H; by apply attempted_two_stores in H | tauto]|].
    split; [split; [intros [s H]; discriminate | tauto]|].
    intros _ H. by apply attempted_two_stores in H.
  - destruct (String.eqb (PyStr.lower (clan_name_raw row))
                         (PyStr.lower (Config.clan_name cfg))) eqn:Hown.
    + apply String.eqb_eq in Hown. simpl.
      erewrite events_since_app by since_by_trace.
      split; [intros msg ok [H | [H | []]]; discriminate|].
      split; [split; [intros H; by apply attempted_two_stores in H | tauto]|].
      split; [split; [intros [s H]; discriminate | tauto]|].
      discriminate.
    + apply String.eqb_neq in Hown. rewrite Hnum. simpl.
      erewrite events_since_app by since_by_trace.
      split; [intros msg ok [H | [H | [[= <- _] | []]]]; try discriminate; by split|].
      split.
      { split; [intros _; split; [by exists dq | exact Hown]|].
        intros _. eexists _, _. right. right. left. reflexivity. }
      split; [split; [intros [s H]; discriminate | tauto]|].
      discriminate.
  - destruct (String.eqb (PyStr.lower (clan_name_raw row))
                         (PyStr.lower (Config.clan_name cfg))) eqn:Hown.
    + apply String.eqb_eq in Hown. simpl.
      erewrite events_since_app by since_by_trace.
      split; [intros msg ok [H | [H | []]]; discriminate|].
      split; [split; [intros H; by apply attempted_two_stores in H | tauto]|].
      split; [split; [intros [s H]; discriminate | tauto]|].
      discriminate.
    + apply String.eqb_neq in Hown. rewrite Hnum. simpl.
      erewrite events_since_app by since_by_trace.
      split; [intros msg ok [H | [H | []]]; discriminate|].
      split; [split; [intros H; by apply attempted_two_stores in H | tauto]|].
      split; [split; [tauto | intros _; by eexists]|].
      discriminate.
Qed.


(** C4. At every observation of a value that [float] accepts, each of the
    three caches is overwritten at the observed key with the current value,
    whatever the delta and however the call ends; when the key held [last],
    the delta is [cur - last], it is the delta of any alert attempted for
    the observation, and no alert is attempted when the value did not rise
    (all-stats watches) or rose by less than the threshold (spike
    detector). *)
Theorem C4_delta_and_unconditional_overwrite (w : World) (cfg : Config.Settings) :
  (∀ grp clan_raw clan_lc rk st n stat_key raw cur,
     py_float raw = Float cur →
     let key := (grp, clan_lc, stat_key) in
     let st' := left_by fst (watch_clan_stat w cfg grp clan_raw clan_lc rk (st, n)
                                             (stat_key, raw)) in
     WATCH_CLAN_LAST_VALUES st' = <[key := cur]> (WATCH_CLAN_LAST_VALUES st)
     ∧ WATCH_CLAN_LAST_VALUES st' !! key = Some cur
     ∧ ∀ last, WATCH_CLAN_LAST_VALUES st !! key = Some last →
         delta_since (WATCH_CLAN_LAST_VALUES st !! key) cur = py_sub cur last
         ∧ (∀ c l, cur = Finite c → last = Finite l →
              py_sub cur last = Finite (c - l))
         ∧ carries (events_since st st') (py_sub cur last) cur
         ∧ (py_le (py_sub cur last) 0 = true → ¬ attempted (events_since st st'))
         ∧ (∀ c l, cur = Finite c → last = Finite l → (c - l <= 0)%Q →
              ¬ attempted (events_since st st')))
  ∧ (∀ grp steam_id user lbl rk st n stat_key raw cur,
     py_float raw = Float cur →
     let key := (grp, steam_id, stat_key) in
     let st' := left_by fst (watch_player_stat w cfg grp steam_id user lbl rk (st, n)
                                               (stat_key, raw)) in
     WATCH_PLAYER_LAST_VALUES st' = <[key := cur]> (WATCH_PLAYER_LAST_VALUES st)
     ∧ WATCH_PLAYER_LAST_VALUES st' !! key = Some cur
     ∧ ∀ last, WATCH_PLAYER_LAST_VALUES st !! key = Some last →
         delta_since (WATCH_PLAYER_LAST_VALUES st !! key) cur = py_sub cur last
         ∧ (∀ c l, cur = Finite c → last = Finite l →
              py_sub cur last = Finite (c - l))
         ∧ carries (events_since st st') (py_sub cur last) cur
         ∧ (py_le (py_sub cur last) 0 = true → ¬ attempted (events_since st st'))
         ∧ (∀ c l, cur = Finite c → last = Finite l → (c - l <= 0)%Q →
              ¬ attempted (events_since st st')))
  ∧ (∀ metric_key sort_by limit st n row cur,
     PyStr.truthy (clan_name_raw row) = true →
     py_float_of (dict_get sort_by (stats row)) = Float cur →
     ALERT_THRESHOLDS !! metric_key = Some limit →
     let key := (metric_key, clan_name_raw row) in
     let st' := left_by fst (spike_row w cfg metric_key sort_by
                                       (ALERT_THRESHOLDS !! metric_key) (st, n) row) in
     LAST_CLAN_METRIC_VALUES st' = <[key := cur]> (LAST_CLAN_METRIC_VALUES st)
     ∧ LAST_CLAN_METRIC_VALUES st' !! key = Some cur
     ∧ ∀ last, LAST_CLAN_METRIC_VALUES st !! key = Some last →
         delta_since (LAST_CLAN_METRIC_VALUES st !! key) cur = py_sub cur last
         ∧ (∀ c l, cur = Finite c → last = Finite l →
              py_sub cur last = Finite (c - l))
         ∧ carries (events_since st st') (py_sub cur last) cur
         ∧ (py_lt (py_sub cur last) limit = true → ¬ attempted (events_since st st'))
         ∧ (∀ c l, cur = Finite c → last = Finite l → (c - l < limit)%Q →
              ¬ attempted (events_since st st'))).
Proof.
  split; [|split].
  - intros grp clan_raw clan_lc rk st n stat_key raw cur Hraw key st'.
    destruct (watch_clan_stat_effects w cfg grp clan_raw clan_lc rk st n stat_key raw cur
                Hraw) as (Hcache & Hmsg & _ & _ & Hquiet).
    fold key st' in Hcache, Hmsg, Hquiet.
    split; [exact Hcache|]. split; [rewrite Hcache; apply lookup_insert_eq|].
    intros last Hlast. rewrite Hlast in *. cbn [delta_since] in *.
    split; [reflexivity|]. split; [by intros c l -> ->|].
    split; [exact Hmsg|]. split; [exact Hquiet|].
    intros c l -> -> Hle. apply Hquiet. simpl. by apply Qle_bool_iff.
  - intros grp steam_id user lbl rk st n stat_key raw cur Hraw key st'.
    destruct (watch_player_stat_effects w cfg grp steam_id user lbl rk st n stat_key
                raw cur Hraw) as (Hcache & Hmsg & _ & _ & Hquiet).
    fold key st' in Hcache, Hmsg, Hquiet.
    split; [exact Hcache|]. split; [rewrite Hcache; apply lookup_insert_eq|].
    intros last Hlast. rewrite Hlast in *. cbn [delta_since] in *.
    split; [reflexivity|]. split; [by intros c l -> ->|].
    split; [exact Hmsg|]. split; [exact Hquiet|].
    intros c l -> -> Hle. apply Hquiet. simpl. by apply Qle_bool_iff.
  - intros metric_key sort_by limit st n row cur Hname Hval Hlimit key st'.
    subst st'. rewrite Hlimit.
    pose proof (ALERT_THRESHOLDS_positive _ _ Hlimit) as Hpos.
    pose proof (spike_row_cache w cfg metric_key sort_by limit st n row cur Hname Hval)
      as Hcache.
    destruct (spike_row_effects w cfg metric_key sort_by limit st n row cur
                Hpos Hname Hval) as (Hmsg & _ & _ & Hquiet).
    fold key in Hcache, Hmsg, Hquiet. cbv zeta in Hcache, Hmsg, Hquiet.
    split; [exact Hcache|]. split; [rewrite Hcache; apply lookup_insert_eq|].
    intros last Hlast. rewrite Hlast in *. cbn [delta_since] in *.
    split; [reflexivity|]. split; [by intros c l -> ->|].
    split; [exact Hmsg|]. split; [exact Hquiet|].
    intros c l -> -> Hlt. apply Hquiet. simpl.
    apply negb_true_iff. by apply Qle_bool_false.
Qed.

End DeltaFacts.

(** ** Effect traces of the three consumers *)

Module TraceFacts.

Import Leaderboard RustinityClient Watchers DeltaFacts.

(** Number of sends that went through. *)
Definition successes (evs : list Event) : nat :=
    length (List.filter (fun e => match e with SendAttempt _ true => true | _ => false end)
                        evs).

(** What an effect does to the state. *)
Definition apply_event (st : State) (e : Event) : State :=
    match e with
    | ClanCacheSet key v => store_clan_value key v st
    | PlayerCacheSet key v => store_player_value key v st
    | MetricCacheSet key v => store_metric_value key v st
    | SnapshotAdded s =>
        emit e (mkState (WATCH_CLAN_LAST_VALUES st) (WATCH_PLAYER_LAST_VALUES st)
                        (LAST_CLAN_METRIC_VALUES st) (tracking_enabled st)
                        (Storage.mkDatabase
                           (Storage.clan_metric_history (db st) ++ [s])
                           (Storage.watch_clans (db st))
                           (Storage.watch_players (db st)))
                        (trace st))
    | SendAttempt _ _ | ClanFetch _ _ | PlayerFetch _ _ _ => emit e st
    end.

Definition replay (evs : list Event) (st : State) : State :=
    fold_left apply_event evs st.

(** The snapshots among the effects, in order. *)
Definition snapshots (evs : list Event) : list Storage.Snapshot :=
    omap (fun e => match e with SnapshotAdded s => Some s | _ => None end) evs.

(** Each snapshot among [evs], performed from a trace of length [k], is
    stamped with a clock reading taken on the way. *)
Definition stamped (w : World) (k : nat) (evs : list Event) : Prop :=
    List.Forall (fun s => ∃ i, (i ≤ k + length evs)%nat ∧ Storage.ts s = clock w i)
                (snapshots evs).

Definition closed (P : list Event → Prop) : Prop :=
    P [] ∧ ∀ l1 l2, P l1 → P l2 → P (l1 ++ l2).

(** The call that ended as [o] performed, from the state and the alert
    counter [a], the effects [evs]: the state it leaves is [a.1] with [evs]
    applied, the effects satisfy [P], their snapshots are stamped by the
    clock, and if the call returned, the counter grew by the sends that went
    through.  [π] reads the state and the counter off the result. *)
Definition performs {R : Type} (w : World) (π : R → State * nat)
      (P : list Event → Prop) (a : State * nat) (o : Outcome R) : Prop :=
    ∃ evs, left_by (fun r => (π r).1) o = replay evs a.1
           ∧ (∀ r, o = Done r → (π r).2 = (a.2 + successes evs)%nat)
           ∧ P evs
           ∧ stamped w (length (trace a.1)) evs.

Lemma successes_app l1 l2 : successes (l1 ++ l2) = (successes l1 + successes l2)%nat.
Proof. unfold successes. by rewrite List.filter_app, length_app. Qed.

Lemma snapshots_app l1 l2 : snapshots (l1 ++ l2) = snapshots l1 ++ snapshots l2.
Proof. apply omap_app. Qed.

Lemma replay_app l1 l2 st : replay (l1 ++ l2) st = replay l2 (replay l1 st).
Proof. apply fold_left_app. Qed.

Lemma replay_trace evs st : trace (replay evs st) = trace st ++ evs.
Proof.
  revert st. induction evs as [|e evs IH]; intros st; simpl; [by rewrite app_nil_r|].
  rewrite IH. destruct e; simpl; by rewrite <- app_assoc.
Qed.

Lemma replay_events evs st : events_since st (replay evs st) = evs.
Proof. apply events_since_app, replay_trace. Qed.

Lemma replay_frame evs st :
  tracking_enabled (replay evs st) = tracking_enabled st
  ∧ Storage.watch_clans (db (replay evs st)) = Storage.watch_clans (db st)
  ∧ Storage.watch_players (db (replay evs st)) = Storage.watch_players (db st).
Proof.
  revert st. induction evs as [|e evs IH]; intros st; simpl; [done|].
  destruct (IH (apply_event st e)) as (-> & -> & ->). by destruct e.
Qed.

Lemma replay_history evs st :
  Storage.clan_metric_history (db (replay evs st))
  = Storage.clan_metric_history (db st) ++ snapshots evs.
Proof.
  revert st. induction evs as [|e evs IH]; intros st; simpl; [by rewrite app_nil_r|].
  rewrite IH. destruct e; simpl; try reflexivity. by rewrite <- app_assoc.
Qed.

Lemma stamped_nil w k : stamped w k [].
Proof. constructor. Qed.

Lemma stamped_app w k l1 l2 :
  stamped w k l1 → stamped w (k + length l1) l2 → stamped w k (l1 ++ l2).
Proof.
  unfold stamped. intros H1 H2. rewrite snapshots_app, length_app.
  apply List.Forall_app. split.
  - eapply List.Forall_impl; [|exact H1]. intros s (i & Hi & Hs). exists i.
    split; [lia | exact Hs].
  - eapply List.Forall_impl; [|exact H2]. intros s (i & Hi & Hs). exists i.
    split; [lia | exact Hs].
Qed.

(** Effects without a snapshot need no stamp. *)
Lemma stamped_none w k evs : snapshots evs = [] → stamped w k evs.
Proof. unfold stamped. intros ->. constructor. Qed.

Lemma closed_and P1 P2 : closed P1 → closed P2 → closed (fun l => P1 l ∧ P2 l).
Proof. intros [N1 A1] [N2 A2]. split; [by split|]. intros l1 l2 [] []. split; auto. Qed.

Lemma closed_Forall (Q : Event → Prop) : closed (List.Forall Q).
Proof. split; [constructor|]. intros l1 l2 H1 H2. apply List.Forall_app. by split. Qed.

Section Performs.

Context {R : Type} (w : World) (π : R → State * nat) (P : list Event → Prop).
Hypothesis HP : closed P.

Lemma performs_done r : performs w π P (π r) (Done r).
Proof.
  exists []. split; [reflexivity|]. split; [|split; [apply HP | apply stamped_nil]].
  intros r' [= <-]. unfold successes. simpl. lia.
Qed.

(** An exception before any effect. *)
Lemma performs_failed a : performs w π P a (Failed a.1).
Proof.
  exists []. split; [reflexivity|]. split; [|split; [apply HP | apply stamped_nil]].
  intros r' [=].
Qed.

Lemma performs_trans {R1 : Type} (π1 : R1 → State * nat) a r1 o :
  performs w π1 P a (Done r1) → performs w π P (π1 r1) o → performs w π P a o.
Proof.
  intros (e1 & S1 & N1 & P1 & T1) (e2 & S2 & N2 & P2 & T2). exists (e1 ++ e2).
  simpl in S1. rewrite S1 in S2, T2. rewrite replay_trace, length_app in T2.
  split; [by rewrite replay_app|]. split; [|split].
  - intros r Hr. rewrite (N2 r Hr), (N1 r1 eq_refl), successes_app. lia.
  - by apply HP.
  - by apply stamped_app.
Qed.

(** What follows a call runs from the result of the call. *)
Lemma performs_bind {R1 : Type} (π1 : R1 → State * nat) a (o : Outcome R1)
      (k : R1 → Outcome R) :
  performs w π1 P a o → (∀ r1, o = Done r1 → performs w π P (π1 r1) (k r1)) →
  performs w π P a (and_then o k).
Proof.
  intros Ho Hk. destruct o as [r1|st]; simpl.
  - eapply performs_trans; [exact Ho | by apply Hk].
  - destruct Ho as (evs & S & _ & H & T). exists evs.
    split; [exact S|]. split; [intros r [=] | by split].
Qed.

Lemma fold_performs {X : Type} (body : R → X → Outcome R) :
  (∀ r x, performs w π P (π r) (body r x)) →
  ∀ l r, performs w π P (π r) (fold_outcome body l r).
Proof.
  intros Hstep l. induction l as [|x l IH]; intros r; simpl; [apply performs_done|].
  pose proof (Hstep r x) as Hx. destruct (body r x) as [r'|st'] eqn:E.
  - eapply performs_trans; [exact Hx | apply IH].
  - exact Hx.
Qed.

End Performs.

(** Reading the result through [f] first. *)
Lemma performs_map {R R' : Type} w (π : R' → State * nat) (f : R → R') P a
      (o : Outcome R) :
  performs w (fun r => π (f r)) P a o → performs w π P a (outcome_map f o).
Proof.
  intros (evs & S & N & H). exists evs. destruct o as [r|st]; simpl in *.
  - split; [exact S|]. split; [|exact H]. intros r' [= <-]. by apply N.
  - split; [exact S|]. split; [|exact H]. intros r' [=].
Qed.

Lemma performs_weaken {R : Type} w (π : R → State * nat) (P P' : list Event → Prop) a o :
  (∀ evs, P evs → P' evs) → performs w π P a o → performs w π P' a o.
Proof. intros HP (e & S & N & H & T). exists e. auto. Qed.

(** The state and the effects of a call that [performs]. *)
Lemma performs_events {R : Type} w (π : R → State * nat) P a (o : Outcome R) :
  performs w π P a o →
  let st' := left_by (fun r => (π r).1) o in
  st' = replay (events_since a.1 st') a.1
  ∧ (∀ r, o = Done r → (π r).2 = (a.2 + successes (events_since a.1 st'))%nat)
  ∧ P (events_since a.1 st')
  ∧ stamped w (length (trace a.1)) (events_since a.1 st').
Proof.
  intros (evs & S & N & H & T) st'. subst st'. rewrite S, replay_events. auto.
Qed.

(** The effects of one loop iteration: a store, possibly followed by the
    send of the alert built from the stored value; for the spike detector
    the snapshot comes first. *)
Inductive block : list Event → Prop :=
  | block_clan key v :
      block [ClanCacheSet key v]
  | block_clan_send grp lc stat_key msg ok :
      kind msg = WATCH → what msg = stat_key → in_group msg = Some grp →
      block [ClanCacheSet (grp, lc, stat_key) (Finite (now_val msg)); SendAttempt msg ok]
  | block_player key v :
      block [PlayerCacheSet key v]
  | block_player_send grp steam_id stat_key msg ok :
      kind msg = PLAYER_WATCH → what msg = stat_key → in_group msg = Some grp →
      block [PlayerCacheSet (grp, steam_id, stat_key) (Finite (now_val msg));
             SendAttempt msg ok]
  | block_snapshot s :
      block [SnapshotAdded s]
  | block_metric s key v :
      block [SnapshotAdded s; MetricCacheSet key v]
  | block_metric_send metric clan t rk msg ok :
      kind msg = SPIKE → what msg = metric → who msg = clan → at_rank msg = rk →
      block [SnapshotAdded (Storage.mkSnapshot metric clan t rk (Some (now_val msg)));
             MetricCacheSet (metric, clan) (Finite (now_val msg)); SendAttempt msg ok].

Inductive blocks : list Event → Prop :=
  | blocks_nil : blocks []
  | blocks_cons b rest : block b → blocks rest → blocks (b ++ rest).

Lemma blocks_one b : block b → blocks b.
Proof. intros H. rewrite <- (app_nil_r b). constructor; [exact H | constructor]. Qed.

Lemma closed_blocks : closed blocks.
Proof.
  split; [constructor|]. intros l1 l2 H1 H2. induction H1 as [|b rest Hb _ IH]; simpl.
  - exact H2.
  - rewrite <- app_assoc. by constructor.
Qed.

(** Alerts of a player row name its user and carry its label. *)
Definition labelled (user lbl : string) (e : Event) : Prop :=
    ∀ msg ok, e = SendAttempt msg ok → who msg = user ∧ clan_label msg = Some lbl.

(** Effects of the clan watch on group [grp]. *)
Definition clan_watch_event (grp : string) (e : Event) : Prop :=
    match e with
    | ClanCacheSet key _ => key.1.1 = grp
    | SendAttempt msg _ =>
        kind msg = WATCH ∧ in_group msg = Some grp ∧ (0 < delta msg)%Q
    | _ => False
    end.

(** Effects of the player watch on group [grp]. *)
Definition player_watch_event (grp : string) (e : Event) : Prop :=
    match e with
    | PlayerCacheSet key _ => key.1.1 = grp
    | SendAttempt msg _ =>
        kind msg = PLAYER_WATCH ∧ in_group msg = Some grp ∧ (0 < delta msg)%Q
    | _ => False
    end.

(** Effects of the spike detector on [metric]: an alert is about another
    clan than the configured one and reports a gain of at least the
    threshold. *)
Definition spike_event (cfg : Config.Settings) (metric : string) (threshold : option Q)
      (e : Event) : Prop :=
    match e with
    | SnapshotAdded s => Storage.metric_key s = metric
    | MetricCacheSet key _ => key.1 = metric ∧ is_Some threshold
    | SendAttempt msg _ =>
        kind msg = SPIKE ∧ what msg = metric
        ∧ (∃ limit, threshold = Some limit ∧ (limit <= delta msg)%Q)
        ∧ PyStr.lower (who msg) ≠ PyStr.lower (Config.clan_name cfg)
    | _ => False
    end.

(** What the traces of the three consumers look like. *)
Definition clan_trace (grp : string) (evs : list Event) : Prop :=
    blocks evs ∧ List.Forall (clan_watch_event grp) evs.

Definition player_trace (grp : string) (evs : list Event) : Prop :=
    blocks evs ∧ List.Forall (player_watch_event grp) evs.

Definition spike_trace (cfg : Config.Settings) (metric : string) (threshold : option Q)
      (evs : list Event) : Prop :=
    blocks evs ∧ List.Forall (spike_event cfg metric threshold) evs.

Lemma closed_clan_trace grp : closed (clan_trace grp).
Proof. apply closed_and; [apply closed_blocks | apply closed_Forall]. Qed.

Lemma closed_player_trace grp : closed (player_trace grp).
Proof. apply closed_and; [apply closed_blocks | apply closed_Forall]. Qed.

Lemma closed_player_row_trace grp user lbl :
  closed (fun evs => player_trace grp evs ∧ List.Forall (labelled user lbl) evs).
Proof. apply closed_and; [apply closed_player_trace | apply closed_Forall]. Qed.

Lemma closed_spike_trace cfg metric threshold : closed (spike_trace cfg metric threshold).
Proof. apply closed_and; [apply closed_blocks | apply closed_Forall]. Qed.

Lemma alert_numbers_Some d cur dq cq :
  alert_numbers d cur = Some (dq, cq) → d = Finite dq ∧ cur = Finite cq.
Proof.
  unfold alert_numbers. destruct d, cur; simpl; try discriminate. by intros [= -> ->].
Qed.

Lemma py_le_false_finite dq : py_le (Finite dq) 0 = false → (0 < dq)%Q.
Proof. simpl. apply Qle_bool_false. Qed.

Lemma py_lt_false_finite dq limit : py_lt (Finite dq) limit = false → (limit <= dq)%Q.
Proof. simpl. intros H. apply negb_false_iff in H. by apply Qle_bool_iff. Qed.

(** The counter after a list of effects with at most one send, the last. *)
Ltac count_sends :=
  let r := fresh in
  intros r [= <-]; unfold successes; simpl;
  try match goal with |- context [send_ok ?w ?i ?m] => destruct (send_ok w i m) end;
  simpl; lia.

Lemma watch_clan_stat_performs w cfg grp clan_raw clan_lc rk acc item :
  performs w id (clan_trace grp) acc
           (watch_clan_stat w cfg grp clan_raw clan_lc rk acc item).
Proof.
  pose proof (closed_clan_trace grp) as HP.
  destruct acc as [st n], item as [stat_key raw].
  destruct (py_float raw) as [cur| |] eqn:Hraw;
    [ | unfold watch_clan_stat; rewrite Hraw; exact (performs_done w id _ HP (st, n))
      | unfold watch_clan_stat; rewrite Hraw; exact (performs_failed w id _ HP (st, n)) ].
  rewrite (watch_clan_stat_float _ _ _ _ _ _ _ _ _ _ _ Hraw). cbv zeta.
  destruct (py_le _ 0) eqn:Hle.
  - exists [ClanCacheSet (grp, clan_lc, stat_key) cur].
    split; [reflexivity|]. split; [count_sends|]. split; [|by apply stamped_none].
    split; [apply blocks_one; constructor|].
    apply List.Forall_cons; [reflexivity | apply List.Forall_nil].
  - destruct (alert_numbers _ cur) as [[dq cq]|] eqn:Hnum.
    + apply alert_numbers_Some in Hnum as [Hd ->]. rewrite Hd in Hle.
      apply py_le_false_finite in Hle.
      eexists [ClanCacheSet (grp, clan_lc, stat_key) (Finite cq); SendAttempt _ _].
      split; [reflexivity|]. split; [count_sends|]. split; [|by apply stamped_none].
      split; [apply blocks_one;
              by apply (block_clan_send _ _ _ (mkMessage _ _ _ _ _ _ _ _ _))|].
      apply List.Forall_cons; [reflexivity|].
      apply List.Forall_cons; [|apply List.Forall_nil]. simpl. auto.
    + exists [ClanCacheSet (grp, clan_lc, stat_key) cur].
      split; [reflexivity|]. split; [intros r [=]|]. split; [|by apply stamped_none].
      split; [apply blocks_one; constructor|].
      apply List.Forall_cons; [reflexivity | apply List.Forall_nil].
Qed.

Lemma watch_player_stat_performs w cfg grp steam_id user lbl rk acc item :
  performs w id (fun evs => player_trace grp evs ∧ List.Forall (labelled user lbl) evs)
           acc (watch_player_stat w cfg grp steam_id user lbl rk acc item).
Proof.
  pose proof (closed_player_row_trace grp user lbl) as HP.
  destruct acc as [st n], item as [stat_key raw].
  destruct (py_float raw) as [cur| |] eqn:Hraw;
    [ | unfold watch_player_stat; rewrite Hraw; exact (performs_done w id _ HP (st, n))
      | unfold watch_player_stat; rewrite Hraw; exact (performs_failed w id _ HP (st, n)) ].
  rewrite (watch_player_stat_float _ _ _ _ _ _ _ _ _ _ _ _ Hraw). cbv zeta.
  assert (Hquiet : (fun evs => player_trace grp evs ∧ List.Forall (labelled user lbl) evs)
                     [PlayerCacheSet (grp, steam_id, stat_key) cur]).
  { split; [split|].
    - apply blocks_one. constructor.
    - apply List.Forall_cons; [reflexivity | apply List.Forall_nil].
    - apply List.Forall_cons; [intros msg ok [=] | apply List.Forall_nil]. }
  destruct (py_le _ 0) eqn:Hle.
  - exists [PlayerCacheSet (grp, steam_id, stat_key) cur].
    split; [reflexivity|]. split; [count_sends|]. split; [exact Hquiet|].
    by apply stamped_none.
  - destruct (alert_numbers _ cur) as [[dq cq]|] eqn:Hnum.
    + apply alert_numbers_Some in Hnum as [Hd ->]. rewrite Hd in Hle.
      apply py_le_false_finite in Hle.
      eexists [PlayerCacheSet (grp, steam_id, stat_key) (Finite cq); SendAttempt _ _].
      split; [reflexivity|]. split; [count_sends|]. split; [|by apply stamped_none].
      split; [split|].
      * apply blocks_one.
        by apply (block_player_send _ _ _ (mkMessage _ _ _ _ _ _ _ _ _)).
      * apply List.Forall_cons; [reflexivity|].
        apply List.Forall_cons; [|apply List.Forall_nil]. simpl. auto.
      * apply List.Forall_cons; [intros msg ok [=]|].
        apply List.Forall_cons; [|apply List.Forall_nil].
        intros msg ok [= <- _]. by split.
    + exists [PlayerCacheSet (grp, steam_id, stat_key) cur].
      split; [reflexivity|]. split; [intros r [=]|]. split; [exact Hquiet|].
      by apply stamped_none.
Qed.

Lemma spike_row_performs w cfg metric_key sort_by threshold acc row :
  performs w id (spike_trace cfg metric_key threshold) acc
           (spike_row w cfg metric_key sort_by threshold acc row).
Proof.
  pose proof (closed_spike_trace cfg metric_key threshold) as HP.
  destruct acc as [st n].
  destruct (PyStr.truthy (clan_name_raw row)) eqn:Hname;
    [|unfold spike_row; rewrite Hname; exact (performs_done w id _ HP (st, n))].
  destruct (py_float_of (dict_get sort_by (stats row))) as [cur| |] eqn:Hval;
    [ | unfold spike_row; rewrite Hname, Hval; exact (performs_done w id _ HP (st, n))
      | unfold spike_row; rewrite Hname, Hval; exact (performs_failed w id _ HP (st, n)) ].
  rewrite (spike_row_float _ _ _ _ _ _ _ _ _ Hname Hval). cbv zeta.
  assert (Hstamp : ∀ rest, snapshots rest = [] →
            stamped w (length (trace st))
              (SnapshotAdded (Storage.mkSnapshot metric_key (clan_name_raw row)
                                (clock w (length (trace st))) (rank row) (stored_real cur))
               :: rest)).
  { intros rest Hrest. unfold stamped. cbn [snapshots omap list_omap].
    fold (snapshots rest). rewrite Hrest.
    apply List.Forall_cons; [|apply List.Forall_nil].
    exists (length (trace st)). split; [lia | reflexivity]. }
  destruct threshold as [limit|].
  - assert (Hquiet : spike_trace cfg metric_key (Some limit)
              [SnapshotAdded (Storage.mkSnapshot metric_key (clan_name_raw row)
                                (clock w (length (trace st))) (rank row) (stored_real cur));
               MetricCacheSet (metric_key, clan_name_raw row) cur]).
    { split; [apply blocks_one; constructor|].
      apply List.Forall_cons; [reflexivity|].
      apply List.Forall_cons; [|apply List.Forall_nil]. simpl. eauto. }
    destruct (py_lt _ limit) eqn:Hlt.
    { eexists [SnapshotAdded _; MetricCacheSet _ _].
      split; [reflexivity|]. split; [count_sends|]. split; [exact Hquiet|].
      by apply Hstamp. }
    destruct (String.eqb _ _) eqn:Hown.
    { eexists [SnapshotAdded _; MetricCacheSet _ _].
      split; [reflexivity|]. split; [count_sends|]. split; [exact Hquiet|].
      by apply Hstamp. }
    destruct (alert_numbers _ cur) as [[dq cq]|] eqn:Hnum.
    + apply alert_numbers_Some in Hnum as [Hd ->]. rewrite Hd in Hlt.
      apply py_lt_false_finite in Hlt.
      eexists [SnapshotAdded _; MetricCacheSet _ _; SendAttempt _ _].
      split; [reflexivity|]. split; [count_sends|]. split; [|by apply Hstamp].
      split; [apply blocks_one;
              by apply (block_metric_send _ _ _ _ (mkMessage _ _ _ _ _ _ _ _ _))|].
      apply List.Forall_cons; [reflexivity|].
      apply List.Forall_cons; [simpl; eauto|].
      apply List.Forall_cons; [|apply List.Forall_nil]. simpl.
      split; [reflexivity|]. split; [reflexivity|]. split.
      * by exists limit.
      * by apply lower_eqb_false.
    + eexists [SnapshotAdded _; MetricCacheSet _ _].
      split; [reflexivity|]. split; [intros r [=]|]. split; [exact Hquiet|].
      by apply Hstamp.
  - eexists [SnapshotAdded _]. split; [reflexivity|]. split; [count_sends|].
    split; [|by apply Hstamp].
    split; [apply blocks_one; constructor|].
    apply List.Forall_cons; [reflexivity | apply List.Forall_nil].
Qed.

Lemma watch_clan_row_performs w cfg grp watched acc row :
  performs w fst (clan_trace grp) acc.1 (watch_clan_row w cfg grp watched acc row).
Proof.
  pose proof (closed_clan_trace grp) as HP. unfold watch_clan_row.
  destruct (negb (PyStr.truthy _)); [exact (performs_done w fst _ HP acc)|].
  destruct (negb (bool_decide _)); [exact (performs_done w fst _ HP acc)|].
  apply (performs_map w fst (fun a : State * nat => (a, true))).
  exact (fold_performs w id _ HP _
           (fun a x => watch_clan_stat_performs w cfg grp _ _ _ a x) (stats row) acc.1).
Qed.

Lemma watch_clan_entry_performs w cfg grp watched acc entry :
  performs w fst (clan_trace grp) acc.1 (watch_clan_entry w cfg grp watched acc entry).
Proof.
  destruct entry as [row|]; [apply watch_clan_row_performs|].
  exact (performs_failed w fst _ (closed_clan_trace grp) acc.1).
Qed.

Lemma watch_player_row_performs w cfg grp watched extra acc row :
  performs w fst
    (fun evs => player_trace grp evs
                ∧ List.Forall (labelled (default "Unknown" (username row))
                                 (player_clan_label extra (steam_id_of row) row)) evs)
    acc.1 (watch_player_row w cfg grp watched extra acc row).
Proof.
  pose proof (closed_player_row_trace grp (default "Unknown" (username row))
                (player_clan_label extra (steam_id_of row) row)) as HP.
  unfold watch_player_row.
  destruct (negb (PyStr.truthy _)); [exact (performs_done w fst _ HP acc)|].
  destruct (_ && _); [exact (performs_done w fst _ HP acc)|].
  apply (performs_map w fst (fun a : State * nat => (a, true))).
  exact (fold_performs w id _ HP _
           (fun a x => watch_player_stat_performs w cfg grp _ _ _ _ a x)
           (stats row) acc.1).
Qed.

Lemma watch_player_entry_performs w cfg grp watched extra acc entry :
  performs w fst (player_trace grp) acc.1
           (watch_player_entry w cfg grp watched extra acc entry).
Proof.
  destruct entry as [row|].
  - eapply performs_weaken; [|apply watch_player_row_performs]. by intros evs [H _].
  - exact (performs_failed w fst _ (closed_player_trace grp) acc.1).
Qed.

Lemma spike_entry_performs w cfg metric_key sort_by threshold acc entry :
  performs w id (spike_trace cfg metric_key threshold) acc
           (spike_entry w cfg metric_key sort_by threshold acc entry).
Proof.
  destruct entry as [row|]; [apply spike_row_performs|].
  exact (performs_failed w id _ (closed_spike_trace cfg metric_key threshold) acc).
Qed.

(** The result of a consumer, as a state and a counter. *)
Definition returned (r : nat * State) : State * nat := (r.2, r.1).

Lemma track_watch_clan_all_stats_performs w cfg grp rows st :
  performs w returned (clan_trace grp) (st, 0%nat)
           (track_watch_clan_all_stats w cfg grp rows st).
Proof.
  pose proof (closed_clan_trace grp) as HP. unfold track_watch_clan_all_stats.
  destruct (bool_decide _); [exact (performs_done w returned _ HP (0%nat, st))|].
  destruct rows as [|row rows]; [exact (performs_done w returned _ HP (0%nat, st))|].
  apply (performs_map w returned (fun a : State * nat * bool => (a.1.2, a.1.1))).
  exact (fold_performs w fst _ HP _
           (fun a x => watch_clan_entry_performs w cfg grp _ a x)
           (row :: rows) (st, 0%nat, false)).
Qed.

Lemma track_watch_players_all_stats_performs w cfg grp rows st :
  performs w returned (player_trace grp) (st, 0%nat)
           (track_watch_players_all_stats w cfg grp rows st).
Proof.
  pose proof (closed_player_trace grp) as HP. unfold track_watch_players_all_stats.
  destruct (_ && _); [exact (performs_done w returned _ HP (0%nat, st))|].
  destruct rows as [|row rows]; [exact (performs_done w returned _ HP (0%nat, st))|].
  apply (performs_map w returned (fun a : State * nat * bool => (a.1.2, a.1.1))).
  exact (fold_performs w fst _ HP _
           (fun a x => watch_player_entry_performs w cfg grp _ _ a x)
           (row :: rows) (st, 0%nat, false)).
Qed.

Lemma log_top_and_detect_spikes_performs w cfg metric_key rows sort_by st :
  performs w returned (spike_trace cfg metric_key (ALERT_THRESHOLDS !! metric_key))
           (st, 0%nat) (log_top_and_detect_spikes w cfg metric_key rows sort_by st).
Proof.
  pose proof (closed_spike_trace cfg metric_key (ALERT_THRESHOLDS !! metric_key)) as HP.
  unfold log_top_and_detect_spikes.
  destruct rows as [|row rows]; [exact (performs_done w returned _ HP (0%nat, st))|].
  apply (performs_map w returned (fun a : State * nat => (a.2, a.1))).
  exact (fold_performs w id _ HP _
           (fun a x => spike_entry_performs w cfg metric_key sort_by _ a x)
           (take TREND_TOP_N (row :: rows)) (st, 0%nat)).
Qed.

(** ** Player watch: which rows are tracked, and under which label *)


End TraceFacts.

(** ** Spike detector: which rows are logged *)

Module SpikeFacts.

Import Leaderboard RustinityClient Watchers DeltaFacts TraceFacts.









End SpikeFacts.

(** ** Sends: ordering, and what a failed send changes *)

Module SendFacts.

Import Leaderboard RustinityClient Watchers DeltaFacts TraceFacts.

(** The store, and for a spike the snapshot and the store, that [msg] was
    built from are the last effects of [before]. *)
Definition stored_for (msg : Message) (before : list Event) : Prop :=
    match kind msg with
    | WATCH =>
        ∃ pre grp lc, in_group msg = Some grp
          ∧ before = pre ++ [ClanCacheSet (grp, lc, what msg) (Finite (now_val msg))]
    | PLAYER_WATCH =>
        ∃ pre grp steam_id, in_group msg = Some grp
          ∧ before = pre ++ [PlayerCacheSet (grp, steam_id, what msg)
                                            (Finite (now_val msg))]
    | SPIKE =>
        ∃ pre t,
          before = pre ++ [SnapshotAdded (Storage.mkSnapshot (what msg) (who msg) t
                                            (at_rank msg) (Some (now_val msg)));
                           MetricCacheSet (what msg, who msg) (Finite (now_val msg))]
    end.

(** Whenever a send is attempted, the value it reports has just been
    stored. *)
Definition stores_precede_sends (evs : list Event) : Prop :=
    ∀ pre msg ok post, evs = pre ++ SendAttempt msg ok :: post → stored_for msg pre.

Lemma stored_for_prefix msg l0 l : stored_for msg l → stored_for msg (l0 ++ l).
Proof.
  unfold stored_for. destruct (kind msg).
  - intros (pre & grp & lc & Hg & ->). exists (l0 ++ pre), grp, lc.
    by rewrite app_assoc.
  - intros (pre & grp & id & Hg & ->). exists (l0 ++ pre), grp, id.
    by rewrite app_assoc.
  - intros (pre & t & ->). exists (l0 ++ pre), t. by rewrite app_assoc.
Qed.

Lemma stores_precede_sends_app l1 l2 :
  stores_precede_sends l1 → stores_precede_sends l2 → stores_precede_sends (l1 ++ l2).
Proof.
  intros H1 H2 pre msg ok post Heq.
  apply app_eq_app in Heq as (l & [[-> Hl] | [-> Hl]]).
  - destruct l as [|e l'].
    + simpl in Hl. rewrite <- (app_nil_r pre).
      apply stored_for_prefix. by apply (H2 [] msg ok post).
    + injection Hl as <- ->. by apply (H1 pre msg ok l').
  - apply stored_for_prefix. by apply (H2 l msg ok post).
Qed.

Lemma block_stores_precede_sends b : block b → stores_precede_sends b.
Proof.
  intros Hb pre msg ok post Heq. unfold stored_for.
  destruct Hb as [key v | grp lc k m o Hk Hw Hg | key v
                  | grp id k m o Hk Hw Hg | s | s key v
                  | metric clan t rk m o Hk Hw Hc Hr];
    repeat (destruct pre as [|? pre]; simpl in Heq; try discriminate);
    injection Heq as ?; subst; try discriminate.
  - rewrite Hk. by exists [], grp, lc.
  - rewrite Hk. by exists [], grp, id.
  - rewrite Hk. by exists [], t.
Qed.

Lemma blocks_stores_precede_sends evs : blocks evs → stores_precede_sends evs.
Proof.
  induction 1 as [|b rest Hb _ IH].
  - intros [|? pre] msg ok post Heq; discriminate.
  - apply stores_precede_sends_app; [by apply block_stores_precede_sends | exact IH].
Qed.

(** Forget whether a send went through. *)
Definition forget_outcome (e : Event) : Event :=
    match e with
    | SendAttempt msg _ => SendAttempt msg true
    | _ => e
    end.

(** Two states that differ at most in the outcomes of the sends so far. *)
Definition agree (s1 s2 : State) : Prop :=
    WATCH_CLAN_LAST_VALUES s1 = WATCH_CLAN_LAST_VALUES s2
    ∧ WATCH_PLAYER_LAST_VALUES s1 = WATCH_PLAYER_LAST_VALUES s2
    ∧ LAST_CLAN_METRIC_VALUES s1 = LAST_CLAN_METRIC_VALUES s2
    ∧ tracking_enabled s1 = tracking_enabled s2
    ∧ db s1 = db s2
    ∧ map forget_outcome (trace s1) = map forget_outcome (trace s2).

(** Two calls that end in the same way, both returning or both left by an
    exception, in states that [agree]. *)
Definition agree_out {R : Type} (π : R → State) (o1 o2 : Outcome R) : Prop :=
    match o1, o2 with
    | Done r1, Done r2 => agree (π r1) (π r2)
    | Failed s1, Failed s2 => agree s1 s2
    | _, _ => False
    end.

(** Two worlds whose clocks (and HTTP endpoints) answer alike; their
    channels may differ. *)
Definition same_but_channel (w1 w2 : World) : Prop :=
    (∀ i, clock w1 i = clock w2 i) ∧ (∀ i r, http_get w1 i r = http_get w2 i r).

Lemma agree_refl st : agree st st.
Proof. by repeat split. Qed.

Lemma agree_length s1 s2 : agree s1 s2 → length (trace s1) = length (trace s2).
Proof.
  intros (_ & _ & _ & _ & _ & H). apply (f_equal (@length Event)) in H.
  by rewrite !length_map in H.
Qed.

(** Strips [agree] down to one equation on the traces. *)
Ltac align s1 s2 H :=
  destruct s1 as [c1 p1 m1 t1 d1 tr1], s2 as [c2 p2 m2 t2 d2 tr2];
  destruct H as (Hc & Hp & Hm & Ht & Hd & Htr); simpl in Hc, Hp, Hm, Ht, Hd, Htr;
  subst c2 p2 m2 t2 d2.

Ltac agree_done Htr :=
  simpl; unfold agree; simpl; rewrite ?map_app, ?Htr; simpl; repeat split; reflexivity.

Lemma fold_outcome_agree {R X : Type} (π : R → State) (f g : R → X → Outcome R) :
  (∀ a b x, agree (π a) (π b) → agree_out π (f a x) (g b x)) →
  ∀ l a b, agree (π a) (π b) → agree_out π (fold_outcome f l a) (fold_outcome g l b).
Proof.
  intros Hstep l. induction l as [|x l IH]; intros a b Hab; simpl; [exact Hab|].
  pose proof (Hstep a b x Hab) as Hx.
  destruct (f a x) as [a'|s1], (g b x) as [b'|s2]; simpl in Hx; try contradiction.
  - by apply IH.
  - exact Hx.
Qed.

Lemma agree_out_map {R R' : Type} (π : R' → State) (f : R → R') (o1 o2 : Outcome R) :
  agree_out (fun r => π (f r)) o1 o2 → agree_out π (outcome_map f o1) (outcome_map f o2).
Proof. by destruct o1, o2. Qed.

Lemma watch_clan_stat_agree w1 w2 cfg grp clan_raw clan_lc rk a b item :
  agree a.1 b.1 →
  agree_out fst (watch_clan_stat w1 cfg grp clan_raw clan_lc rk a item)
                (watch_clan_stat w2 cfg grp clan_raw clan_lc rk b item).
Proof.
  destruct a as [s1 n1], b as [s2 n2], item as [stat_key raw]. intros H. simpl in H.
  destruct (py_float raw) as [cur| |] eqn:Hraw;
    [ | unfold watch_clan_stat; by rewrite Hraw
      | unfold watch_clan_stat; by rewrite Hraw ].
  rewrite !(watch_clan_stat_float _ _ _ _ _ _ _ _ _ _ _ Hraw).
  align s1 s2 H. simpl.
  destruct (py_le _ 0); [agree_done Htr|].
  destruct (alert_numbers _ cur) as [[dq cq]|]; agree_done Htr.
Qed.

Lemma watch_player_stat_agree w1 w2 cfg grp steam_id user lbl rk a b item :
  agree a.1 b.1 →
  agree_out fst (watch_player_stat w1 cfg grp steam_id user lbl rk a item)
                (watch_player_stat w2 cfg grp steam_id user lbl rk b item).
Proof.
  destruct a as [s1 n1], b as [s2 n2], item as [stat_key raw]. intros H. simpl in H.
  destruct (py_float raw) as [cur| |] eqn:Hraw;
    [ | unfold watch_player_stat; by rewrite Hraw
      | unfold watch_player_stat; by rewrite Hraw ].
  rewrite !(watch_player_stat_float _ _ _ _ _ _ _ _ _ _ _ _ Hraw).
  align s1 s2 H. simpl.
  destruct (py_le _ 0); [agree_done Htr|].
  destruct (alert_numbers _ cur) as [[dq cq]|]; agree_done Htr.
Qed.

Lemma spike_row_agree w1 w2 cfg metric_key sort_by threshold a b row :
  same_but_channel w1 w2 → agree a.1 b.1 →
  agree_out fst (spike_row w1 cfg metric_key sort_by threshold a row)
                (spike_row w2 cfg metric_key sort_by threshold b row).
Proof.
  intros [Hclock _]. destruct a as [s1 n1], b as [s2 n2]. cbn [fst]. intros H.
  pose proof (agree_length _ _ H) as Hlen.
  destruct (PyStr.truthy (clan_name_raw row)) eqn:Hname;
    [|unfold spike_row; by rewrite Hname].
  destruct (py_float_of (dict_get sort_by (stats row))) as [cur| |] eqn:Hval;
    [ | unfold spike_row; by rewrite Hname, Hval
      | unfold spike_row; by rewrite Hname, Hval ].
  rewrite !(spike_row_float _ _ _ _ _ _ _ _ _ Hname Hval).
  align s1 s2 H. simpl in Hlen. unfold log_snapshot. simpl.
  rewrite Hlen, Hclock.
  destruct threshold as [limit|]; simpl; [|agree_done Htr].
  destruct (py_lt _ limit); simpl; [agree_done Htr|].
  destruct (String.eqb _ _); simpl; [agree_done Htr|].
  destruct (alert_numbers _ cur) as [[dq cq]|]; agree_done Htr.
Qed.

Lemma watch_clan_entry_agree w1 w2 cfg grp watched (a b : State * nat * bool) entry :
  agree a.1.1 b.1.1 →
  agree_out (fun r : State * nat * bool => r.1.1)
            (watch_clan_entry w1 cfg grp watched a entry)
            (watch_clan_entry w2 cfg grp watched b entry).
Proof.
  intros H. destruct entry as [row|]; [|exact H]. cbn [watch_clan_entry].
  unfold watch_clan_row.
  destruct (negb (PyStr.truthy _)); [exact H|].
  destruct (negb (bool_decide _)); [exact H|].
  apply (agree_out_map (fun r : State * nat * bool => r.1.1)
           (fun a : State * nat => (a, true))).
  exact (fold_outcome_agree fst _ _
           (fun x y i => watch_clan_stat_agree w1 w2 cfg grp (clan_name_raw row)
                           (PyStr.lower (clan_name_raw row)) (rank row) x y i)
           (stats row) a.1 b.1 H).
Qed.

Lemma watch_player_entry_agree w1 w2 cfg grp watched extra (a b : State * nat * bool)
      entry :
  agree a.1.1 b.1.1 →
  agree_out (fun r : State * nat * bool => r.1.1)
            (watch_player_entry w1 cfg grp watched extra a entry)
            (watch_player_entry w2 cfg grp watched extra b entry).
Proof.
  intros H. destruct entry as [row|]; [|exact H]. cbn [watch_player_entry].
  unfold watch_player_row.
  destruct (negb (PyStr.truthy _)); [exact H|].
  destruct (_ && _); [exact H|].
  apply (agree_out_map (fun r : State * nat * bool => r.1.1)
           (fun a : State * nat => (a, true))).
  exact (fold_outcome_agree fst _ _
           (fun x y i => watch_player_stat_agree w1 w2 cfg grp (steam_id_of row)
                           (default "Unknown" (username row))
                           (player_clan_label extra (steam_id_of row) row)
                           (rank row) x y i)
           (stats row) a.1 b.1 H).
Qed.

Lemma spike_entry_agree w1 w2 cfg metric_key sort_by threshold a b entry :
  same_but_channel w1 w2 → agree a.1 b.1 →
  agree_out fst (spike_entry w1 cfg metric_key sort_by threshold a entry)
                (spike_entry w2 cfg metric_key sort_by threshold b entry).
Proof.
  intros Hw H. destruct entry as [row|]; [|exact H]. by apply spike_row_agree.
Qed.

Lemma track_watch_clan_all_stats_agree w1 w2 cfg grp rows s1 s2 :
  agree s1 s2 →
  agree_out snd (track_watch_clan_all_stats w1 cfg grp rows s1)
                (track_watch_clan_all_stats w2 cfg grp rows s2).
Proof.
  intros H. unfold track_watch_clan_all_stats.
  assert (Hdb : db s1 = db s2) by apply H. rewrite <- Hdb.
  destruct (bool_decide _); [exact H|].
  destruct rows as [|row rows]; [exact H|].
  apply (agree_out_map snd (fun a : State * nat * bool => (a.1.2, a.1.1))).
  exact (fold_outcome_agree (fun r : State * nat * bool => r.1.1) _ _
           (fun x y r => watch_clan_entry_agree w1 w2 cfg grp
                           (set_map PyStr.lower (Storage.get_watch_clans (db s1)))
                           x y r)
           (row :: rows) (s1, 0%nat, false) (s2, 0%nat, false) H).
Qed.

Lemma track_watch_players_all_stats_agree w1 w2 cfg grp rows s1 s2 :
  agree s1 s2 →
  agree_out snd (track_watch_players_all_stats w1 cfg grp rows s1)
                (track_watch_players_all_stats w2 cfg grp rows s2).
Proof.
  intros H. unfold track_watch_players_all_stats.
  assert (Hdb : db s1 = db s2) by apply H. rewrite <- Hdb.
  destruct (_ && _); [exact H|].
  destruct rows as [|row rows]; [exact H|].
  apply (agree_out_map snd (fun a : State * nat * bool => (a.1.2, a.1.1))).
  exact (fold_outcome_agree (fun r : State * nat * bool => r.1.1) _ _
           (fun x y r => watch_player_entry_agree w1 w2 cfg grp
                           (Storage.get_watch_players (db s1))
                           (Config.player_clan_overrides cfg) x y r)
           (row :: rows) (s1, 0%nat, false) (s2, 0%nat, false) H).
Qed.

Lemma log_top_and_detect_spikes_agree w1 w2 cfg metric_key rows sort_by s1 s2 :
  same_but_channel w1 w2 → agree s1 s2 →
  agree_out snd (log_top_and_detect_spikes w1 cfg metric_key rows sort_by s1)
                (log_top_and_detect_spikes w2 cfg metric_key rows sort_by s2).
Proof.
  intros Hw H. unfold log_top_and_detect_spikes.
  destruct rows as [|row rows]; [exact H|].
  apply (agree_out_map snd (fun a : State * nat => (a.2, a.1))).
  exact (fold_outcome_agree fst _ _
           (fun x y r Hxy => spike_entry_agree w1 w2 cfg metric_key sort_by
                               (ALERT_THRESHOLDS !! metric_key) x y r Hw Hxy)
           (take TREND_TOP_N (row :: rows)) (s1, 0%nat) (s2, 0%nat) H).
Qed.

(** What [performs], with a trace made of blocks, says of a consumer. *)
Lemma consumer_sends w P st (out : Outcome (nat * State)) :
  (∀ evs, P evs → blocks evs) →
  performs w returned P (st, 0%nat) out →
  stores_precede_sends (events_since st (left_by snd out))
  ∧ ∀ n st', out = Done (n, st') → n = successes (events_since st st').
Proof.
  intros HP H. apply performs_events in H as (_ & Hn & Hb & _). cbn [fst snd] in *.
  assert (Hleft : left_by (fun r : nat * State => (returned r).1) out = left_by snd out)
    by (by destruct out).
  rewrite Hleft in Hn, Hb. split.
  - by apply blocks_stores_precede_sends, HP.
  - intros n st' ->. exact (Hn (n, st') eq_refl).
Qed.

(** C10. In each of the three consumers every send is attempted only after
    the value it reports has been stored in the cache (and, for a spike,
    after its snapshot has been appended); the number returned counts the
    sends that went through; how the call ends, the caches, the tables and
    the sequence of effects do not depend on which sends fail, in this call
    or in earlier ones; and the delta of the next observation of the key is
    taken from the value just stored, so what a failed send reported is not
    part of a later delta. *)
Theorem C10_send_outcome_changes_only_the_count (cfg : Config.Settings) :
  (∀ w grp rows st,
     let out := track_watch_clan_all_stats w cfg grp rows st in
     stores_precede_sends (events_since st (left_by snd out))
     ∧ ∀ n st', out = Done (n, st') → n = successes (events_since st st'))
  ∧ (∀ w grp rows st,
     let out := track_watch_players_all_stats w cfg grp rows st in
     stores_precede_sends (events_since st (left_by snd out))
     ∧ ∀ n st', out = Done (n, st') → n = successes (events_since st st'))
  ∧ (∀ w metric_key rows sort_by st,
     let out := log_top_and_detect_spikes w cfg metric_key rows sort_by st in
     stores_precede_sends (events_since st (left_by snd out))
     ∧ ∀ n st', out = Done (n, st') → n = successes (events_since st st'))
  ∧ (∀ w1 w2 grp rows s1 s2, agree s1 s2 →
     agree_out snd (track_watch_clan_all_stats w1 cfg grp rows s1)
                   (track_watch_clan_all_stats w2 cfg grp rows s2))
  ∧ (∀ w1 w2 grp rows s1 s2, agree s1 s2 →
     agree_out snd (track_watch_players_all_stats w1 cfg grp rows s1)
                   (track_watch_players_all_stats w2 cfg grp rows s2))
  ∧ (∀ w1 w2 metric_key rows sort_by s1 s2, same_but_channel w1 w2 → agree s1 s2 →
     agree_out snd (log_top_and_detect_spikes w1 cfg metric_key rows sort_by s1)
                   (log_top_and_detect_spikes w2 cfg metric_key rows sort_by s2))
  ∧ (∀ w grp clan_raw clan_lc rk st n stat_key raw cur next,
     py_float raw = Float cur →
     let st' := left_by fst (watch_clan_stat w cfg grp clan_raw clan_lc rk (st, n)
                                             (stat_key, raw)) in
     delta_since (WATCH_CLAN_LAST_VALUES st' !! (grp, clan_lc, stat_key)) next
     = py_sub next cur)
  ∧ (∀ w grp steam_id user lbl rk st n stat_key raw cur next,
     py_float raw = Float cur →
     let st' := left_by fst (watch_player_stat w cfg grp steam_id user lbl rk (st, n)
                                               (stat_key, raw)) in
     delta_since (WATCH_PLAYER_LAST_VALUES st' !! (grp, steam_id, stat_key)) next
     = py_sub next cur)
  ∧ (∀ w metric_key sort_by limit st n row cur next,
     PyStr.truthy (clan_name_raw row) = true →
     py_float_of (dict_get sort_by (stats row)) = Float cur →
     let st' := left_by fst (spike_row w cfg metric_key sort_by (Some limit) (st, n)
                                       row) in
     delta_since (LAST_CLAN_METRIC_VALUES st' !! (metric_key, clan_name_raw row)) next
     = py_sub next cur)
  ∧ (∀ cur next : Q, py_sub (Finite next) (Finite cur) = Finite (next - cur)).
Proof.
  repeat apply conj.
  - intros w grp rows st.
    apply (consumer_sends w (clan_trace grp)); [by intros evs [H _]|].
    apply track_watch_clan_all_stats_performs.
  - intros w grp rows st.
    apply (consumer_sends w (player_trace grp)); [by intros evs [H _]|].
    apply track_watch_players_all_stats_performs.
  - intros w metric_key rows sort_by st.
    apply (consumer_sends w (spike_trace cfg metric_key (ALERT_THRESHOLDS !! metric_key)));
      [by intros evs [H _]|].
    apply log_top_and_detect_spikes_performs.
  - intros. by apply track_watch_clan_all_stats_agree.
  - intros. by apply track_watch_players_all_stats_agree.
  - intros. by apply log_top_and_detect_spikes_agree.
  - intros w grp clan_raw clan_lc rk st n stat_key raw cur next Hraw st'.
    destruct (watch_clan_stat_effects w cfg grp clan_raw clan_lc rk st n stat_key raw cur
                Hraw) as (Hcache & _). subst st'. by rewrite Hcache, lookup_insert_eq.
  - intros w grp steam_id user lbl rk st n stat_key raw cur next Hraw st'.
    destruct (watch_player_stat_effects w cfg grp steam_id user lbl rk st n stat_key
                raw cur Hraw) as (Hcache & _). subst st'.
    by rewrite Hcache, lookup_insert_eq.
  - intros w metric_key sort_by limit st n row cur next Hname Hval st'.
    pose proof (spike_row_cache w cfg metric_key sort_by limit st n row cur Hname Hval)
      as Hcache. subst st'. cbv zeta in Hcache. by rewrite Hcache, lookup_insert_eq.
  - reflexivity.
Qed.

End SendFacts.

(** ** The poll cycle as a sequence of effects *)

Module ReplayFacts.

Import Leaderboard RustinityClient Watchers DeltaFacts TraceFacts.

#[local] Opaque METRICS.

(** Effects of the player part of one iteration. *)
Definition player_cycle_event (grp sort_by : string) (e : Event) : Prop :=
    match e with
    | PlayerFetch g s _ => g = grp ∧ s = sort_by
    | _ => player_watch_event grp e
    end.

(** Effects of the iteration for metric [k], defined as [info], in a cycle
    that runs with the tracking flag [tracking]. *)
Definition metric_event (cfg : Config.Settings) (tracking : bool) (k : string)
      (info : MetricConfig) (e : Event) : Prop :=
    match e with
    | ClanFetch k' _ => k' = k
    | _ => (is_Some (ALERT_THRESHOLDS !! k) ∧ spike_event cfg k (ALERT_THRESHOLDS !! k) e)
           ∨ (tracking = true
              ∧ (clan_watch_event (group info) e
                 ∨ player_cycle_event (group info) (sortBy info) e))
    end.

Definition cycle_event (cfg : Config.Settings) (tracking : bool) (order : list string)
      (e : Event) : Prop :=
    ∃ k info, In k order ∧ METRICS !! k = Some info ∧ metric_event cfg tracking k info e.

(** The state and the alert counter of a cycle in progress. *)
Definition progress (a : State * Cycle) : State * nat := (a.1, alert_count a.2).

Lemma performs_consumer w P st cy (o : Outcome (nat * State)) :
  performs w returned P (st, 0%nat) o →
  performs w progress P (progress (st, cy)) (count_alerts cy o).
Proof.
  intros (evs & S & N & H). apply performs_map. exists evs.
  split; [by destruct o|]. split; [|exact H].
  intros r Hr. pose proof (N r Hr) as Hn. simpl in *. lia.
Qed.

Lemma performs_flag {R : Type} w (π : R → State * nat) P a r :
  performs w π P a (Done r) → tracking_enabled (π r).1 = tracking_enabled a.1.
Proof. intros (evs & S & _). simpl in S. rewrite S. apply replay_frame. Qed.

Lemma cycle_spikes_performs w cfg metric_key rows sort_by a :
  performs w progress
           (List.Forall (fun e => is_Some (ALERT_THRESHOLDS !! metric_key)
                                  ∧ spike_event cfg metric_key
                                                (ALERT_THRESHOLDS !! metric_key) e))
           (progress a) (cycle_spikes w cfg metric_key rows sort_by a).
Proof.
  destruct a as [st cy]. unfold cycle_spikes.
  destruct (bool_decide _) eqn:E;
    [|exact (performs_done w progress _ (closed_Forall _) (st, cy))].
  apply bool_decide_eq_true in E. apply performs_consumer.
  eapply performs_weaken; [|apply log_top_and_detect_spikes_performs].
  intros evs [_ H]. eapply List.Forall_impl; [|exact H]. by intros e He.
Qed.

Lemma cycle_clan_watch_performs w cfg grp rows a :
  performs w progress
           (List.Forall (fun e => tracking_enabled a.1 = true ∧ clan_watch_event grp e))
           (progress a) (cycle_clan_watch w cfg grp rows a).
Proof.
  destruct a as [st cy]. unfold cycle_clan_watch, is_tracking_enabled. cbn [fst].
  destruct (tracking_enabled st) eqn:Et;
    [|exact (performs_done w progress _ (closed_Forall _) (st, cy))].
  destruct (negb _); [|exact (performs_done w progress _ (closed_Forall _) (st, cy))].
  cbn [andb]. apply performs_consumer.
  eapply performs_weaken; [|apply track_watch_clan_all_stats_performs].
  intros evs [_ H]. eapply List.Forall_impl; [|exact H]. by intros e He.
Qed.

Lemma cycle_player_watch_performs w cfg grp prows a :
  performs w progress (List.Forall (player_watch_event grp))
           (progress a) (cycle_player_watch w cfg grp prows a).
Proof.
  destruct a as [st cy]. unfold cycle_player_watch. apply performs_consumer.
  eapply performs_weaken; [|apply track_watch_players_all_stats_performs].
  by intros evs [_ H].
Qed.

Lemma player_watch_in_cycle grp sort_by e :
  player_watch_event grp e → player_cycle_event grp sort_by e.
Proof. by destruct e. Qed.

(** One fetch, which leaves the alert counter as it was. *)
Lemma player_fetch_performs w (Q : Event → Prop) st cy cy' grp sort_by res :
  alert_count cy' = alert_count cy → Q (PlayerFetch grp sort_by res) →
  performs w progress (List.Forall Q) (progress (st, cy))
           (Done (emit (PlayerFetch grp sort_by res) st, cy')).
Proof.
  intros Hcount HQ. exists [PlayerFetch grp sort_by res].
  split; [reflexivity|]. split; [|split; [|by apply stamped_none]].
  - intros r [= <-]. unfold successes. simpl. lia.
  - apply List.Forall_cons; [exact HQ | apply List.Forall_nil].
Qed.

Lemma clan_fetch_performs w (Q : Event → Prop) st cy cy' k res :
  alert_count cy' = alert_count cy → Q (ClanFetch k res) →
  performs w progress (List.Forall Q) (progress (st, cy))
           (Done (emit (ClanFetch k res) st, cy')).
Proof.
  intros Hcount HQ. exists [ClanFetch k res].
  split; [reflexivity|]. split; [|split; [|by apply stamped_none]].
  - intros r [= <-]. unfold successes. simpl. lia.
  - apply List.Forall_cons; [exact HQ | apply List.Forall_nil].
Qed.

Lemma cycle_players_performs w cfg grp sort_by a :
  performs w progress
           (List.Forall (fun e => tracking_enabled a.1 = true
                                  ∧ player_cycle_event grp sort_by e))
           (progress a) (cycle_players w cfg grp sort_by a).
Proof.
  destruct a as [st cy]. unfold cycle_players, is_tracking_enabled. cbn [fst].
  destruct (tracking_enabled st) eqn:Et;
    [|exact (performs_done w progress _ (closed_Forall _) (st, cy))].
  destruct (_ || _); [|exact (performs_done w progress _ (closed_Forall _) (st, cy))].
  cbn [andb].
  assert (Hwatch : ∀ prows b,
            performs w progress
              (List.Forall (fun e => true = true ∧ player_cycle_event grp sort_by e))
              (progress b) (cycle_player_watch w cfg grp prows b)).
  { intros prows b. eapply performs_weaken; [|apply cycle_player_watch_performs].
    intros evs H. eapply List.Forall_impl; [|exact H].
    intros e He. split; [reflexivity | by apply player_watch_in_cycle]. }
  destruct (player_rows_cache cy !! grp); [by apply Hwatch|].
  destruct (fetch_player_leaderboard _ grp sort_by) as [|pdata].
  - apply player_fetch_performs; [reflexivity | by repeat split].
  - eapply (performs_trans w progress _ (closed_Forall _) progress); [|by apply Hwatch].
    apply player_fetch_performs; [reflexivity | by repeat split].
Qed.

Lemma poll_metric_performs w cfg a k :
  performs w progress (List.Forall (cycle_event cfg (tracking_enabled a.1) [k]))
           (progress a) (poll_metric w cfg a k).
Proof.
  destruct (METRICS !! k) as [info|] eqn:Hinfo.
  2:{ assert (poll_metric w cfg a k = Done a) as ->
        by (unfold poll_metric; by rewrite Hinfo).
      exact (performs_done w progress _ (closed_Forall _) a). }
  apply (performs_weaken w progress
           (List.Forall (metric_event cfg (tracking_enabled a.1) k info))).
  { intros evs H. eapply List.Forall_impl; [|exact H].
    intros e He. exists k, info. split; [by left | by split]. }
  pose proof (closed_Forall (metric_event cfg (tracking_enabled a.1) k info)) as HP.
  destruct a as [st cy]. unfold poll_metric. rewrite Hinfo. cbn [fst] in *.
  destruct (fetch_leaderboard_for_metric _ k) as [|data];
    [by apply clan_fetch_performs|].
  destruct (parse_leaderboard_rows data) as [|row rows];
    [by apply clan_fetch_performs|].
  set (a1 := (emit (ClanFetch k (Returned data)) st, record_top2 k (row :: rows) cy)).
  assert (H1 : performs w progress
                 (List.Forall (metric_event cfg (tracking_enabled st) k info))
                 (progress (st, cy)) (Done a1)) by (by apply clan_fetch_performs).
  eapply (performs_trans w progress _ HP progress); [exact H1|].
  assert (H2 : performs w progress
                 (List.Forall (metric_event cfg (tracking_enabled st) k info))
                 (progress a1) (cycle_spikes w cfg k (row :: rows) (sortBy info) a1)).
  { eapply performs_weaken; [|apply cycle_spikes_performs].
    intros evs H. eapply List.Forall_impl; [|exact H].
    intros e He. destruct e; try (by left). by destruct He as [_ []]. }
  apply (performs_bind w progress _ HP progress _ _ _ H2).
  intros a2 Ha2. rewrite Ha2 in H2.
  assert (F2 : tracking_enabled a2.1 = tracking_enabled st).
  { exact (performs_flag _ _ _ _ _ H2). }
  assert (H3 : performs w progress
                 (List.Forall (metric_event cfg (tracking_enabled st) k info))
                 (progress a2) (cycle_clan_watch w cfg (group info) (row :: rows) a2)).
  { eapply performs_weaken; [|apply cycle_clan_watch_performs].
    rewrite F2. intros evs H. eapply List.Forall_impl; [|exact H].
    intros e [Ht He]. destruct e; try (right; by auto). destruct He. }
  apply (performs_bind w progress _ HP progress _ _ _ H3).
  intros a3 Ha3. rewrite Ha3 in H3.
  assert (F3 : tracking_enabled a3.1 = tracking_enabled st).
  { etrans; [exact (performs_flag _ _ _ _ _ H3) | exact F2]. }
  eapply performs_weaken; [|apply cycle_players_performs].
  rewrite F3. intros evs H. eapply List.Forall_impl; [|exact H].
  intros e [Ht He]. destruct e; try (right; by auto). destruct He.
Qed.

Lemma cycle_event_mono cfg tracking order order' e :
  (∀ k, In k order → In k order') →
  cycle_event cfg tracking order e → cycle_event cfg tracking order' e.
Proof. intros Hsub (k & info & Hk & Hinfo & He). exists k, info. auto. Qed.

Lemma poll_fold_performs w cfg order rest a :
  (∀ k, In k rest → In k order) →
  performs w progress (List.Forall (cycle_event cfg (tracking_enabled a.1) order))
           (progress a) (fold_outcome (poll_metric w cfg) rest a).
Proof.
  revert a. induction rest as [|k rest IH]; intros a Hsub; simpl;
    [exact (performs_done w progress _ (closed_Forall _) a)|].
  assert (Hk : performs w progress
                 (List.Forall (cycle_event cfg (tracking_enabled a.1) order))
                 (progress a) (poll_metric w cfg a k)).
  { eapply performs_weaken; [|apply poll_metric_performs].
    intros evs H. eapply List.Forall_impl; [|exact H].
    intros e. apply cycle_event_mono. intros k' [<- | []]. apply Hsub. by left. }
  destruct (poll_metric w cfg a k) as [a'|st'] eqn:E; [|exact Hk].
  eapply (performs_trans w progress _ (closed_Forall _) progress); [exact Hk|].
  pose proof (performs_flag _ _ _ _ _ Hk) as Hflag. cbn [progress fst] in Hflag.
  rewrite <- Hflag. apply IH. intros k' Hk'. apply Hsub. by right.
Qed.

Lemma post_walobots_update_performs w cfg order st :
  performs w progress (List.Forall (cycle_event cfg (tracking_enabled st) order))
           (st, 0%nat) (post_walobots_update w cfg order st).
Proof. apply (poll_fold_performs w cfg order order (st, mkCycle ∅ 0 ∅)). auto. Qed.

(** The effects of a cycle, read off its trace. *)
Lemma cycle_events w cfg order st :
  let out := post_walobots_update w cfg order st in
  let evs := events_since st (cycle_state out) in
  cycle_state out = replay evs st
  ∧ (∀ st' cy, out = Done (st', cy) → alert_count cy = successes evs)
  ∧ List.Forall (cycle_event cfg (tracking_enabled st) order) evs
  ∧ stamped w (length (trace st)) evs.
Proof.
  intros out evs. subst evs out.
  pose proof (performs_events _ _ _ _ _ (post_walobots_update_performs w cfg order st))
    as (Hst & Hn & Hall & Hstamp).
  cbn [progress fst snd] in Hst, Hn, Hall, Hstamp.
  split; [exact Hst|]. split; [|by split].
  intros st' cy Hout. unfold cycle_state. rewrite Hout in Hn |- *.
  exact (Hn (st', cy) eq_refl).
Qed.

End ReplayFacts.

(** ** The poll cycle: which fetches are issued *)

Module CycleFacts.

Import Leaderboard RustinityClient Watchers DeltaFacts TraceFacts.

#[local] Opaque METRICS.

(** Metric keys of the clan-leaderboard fetches, in order. *)
Definition clan_fetches (evs : list Event) : list string :=
    omap (fun e => match e with ClanFetch k _ => Some k | _ => None end) evs.

(** Group and sort field of the player-leaderboard fetches, in order. *)
Definition player_fetches (evs : list Event) : list (string * string) :=
    omap (fun e => match e with PlayerFetch g s _ => Some (g, s) | _ => None end) evs.

(** The player-leaderboard requests the metrics of [order] stand for. *)
Definition requests_of (order : list string) : list (string * string) :=
    omap (fun k => (fun c => (group c, sortBy c)) <$> METRICS !! k) order.

Definition defined_metrics (order : list string) : list string :=
    List.filter (fun k => bool_decide (is_Some (METRICS !! k))) order.

Definition fetch_free (evs : list Event) : Prop :=
    List.Forall (fun e => match e with
                          | ClanFetch _ _ | PlayerFetch _ _ _ => False
                          | _ => True
                          end) evs.

(** Once a player-leaderboard fetch for a group has returned, the group is
    not fetched again. *)
Definition no_refetch_after_return (evs : list Event) : Prop :=
    ∀ pre g s d post, evs = pre ++ PlayerFetch g s (Returned d) :: post →
      ∀ s' r, ¬ In (PlayerFetch g s' r) post.



(** A player-leaderboard fetch for group [g] among [evs] has returned. *)
Definition returned_for (g : string) (evs : list Event) : Prop :=
    ∃ s d, In (PlayerFetch g s (Returned d)) evs.


(** How the effects [evs] of a stretch of the cycle relate to the locals
    before ([cy]) and, if the stretch returned, after it. *)
Record summary (cy : Cycle) (o : Outcome (State * Cycle)) (evs : list Event) : Prop := {
  sum_fresh : ∀ g s r, In (PlayerFetch g s r) evs → player_rows_cache cy !! g = None;
  sum_once : no_refetch_after_return evs;
  sum_cache : ∀ r, o = Done r → ∀ g,
      is_Some (player_rows_cache r.2 !! g)
      ↔ is_Some (player_rows_cache cy !! g) ∨ returned_for g evs;
  sum_top2 : ∀ r, o = Done r → ∀ key top1 top2,
      stats_for_leaderboard r.2 !! key = Some (top1, top2) →
      stats_for_leaderboard cy !! key = Some (top1, top2)
      ∨ ∃ rest, In (ClanFetch key (Returned (Some (top1 :: rest)))) evs
                ∧ top2 = head rest
}.

Definition cycle_ok (a : State * Cycle) (o : Outcome (State * Cycle))
      (cl : list string) (pl : list (string * string)) : Prop :=
    ∃ evs, trace (cycle_state o) = trace a.1 ++ evs
           ∧ summary a.2 o evs
           ∧ clan_fetches evs `prefix_of` cl
           ∧ ((∃ r, o = Done r) → clan_fetches evs = cl)
           ∧ player_fetches evs `sublist_of` pl.

Lemma fetch_free_no_player evs g s r : fetch_free evs → ¬ In (PlayerFetch g s r) evs.
Proof.
  unfold fetch_free. rewrite List.Forall_forall. intros H Hin. exact (H _ Hin).
Qed.

Lemma fetch_free_no_clan evs k r : fetch_free evs → ¬ In (ClanFetch k r) evs.
Proof.
  unfold fetch_free. rewrite List.Forall_forall. intros H Hin. exact (H _ Hin).
Qed.

Lemma fetch_free_lists evs :
  fetch_free evs → clan_fetches evs = [] ∧ player_fetches evs = [].
Proof.
  unfold fetch_free. induction 1 as [|e evs He _ [IH1 IH2]]; [done|].
  destruct e; try contradiction; split; assumption.
Qed.

Lemma blocks_fetch_free evs : blocks evs → fetch_free evs.
Proof.
  unfold fetch_free. induction 1 as [|b rest Hb _ IH]; [constructor|].
  apply List.Forall_app. split; [|exact IH].
  destruct Hb; repeat constructor.
Qed.

(** A stretch without a fetch that leaves the two dicts of the cycle as
    they were. *)
Lemma summary_local cy o evs :
  fetch_free evs →
  (∀ r, o = Done r → player_rows_cache r.2 = player_rows_cache cy
                     ∧ stats_for_leaderboard r.2 = stats_for_leaderboard cy) →
  summary cy o evs.
Proof.
  intros Hfree Hsame. split.
  - intros g s r Hin. by apply fetch_free_no_player in Hin.
  - intros pre g s d post ->. exfalso.
    apply (fetch_free_no_player _ g s (Returned d) Hfree).
    apply in_or_app. right. by left.
  - intros r Hr g. destruct (Hsame r Hr) as [-> _]. split; [by left|].
    intros [H | (s & d & Hin)]; [exact H|]. by apply fetch_free_no_player in Hin.
  - intros r Hr key top1 top2. destruct (Hsame r Hr) as [_ ->]. by left.
Qed.

Lemma summary_trans cy r o e1 e2 :
  summary cy (Done r) e1 → summary r.2 o e2 → summary cy o (e1 ++ e2).
Proof.
  intros [F1 O1 C1 T1] [F2 O2 C2 T2].
  assert (Hkeep : ∀ g, is_Some (player_rows_cache cy !! g) →
                       is_Some (player_rows_cache r.2 !! g)).
  { intros g Hg. apply (C1 r eq_refl). by left. }
  assert (Hret : ∀ g, returned_for g e1 → is_Some (player_rows_cache r.2 !! g)).
  { intros g Hg. apply (C1 r eq_refl). by right. }
  split.
  - intros g s x [Hin | Hin]%in_app_or; [by eapply F1|].
    destruct (player_rows_cache cy !! g) eqn:E; [|reflexivity].
    assert (is_Some (player_rows_cache r.2 !! g)) as [y Hy]
      by (apply Hkeep; by rewrite E).
    rewrite (F2 g s x Hin) in Hy. discriminate.
  - intros pre g s d post Heq s' x Hin.
    apply app_eq_app in Heq as (l & [[-> Hl] | [-> Hl]]).
    + destruct l as [|e l'].
      * simpl in Hl. by apply (O2 [] g s d post (eq_sym Hl) s' x).
      * injection Hl as <- ->. apply in_app_or in Hin as [Hin | Hin].
        -- by apply (O1 pre g s d l' eq_refl s' x).
        -- assert (is_Some (player_rows_cache r.2 !! g)) as [y Hy].
           { apply Hret. exists s, d. apply in_or_app. right. by left. }
           rewrite (F2 g s' x Hin) in Hy. discriminate.
    + by apply (O2 l g s d post Hl s' x).
  - intros r' Hr' g. rewrite (C2 r' Hr' g), (C1 r eq_refl g). unfold returned_for.
    split.
    + intros [[H | (s & d & Hin)] | (s & d & Hin)]; [by left | right..];
        exists s, d; apply in_or_app; auto.
    + intros [H | (s & d & [Hin | Hin]%in_app_or)]; [by left; left | |].
      * left. right. by exists s, d.
      * right. by exists s, d.
  - intros r' Hr' key top1 top2 Hkey.
    destruct (T2 r' Hr' _ _ _ Hkey) as [Hb | (rest & Hin & Ht)].
    + destruct (T1 r eq_refl _ _ _ Hb) as [Ha | (rest & Hin & Ht)]; [by left | right].
      exists rest. split; [apply in_or_app; by left | exact Ht].
    + right. exists rest. split; [apply in_or_app; by right | exact Ht].
Qed.

Lemma cycle_ok_done a : cycle_ok a (Done a) [] [].
Proof.
  exists []. split; [by rewrite app_nil_r|]. split; [|by repeat split].
  apply summary_local; [constructor|]. by intros r [= <-].
Qed.

(** What follows a stretch runs from its result. *)
Lemma cycle_ok_bind a o k cl1 pl1 cl2 pl2 :
  cycle_ok a o cl1 pl1 → (∀ r, o = Done r → cycle_ok r (k r) cl2 pl2) →
  cycle_ok a (and_then o k) (cl1 ++ cl2) (pl1 ++ pl2).
Proof.
  intros (e1 & T1 & S1 & C1 & D1 & L1) Hk. destruct o as [r|st]; simpl.
  - destruct (Hk r eq_refl) as (e2 & T2 & S2 & C2 & D2 & L2). exists (e1 ++ e2).
    unfold cycle_state in T1. simpl in T1.
    split; [by rewrite T2, T1, app_assoc|].
    split; [by eapply summary_trans|].
    unfold clan_fetches, player_fetches in *. rewrite !omap_app.
    rewrite (D1 (ex_intro _ r eq_refl)).
    split; [by apply prefix_app|]. split; [|by apply sublist_app].
    intros Hr. by rewrite (D2 Hr).
  - exists e1. split; [exact T1|]. split.
    { destruct S1 as [F1 O1 _ _]. split; [exact F1 | exact O1 | |]; intros r [=]. }
    split; [by apply prefix_app_r|]. split; [intros [r [=]]|].
    by apply sublist_inserts_r.
Qed.

Lemma cycle_ok_step a r o cl1 pl1 cl2 pl2 :
  cycle_ok a (Done r) cl1 pl1 → cycle_ok r o cl2 pl2 →
  cycle_ok a o (cl1 ++ cl2) (pl1 ++ pl2).
Proof.
  intros H1 H2.
  apply (cycle_ok_bind a (Done r) (fun _ => o) cl1 pl1 cl2 pl2 H1).
  by intros r' [= <-].
Qed.

(** A consumer call inside the cycle: it fetches nothing and leaves the
    two dicts alone. *)
Lemma cycle_ok_consumer w P st cy (o : Outcome (nat * State)) :
  (∀ evs, P evs → blocks evs) →
  performs w returned P (st, 0%nat) o → cycle_ok (st, cy) (count_alerts cy o) [] [].
Proof.
  intros HP (evs & S & _ & Hb & _). apply HP, blocks_fetch_free in Hb.
  exists evs. destruct (fetch_free_lists _ Hb) as [-> ->].
  split; [|split; [|by repeat split]].
  - cbn [fst] in S.
    assert (cycle_state (count_alerts cy o) = replay evs st) as ->
      by (rewrite <- S; by destruct o).
    apply replay_trace.
  - apply summary_local; [exact Hb|]. intros r Hr. destruct o as [[n st']|s]; [|done].
    by injection Hr as <-.
Qed.

Lemma cycle_spikes_ok w cfg metric_key rows sort_by a :
  cycle_ok a (cycle_spikes w cfg metric_key rows sort_by a) [] [].
Proof.
  destruct a as [st cy]. unfold cycle_spikes.
  destruct (bool_decide _); [|apply cycle_ok_done].
  eapply (cycle_ok_consumer w); [|apply log_top_and_detect_spikes_performs].
  by intros evs [H _].
Qed.

Lemma cycle_clan_watch_ok w cfg grp rows a :
  cycle_ok a (cycle_clan_watch w cfg grp rows a) [] [].
Proof.
  destruct a as [st cy]. unfold cycle_clan_watch.
  destruct (_ && _); [|apply cycle_ok_done].
  eapply (cycle_ok_consumer w); [|apply track_watch_clan_all_stats_performs].
  by intros evs [H _].
Qed.

Lemma cycle_player_watch_ok w cfg grp prows a :
  cycle_ok a (cycle_player_watch w cfg grp prows a) [] [].
Proof.
  destruct a as [st cy]. unfold cycle_player_watch.
  eapply (cycle_ok_consumer w); [|apply track_watch_players_all_stats_performs].
  by intros evs [H _].
Qed.

(** One player-leaderboard fetch for a group the cache does not hold. *)
Lemma cycle_ok_player_fetch st cy grp sort_by res cy' :
  player_rows_cache cy !! grp = None →
  stats_for_leaderboard cy' = stats_for_leaderboard cy →
  (res = Raised → player_rows_cache cy' = player_rows_cache cy) →
  (∀ d, res = Returned d → ∃ rows, player_rows_cache cy' = <[grp := rows]> (player_rows_cache cy)) →
  cycle_ok (st, cy) (Done (emit (PlayerFetch grp sort_by res) st, cy')) [] [(grp, sort_by)].
Proof.
  intros Hnone Hstats Hraised Hret. exists [PlayerFetch grp sort_by res].
  split; [done|]. split; [|by repeat split]. constructor.
  - intros g s r [[= <- _ _] | []]. exact Hnone.
  - intros [|? [|? ?]] g s d post Heq; try discriminate.
    injection Heq as _ Hpost. intros s' r Hin. subst post. destruct Hin.
  - intros r [= <-] g. cbn [snd]. unfold returned_for. destruct res as [|d].
    + rewrite (Hraised eq_refl). split; [by left|].
      intros [H | (s & d & [[=] | []])]. exact H.
    + destruct (Hret d eq_refl) as [rows ->].
      destruct (decide (grp = g)) as [<- | Hne].
      * rewrite lookup_insert_eq. split; [|by eexists].
        intros _. right. exists sort_by, d. by left.
      * rewrite lookup_insert_ne by done. split; [by left|].
        intros [H | (s & d' & [[= -> _ _] | []])]; [exact H | contradiction].
  - intros r [= <-] key top1 top2. cbn [snd]. rewrite Hstats. by left.
Qed.

Lemma cycle_players_ok w cfg grp sort_by a :
  cycle_ok a (cycle_players w cfg grp sort_by a) [] [(grp, sort_by)].
Proof.
  destruct a as [st cy]. unfold cycle_players.
  assert (Hnil : ∀ o, cycle_ok (st, cy) o [] [] → cycle_ok (st, cy) o [] [(grp, sort_by)]).
  { intros o (evs & T & S & C & D & L). exists evs. repeat (split; [assumption|]).
    etrans; [exact L | apply sublist_nil_l]. }
  destruct (_ && _); [|apply Hnil, cycle_ok_done].
  destruct (player_rows_cache cy !! grp) as [prows|] eqn:Hcache.
  - apply Hnil, cycle_player_watch_ok.
  - destruct (fetch_player_leaderboard _ grp sort_by) as [|pdata] eqn:Hres.
    + by apply cycle_ok_player_fetch.
    + change (@nil string) with (@nil string ++ @nil string).
      change [(grp, sort_by)] with ([(grp, sort_by)] ++ @nil (string * string)).
      eapply cycle_ok_step; [|apply cycle_player_watch_ok].
      apply cycle_ok_player_fetch; [exact Hcache | reflexivity | discriminate |].
      intros d _. by eexists.
Qed.

Lemma cycle_ok_clan_fetch st cy metric_key res cy' :
  player_rows_cache cy' = player_rows_cache cy →
  (∀ key top1 top2, stats_for_leaderboard cy' !! key = Some (top1, top2) →
     stats_for_leaderboard cy !! key = Some (top1, top2)
     ∨ ∃ rest, key = metric_key ∧ res = Returned (Some (top1 :: rest))
               ∧ top2 = head rest) →
  cycle_ok (st, cy) (Done (emit (ClanFetch metric_key res) st, cy')) [metric_key] [].
Proof.
  intros Hcache Htop. exists [ClanFetch metric_key res].
  split; [done|]. split; [|by repeat split]. constructor.
  - intros g s r [[=] | []].
  - intros [|? [|? ?]] g s d post Heq; discriminate.
  - intros r [= <-] g. cbn [snd]. rewrite Hcache. split; [by left|].
    intros [H | (s & d & [[=] | []])]. exact H.
  - intros r [= <-] key top1 top2 Hkey. cbn [snd] in Hkey.
    destruct (Htop _ _ _ Hkey) as [H | (rest & -> & -> & ->)]; [by left | right].
    exists rest. split; [by left | reflexivity].
Qed.

Lemma defined_metrics_one k info :
  METRICS !! k = Some info → defined_metrics [k] = [k] ∧ requests_of [k] = [(group info, sortBy info)].
Proof.
  intros Hinfo. unfold defined_metrics, requests_of. cbn [List.filter omap list_omap].
  rewrite Hinfo. split; [|reflexivity].
  by rewrite bool_decide_eq_true_2 by (by eexists).
Qed.

Lemma defined_metrics_none k :
  METRICS !! k = None → defined_metrics [k] = [] ∧ requests_of [k] = [].
Proof.
  intros Hinfo. unfold defined_metrics, requests_of. cbn [List.filter omap list_omap].
  rewrite Hinfo. split; [|reflexivity].
  by rewrite bool_decide_eq_false_2 by (by intros [x Hx]).
Qed.

Lemma poll_metric_ok w cfg a metric_key :
  cycle_ok a (poll_metric w cfg a metric_key) (defined_metrics [metric_key])
           (requests_of [metric_key]).
Proof.
  destruct (METRICS !! metric_key) as [info|] eqn:Hinfo.
  2:{ assert (poll_metric w cfg a metric_key = Done a) as ->
        by (unfold poll_metric; by rewrite Hinfo).
      destruct (defined_metrics_none _ Hinfo) as [-> ->]. apply cycle_ok_done. }
  destruct (defined_metrics_one _ _ Hinfo) as [-> ->].
  destruct a as [st cy]. unfold poll_metric. rewrite Hinfo.
  assert (Hweak : ∀ o, cycle_ok (st, cy) o [metric_key] [] →
                       cycle_ok (st, cy) o [metric_key] [(group info, sortBy info)]).
  { intros o (evs & T & S & C & D & L). exists evs. repeat (split; [assumption|]).
    etrans; [exact L | apply sublist_nil_l]. }
  destruct (fetch_leaderboard_for_metric _ metric_key) as [|data].
  { apply Hweak, cycle_ok_clan_fetch; [reflexivity | auto]. }
  destruct data as [[|row rows]|];
    cbv beta iota zeta delta [parse_leaderboard_rows default from_option id].
  { apply Hweak, cycle_ok_clan_fetch; [reflexivity | auto]. }
  2:{ apply Hweak, cycle_ok_clan_fetch; [reflexivity | auto]. }
  change [metric_key] with ([metric_key] ++ ([] ++ ([] ++ @nil string))).
  change [(group info, sortBy info)]
    with (@nil (string * string) ++ ([] ++ ([] ++ [(group info, sortBy info)]))).
  eapply cycle_ok_step.
  { apply (cycle_ok_clan_fetch st cy metric_key (Returned (Some (row :: rows)))
             (record_top2 metric_key (row :: rows) cy)); [reflexivity|].
    intros key top1 top2. cbn [record_top2 stats_for_leaderboard].
    intros [[<- [= <- <-]] | [_ Hold]]%lookup_insert_Some; [right | left; exact Hold].
    exists rows. split; [reflexivity|]. split; reflexivity. }
  apply cycle_ok_bind; [apply cycle_spikes_ok|]. intros a1 _.
  apply cycle_ok_bind; [apply cycle_clan_watch_ok|]. intros a2 _.
  apply cycle_players_ok.
Qed.

Lemma post_walobots_update_ok w cfg order a :
  cycle_ok a (fold_outcome (poll_metric w cfg) order a) (defined_metrics order)
           (requests_of order).
Proof.
  revert a. induction order as [|k order IH]; intros a; [apply cycle_ok_done|].
  change (fold_outcome (poll_metric w cfg) (k :: order) a)
    with (and_then (poll_metric w cfg a k) (fold_outcome (poll_metric w cfg) order)).
  change (k :: order) with ([k] ++ order). unfold defined_metrics, requests_of.
  rewrite List.filter_app, omap_app.
  apply cycle_ok_bind; [apply poll_metric_ok|]. intros r _. apply IH.
Qed.



End CycleFacts.

(** ** Timestamps of the history under a clock that does not run backwards *)

Module ClockFacts.

Import Leaderboard RustinityClient Watchers DeltaFacts TraceFacts ReplayFacts.

Definition monotone_clock (w : World) : Prop :=
    ∀ i j, (i ≤ j)%nat → (clock w i <= clock w j)%Z.

(** No snapshot is stamped later than the clock reads in state [st]. *)
Definition stamped_by (w : World) (st : State) : Prop :=
    List.Forall (fun s => (Storage.ts s <= clock w (length (trace st)))%Z)
                (Storage.clan_metric_history (db st)).

Lemma replay_stamped w evs st :
  monotone_clock w → stamped w (length (trace st)) evs → stamped_by w st →
  stamped_by w (replay evs st).
Proof.
  intros Hmono Hnew Hst. unfold stamped_by.
  rewrite replay_history, replay_trace, length_app.
  apply List.Forall_app. split.
  - eapply List.Forall_impl; [|exact Hst]. intros s Hs. simpl in Hs.
    pose proof (Hmono (length (trace st)) (length (trace st) + length evs)%nat).
    lia.
  - eapply List.Forall_impl; [|exact Hnew]. intros s (i & Hi & ->). by apply Hmono.
Qed.

(** With a clock that does not run backwards, a poll cycle, however it
    ends, keeps every stored timestamp at or below the current clock
    reading. *)
Lemma post_walobots_update_stamped w cfg order st :
  monotone_clock w → stamped_by w st →
  stamped_by w (cycle_state (post_walobots_update w cfg order st)).
Proof.
  intros Hmono Hst. destruct (cycle_events w cfg order st) as (Hout & _ & _ & Hnew).
  rewrite Hout. by apply replay_stamped.
Qed.

End ClockFacts.

(** * Worked scenarios *)

Module Scenarios.

Import Leaderboard RustinityClient Watchers.
Import DeltaFacts TraceFacts SpikeFacts SendFacts CycleFacts.

(** A clan row with a single stat. *)
Definition clan_row (clan : string) (place : Z) (stat : string) (v : Q) : Row :=
    mkRow (Some clan) None None None (Some place) [(stat, Numeric v)].

(** A player row with a single stat. *)
Definition player_row (steam_id user : string) (clan : option string)
      (stat : string) (v : Q) : Row :=
    mkRow None clan (Some steam_id) (Some user) (Some 7%Z) [(stat, Numeric v)].

(** A world whose channel accepts ([up = true]) or refuses every send, and
    whose API answers every request with one row for clan Alpha. *)
Definition world (up : bool) : World :=
    {| send_ok := fun _ _ => up;
       clock := fun n => (1700000000 + Z.of_nat n)%Z;
       http_get := fun _ _ =>
         JsonBody (Some [Object (clan_row "Alpha" 1 "kill_player" 10)]) |}.


Definition walobots : Config.Settings :=
    {| Config.clan_name := "Walobots";
       Config.alert_role_id := None;
       Config.watch_clan_names := {[ "Alpha" ]};
       Config.watch_player_ids := {[ "76561198000000001" ]};
       Config.player_clan_overrides := {[ "123" := "Raiders" ]} |}.

(** The process after start-up. *)
Definition fresh : State := initial_state (Storage.init_db walobots Storage.empty_db).

(** A snapshot without its timestamp. *)
Definition untimed (s : Storage.Snapshot)
    : string * string * option Z * option Q :=
    (Storage.metric_key s, Storage.clan_name s, Storage.rank s, Storage.value s).

(** Spec scenario of section 8, with the configured threshold 2 of
    [looted_hackable]: 50 is a first observation, 60 is a spike of 10, 55 is a
    decrease. *)
Definition three_cycles (up : bool) : State :=
    let run v st :=
      left_by snd
        (log_top_and_detect_spikes (world up) walobots "looted_hackable"
           [Object (clan_row "Alpha" 1 "looted_hackablecrate" v)]
           "looted_hackablecrate" st) in
    run 55%Q (run 60%Q (run 50%Q fresh)).

Definition sent (st : State) : list (Message * bool) :=
    omap (fun e => match e with SendAttempt m ok => Some (m, ok) | _ => None end) (trace st).

Example three_cycles_alerts :
  sent (three_cycles true)
  = [ (mkMessage SPIKE "Alpha" None "looted_hackable" None (60 - 50) 60 (Some 1%Z) None,
       true) ]
  ∧ LAST_CLAN_METRIC_VALUES (three_cycles true) !! ("looted_hackable", "Alpha")
    = Some (Finite 55)
  ∧ map untimed (Storage.clan_metric_history (db (three_cycles true)))
    = [ ("looted_hackable", "Alpha", Some 1%Z, Some 50%Q);
        ("looted_hackable", "Alpha", Some 1%Z, Some 60%Q);
        ("looted_hackable", "Alpha", Some 1%Z, Some 55%Q) ].
Proof. split; [|split]; vm_compute; reflexivity. Qed.

Example three_cycles_channel_down :
  sent (three_cycles false)
  = [ (mkMessage SPIKE "Alpha" None "looted_hackable" None (60 - 50) 60 (Some 1%Z) None,
       false) ]
  ∧ LAST_CLAN_METRIC_VALUES (three_cycles false) !! ("looted_hackable", "Alpha")
    = Some (Finite 55)
  ∧ map untimed (Storage.clan_metric_history (db (three_cycles false)))
    = map untimed (Storage.clan_metric_history (db (three_cycles true))).
Proof. split; [|split]; vm_compute; reflexivity. Qed.

(** Spec scenario of section 8: player 123 is not in the watch list but has
    the override label Raiders. *)
Definition override_scenario : Outcome (nat * State) :=
    let rows v := [Object (player_row "123" "bob" (Some "Other") "kill_player" v)] in
    let no_watch := initial_state Storage.empty_db in
    track_watch_players_all_stats (world true) walobots "pvp" (rows 9%Q)
      (left_by snd
         (track_watch_players_all_stats (world true) walobots "pvp" (rows 4%Q) no_watch)).

Example override_scenario_alert :
  sent (left_by snd override_scenario)
  = [ (mkMessage PLAYER_WATCH "bob" (Some "Raiders") "kill_player" (Some "pvp")
                 (9 - 4) 9 (Some 7%Z) None, true) ]
  ∧ outcome_map fst override_scenario = Done 1%nat.
Proof. split; vm_compute; reflexivity. Qed.



(** A world whose clan leaderboards hold, before the row of clan Alpha, an
    element that is not an object. *)
Definition broken_world : World :=
    {| send_ok := fun _ _ => true;
       clock := fun n => (1700000000 + Z.of_nat n)%Z;
       http_get := fun _ _ =>
         JsonBody (Some [NotAnObject; Object (clan_row "Alpha" 1 "kill_player" 10)]) |}.

(** In that world, with tracking on, the cycle is left by the
    [AttributeError] of [row.get] in the clan watcher at the first metric:
    the metrics after it are not fetched and no player leaderboard is asked
    for. *)
Example cycle_left_by_an_exception :
  let st := set_tracking_enabled true fresh in
  let order := [ "pvp_kills"; "looted_hackable"; "pvp_deaths" ] in
  let out := post_walobots_update broken_world walobots order st in
  defined_metrics order = order
  ∧ raises out
  ∧ events_since st (cycle_state out)
    = [ ClanFetch "pvp_kills"
          (Returned (Some [NotAnObject; Object (clan_row "Alpha" 1 "kill_player" 10)])) ].
Proof.
  split; [vm_compute; reflexivity|]. split; [eexists; vm_compute; reflexivity|].
  vm_compute. reflexivity.
Qed.

(** *** The theorems at work on the scenarios *)

Definition kills_key : string * string * string := ("pvp", "alpha", "kill_player").

Definition hackable_row (v : Q) : Row := clan_row "Alpha" 1 "looted_hackablecrate" v.

(** The process after clan Alpha was seen with 50 kills. *)
Definition seen_50 : State := store_clan_value kills_key (Finite 50) fresh.

(** The process after clan Alpha was seen with 50 hackable crates. *)
Definition crates_50 : State :=
    left_by fst
      (spike_row (world true) walobots "looted_hackable" "looted_hackablecrate"
                 (Some 2%Q) (fresh, 0%nat) (hackable_row 50)).




(** C1 in a fresh process: first readings of a watched clan, of a watched
    player and of a spike metric are stored without a send. *)
Lemma C1_fresh_process_witness :
  watch_clan_stat (world true) walobots "pvp" "Alpha" "alpha" (Some 1%Z) (fresh, 0%nat)
                  ("kill_player", Numeric 50)
  = Done (store_clan_value kills_key (Finite 50) fresh, 0%nat)
  ∧ watch_player_stat (world true) walobots "pvp" "123" "bob" "Raiders" (Some 7%Z)
                      (fresh, 0%nat) ("kill_player", Numeric 4)
    = Done (store_player_value ("pvp", "123", "kill_player") (Finite 4) fresh, 0%nat)
  ∧ spike_row (world true) walobots "looted_hackable" "looted_hackablecrate"
              (ALERT_THRESHOLDS !! "looted_hackable") (fresh, 0%nat) (hackable_row 50)
    = Done (store_metric_value ("looted_hackable", "Alpha") (Finite 50)
              (log_snapshot (world true) "looted_hackable" "Alpha" (Some 1%Z) (Finite 50)
                            fresh), 0%nat).
Proof.
  destruct (C1_first_observation_stores_and_is_silent (world true) walobots)
    as (Hclan & Hplayer & Hspike).
  split; [|split].
  - exact (proj2 (Hclan "pvp" "Alpha" "alpha" (Some 1%Z) fresh 0%nat "kill_player"
                        (Numeric 50) (Finite 50) eq_refl eq_refl)).
  - exact (proj2 (Hplayer "pvp" "123" "bob" "Raiders" (Some 7%Z) fresh 0%nat
                          "kill_player" (Numeric 4) (Finite 4) eq_refl eq_refl)).
  - exact (proj2 (Hspike "looted_hackable" "looted_hackablecrate" 2%Q fresh 0%nat
                         (hackable_row 50) (Finite 50) eq_refl eq_refl eq_refl eq_refl)).
Defined.


(** C4 on a decrease: after 50 kills, 30 kills give the delta 30 - 50, are
    stored, and nothing is sent; likewise for 40 crates after 50. *)
Lemma C4_decrease_witness :
  (delta_since (WATCH_CLAN_LAST_VALUES seen_50 !! kills_key) (Finite 30)
   = py_sub (Finite 30) (Finite 50)
   ∧ py_sub (Finite 30) (Finite 50) = Finite (30 - 50)
   ∧ ¬ attempted (events_since seen_50
                    (left_by fst
                       (watch_clan_stat (world true) walobots "pvp" "Alpha" "alpha"
                                        (Some 1%Z) (seen_50, 0%nat)
                                        ("kill_player", Numeric 30)))))
  ∧ LAST_CLAN_METRIC_VALUES
      (left_by fst
         (spike_row (world true) walobots "looted_hackable" "looted_hackablecrate"
                    (ALERT_THRESHOLDS !! "looted_hackable") (crates_50, 0%nat)
                    (hackable_row 40))) !! ("looted_hackable", "Alpha")
    = Some (Finite 40).
Proof.
  destruct (C4_delta_and_unconditional_overwrite (world true) walobots)
    as (Hclan & _ & Hspike).
  split.
  - destruct (proj2 (proj2 (Hclan "pvp" "Alpha" "alpha" (Some 1%Z) seen_50 0%nat
                                  "kill_player" (Numeric 30) (Finite 30) eq_refl))
                    (Finite 50) eq_refl) as (Hd & Hfin & _ & _ & Hquiet).
    split; [exact Hd|]. split; [exact (Hfin 30%Q 50%Q eq_refl eq_refl)|].
    apply (Hquiet 30%Q 50%Q eq_refl eq_refl). vm_compute. discriminate.
  - exact (proj1 (proj2 (Hspike "looted_hackable" "looted_hackablecrate" 2%Q crates_50
                                0%nat (hackable_row 40) (Finite 40)
                                eq_refl eq_refl eq_refl))).
Defined.

(** C6 on the tied history, queried at time 5000 over twelve hours. *)
Lemma C6_tied_history_witness :
  (In "Alpha"
      (map fst (Storage.get_clan_metric_changes 5000 "looted_hackable" 12
                  EmbedsFacts.tied_history))
   ↔ ∃ s, In s (Storage.clan_metric_history EmbedsFacts.tied_history)
          ∧ Storage.metric_key s = "looted_hackable"
          ∧ Storage.clan_name s = "Alpha"
          ∧ (5000 - 12 * 3600 <= Storage.ts s)%Z)
  ∧ ∀ clan s, In s (Storage.clan_metric_history EmbedsFacts.tied_history)
              ∧ Storage.metric_key s = "looted_hackable"
              ∧ Storage.clan_name s = clan
              ∧ (5000 - 12 * 3600 <= Storage.ts s)%Z →
              (5000 - 12 * 3600 <= Storage.ts s <= 5000)%Z.
Proof.
  assert (H : List.Forall (fun s => (Storage.ts s <= 5000)%Z)
                (Storage.clan_metric_history EmbedsFacts.tied_history)).
  { repeat (apply List.Forall_cons; [simpl; lia|]). apply List.Forall_nil. }
  destruct (StorageFacts.C6_windowed_changes_only_observed
              5000 12 "looted_hackable" EmbedsFacts.tied_history) as (Hiff & _ & Hrange).
  split; [exact (Hiff "Alpha") | exact (Hrange H)].
Defined.

(** C8 on an empty registry. *)
Lemma C8_walobots_witness :
  "Walobots" ≠ ""
  ∧ RegistryFacts.stored_lower Storage.empty_db
  ∧ "walobots" ∈ Storage.get_watch_clans (Storage.add_watch_clan "Walobots" Storage.empty_db)
  ∧ Storage.remove_watch_clan "WALOBOTS"
      (Storage.add_watch_clan "Walobots" Storage.empty_db)
    = Storage.remove_watch_clan "WALOBOTS"
        (Storage.remove_watch_clan "WALOBOTS"
           (Storage.add_watch_clan "Walobots" Storage.empty_db)).
Proof.
  assert (Hname : "Walobots" ≠ "") by discriminate.
  assert (Hcaps : "WALOBOTS" ≠ "") by discriminate.
  split; [exact Hname|]. split; [exact RegistryFacts.stored_lower_empty|].
  split.
  - exact (proj1 (proj1 (RegistryFacts.C8_watch_clan_round_trip "Walobots"
                           Storage.empty_db Hname RegistryFacts.stored_lower_empty))).
  - symmetry.
    exact (proj1 (proj2 (proj2 (proj2 (proj2
             (RegistryFacts.C8_watch_clan_round_trip "WALOBOTS"
                (Storage.add_watch_clan "Walobots" Storage.empty_db) Hcaps
                (RegistryFacts.stored_lower_add "Walobots" _
                   RegistryFacts.stored_lower_empty))))))).
Defined.


(** C10 on the spike scenario with the channel up and down. *)
Lemma C10_channel_down_witness :
  same_but_channel (world true) (world false)
  ∧ agree_out snd
      (log_top_and_detect_spikes (world true) walobots "looted_hackable"
         [Object (hackable_row 60)] "looted_hackablecrate" crates_50)
      (log_top_and_detect_spikes (world false) walobots "looted_hackable"
         [Object (hackable_row 60)] "looted_hackablecrate" crates_50)
  ∧ agree_out snd
      (track_watch_clan_all_stats (world true) walobots "pvp"
         [Object (clan_row "Alpha" 1 "kill_player" 80)] seen_50)
      (track_watch_clan_all_stats (world false) walobots "pvp"
         [Object (clan_row "Alpha" 1 "kill_player" 80)] seen_50)
  ∧ delta_since
      (LAST_CLAN_METRIC_VALUES
         (left_by fst
            (spike_row (world false) walobots "looted_hackable" "looted_hackablecrate"
                       (Some 2%Q) (crates_50, 0%nat) (hackable_row 60)))
       !! ("looted_hackable", "Alpha")) (Finite 61)
    = py_sub (Finite 61) (Finite 60).
Proof.
  assert (Hw : same_but_channel (world true) (world false)) by (by split).
  destruct (C10_send_outcome_changes_only_the_count walobots)
    as (_ & _ & _ & Hclan & _ & Hspike & _ & _ & Hnext & _).
  split; [exact Hw|]. split; [|split].
  - apply Hspike; [exact Hw | apply agree_refl].
  - apply Hclan, agree_refl.
  - exact (Hnext (world false) "looted_hackable" "looted_hackablecrate" 2%Q crates_50 0%nat
                 (hackable_row 60) (Finite 60) (Finite 61) eq_refl eq_refl).
Defined.

End Scenarios.

(** * Further properties of the code *)

(** ** More on strings *)

Module StripFacts.

Import PyStr.

(** [c] occurs in [s]. *)
Fixpoint occurs (c : ascii) (s : string) : bool :=
  match s with
  | EmptyString => false
  | String c' rest => Ascii.eqb c' c || occurs c rest
  end.

(** [s] neither starts nor ends with white space. *)
Definition stripped (s : string) : Prop := strip s = s.

Lemma lstrip_idem s : lstrip (lstrip s) = lstrip s.
Proof.
  induction s as [|c rest IH]; simpl; [reflexivity|].
  destruct (isspace c) eqn:E; [exact IH|]. simpl. by rewrite E.
Qed.

Lemma rstrip_idem s : rstrip (rstrip s) = rstrip s.
Proof.
  induction s as [|c rest IH]; simpl; [reflexivity|].
  destruct (rstrip rest) as [|d kept] eqn:E.
  - destruct (isspace c) eqn:Ec; simpl; [reflexivity|]. by rewrite Ec.
  - change (rstrip (String c (String d kept))) with
      (match rstrip (String d kept) with
       | EmptyString => if isspace c then EmptyString else String c EmptyString
       | String a b => String c (String a b)
       end).
    by rewrite IH.
Qed.

Lemma lstrip_head s : lstrip s = s ↔ match s with
                                    | EmptyString => True
                                    | String c _ => isspace c = false
                                    end.
Proof.
  destruct s as [|c rest]; simpl; [tauto|].
  destruct (isspace c) eqn:E; [|tauto]. split; [|discriminate].
  intros H. exfalso.
  assert (Hlen : ∀ t, (String.length (lstrip t) ≤ String.length t)%nat).
  { induction t as [|a t IH]; simpl; [lia|]. destruct (isspace a); simpl; lia. }
  pose proof (Hlen rest) as Hl. rewrite H in Hl. simpl in Hl. lia.
Qed.

Lemma lstrip_rstrip s : lstrip s = s → lstrip (rstrip s) = rstrip s.
Proof.
  intros H. apply lstrip_head in H. apply lstrip_head.
  destruct s as [|c rest]; simpl; [exact I|].
  destruct (rstrip rest); [by rewrite H | exact H].
Qed.

Lemma strip_idem s : strip (strip s) = strip s.
Proof.
  unfold strip. rewrite (lstrip_rstrip (lstrip s)) by apply lstrip_idem.
  apply rstrip_idem.
Qed.

Lemma occurs_lstrip c s : occurs c (lstrip s) = true → occurs c s = true.
Proof.
  induction s as [|a rest IH]; simpl; [done|].
  destruct (isspace a); simpl; [|done].
  intros H. rewrite (IH H). apply orb_true_r.
Qed.

Lemma occurs_rstrip c s : occurs c (rstrip s) = true → occurs c s = true.
Proof.
  induction s as [|a rest IH]; simpl; [done|].
  destruct (rstrip rest) as [|d kept].
  - destruct (isspace a); simpl; [done|]. rewrite orb_false_r. intros ->. reflexivity.
  - simpl in *. destruct (Ascii.eqb a c); simpl; [done|]. exact IH.
Qed.

Lemma occurs_strip c s : occurs c (strip s) = true → occurs c s = true.
Proof. intros H. by apply occurs_lstrip, occurs_rstrip. Qed.

Lemma isspace_lower c : isspace (lower_char c) = isspace c.
Proof. destruct c as [[] [] [] [] [] [] [] []]; reflexivity. Qed.

Lemma lstrip_lower s : lstrip (lower s) = lower (lstrip s).
Proof.
  induction s as [|c rest IH]; simpl; [reflexivity|].
  rewrite isspace_lower. by destruct (isspace c).
Qed.

Lemma rstrip_lower s : rstrip (lower s) = lower (rstrip s).
Proof.
  induction s as [|c rest IH]; simpl; [reflexivity|].
  rewrite IH, isspace_lower. destruct (rstrip rest); simpl; [by destruct (isspace c) | done].
Qed.

Lemma strip_lower s : strip (lower s) = lower (strip s).
Proof. unfold strip. by rewrite lstrip_lower, rstrip_lower. Qed.

End StripFacts.

(** ** Reading the tracking configuration *)

Module ConfigFacts.

Import PyStr ConfigParse StripFacts.

(** A value that reads back as itself: not empty, no white space around
    it, and free of the separator [sep]. *)
Definition clean (sep : ascii) (p : string) : Prop :=
    p ≠ "" ∧ stripped p ∧ occurs sep p = false.

Lemma split_on_cons sep s : ∃ piece pieces, split_on sep s = piece :: pieces.
Proof.
  induction s as [|c rest (p & ps & IH)]; simpl; [by eexists _, _|].
  destruct (Ascii.eqb c sep); [by eexists _, _|]. rewrite IH. by eexists _, _.
Qed.

Lemma split_on_app sep a b :
  split_on sep (a ++ String sep b)%string = split_on sep a ++ split_on sep b.
Proof.
  induction a as [|c a IH]; simpl.
  - by rewrite Ascii.eqb_refl.
  - destruct (Ascii.eqb c sep); [by rewrite IH|].
    rewrite IH. by destruct (split_on_cons sep a) as (p & ps & ->).
Qed.

Lemma split_on_free sep s : occurs sep s = false → split_on sep s = [s].
Proof.
  induction s as [|c rest IH]; simpl; [done|].
  intros [Hc Hrest]%orb_false_iff. rewrite Hc, (IH Hrest). reflexivity.
Qed.

Lemma split_on_pieces_free sep s :
  List.Forall (fun p => occurs sep p = false) (split_on sep s).
Proof.
  induction s as [|c rest IH]; simpl; [by repeat constructor|].
  destruct (Ascii.eqb c sep) eqn:E; [by constructor|].
  destruct (split_on sep rest) as [|p ps]; [by repeat constructor; simpl; rewrite E|].
  inversion IH as [|? ? Hp Hps]; subst. constructor; [|exact Hps].
  simpl. by rewrite E, Hp.
Qed.

Lemma split_on_concat sep p l :
  List.Forall (fun q => occurs sep q = false) (p :: l) →
  split_on sep (String.concat (String sep "") (p :: l)) = p :: l.
Proof.
  revert p. induction l as [|q l IH]; intros p Hall.
  - simpl. apply split_on_free. by inversion Hall.
  - inversion Hall as [|? ? Hp Hrest]; subst.
    change (String.concat (String sep "") (p :: q :: l))
      with (p ++ String sep (String.concat (String sep "") (q :: l)))%string.
    by rewrite split_on_app, (split_on_free _ _ Hp), (IH q Hrest).
Qed.

(** The guard [if not value] changes nothing: an empty value has the single
    piece [""], which is dropped anyway. *)
Lemma parse_csv_some v :
  _parse_csv (Some v) = List.filter truthy (map strip (split_on "," v)).
Proof. unfold _parse_csv. by destruct v. Qed.

Lemma parse_csv_items (value : option string) (p : string) :
  In p (_parse_csv value) → clean "," p.
Proof.
  intros Hin. destruct value as [v|]; [|destruct Hin].
  rewrite parse_csv_some in Hin. apply filter_In in Hin as [Hin Hp].
  apply in_map_iff in Hin as (piece & <- & Hpiece).
  split; [by apply PyStrFacts.truthy_true|]. split; [apply strip_idem|].
  pose proof (split_on_pieces_free "," v) as Hfree.
  rewrite List.Forall_forall in Hfree. specialize (Hfree _ Hpiece).
  destruct (occurs "," (strip piece)) eqn:E; [|reflexivity].
  apply occurs_strip in E. congruence.
Qed.

(** X1. Whatever the text, every item [_parse_csv] returns is not empty,
    has no white space around it and holds no comma; a missing or empty
    value gives no item, and so does a value made of commas and white space
    only. *)
Theorem parse_csv_items_clean (value : option string) :
  List.Forall (clean ",") (_parse_csv value)
  ∧ _parse_csv None = []
  ∧ _parse_csv (Some "") = []
  ∧ ((∀ piece, In piece (split_on "," (default "" value)) → strip piece = "") →
     _parse_csv value = []).
Proof.
  split; [apply List.Forall_forall; apply parse_csv_items|].
  split; [reflexivity|]. split; [reflexivity|].
  destruct value as [v|]; [|reflexivity]. simpl default. rewrite parse_csv_some.
  induction (split_on "," v) as [|piece pieces IH]; intros Hblank; [reflexivity|].
  simpl. rewrite (Hblank piece) by (by left). simpl.
  apply IH. intros q Hq. apply Hblank. by right.
Qed.

Lemma parse_csv_concat (items : list string) :
  List.Forall (clean ",") items → _parse_csv (Some (String.concat "," items)) = items.
Proof.
  intros Hclean. rewrite parse_csv_some. destruct items as [|p l]; [reflexivity|].
  rewrite split_on_concat
    by (eapply List.Forall_impl; [|exact Hclean]; by intros q (_ & _ & Hq)).
  induction Hclean as [|q l' (Hne & Hst & _) _ IH]; [reflexivity|].
  simpl. rewrite Hst. apply PyStrFacts.truthy_true in Hne. rewrite Hne.
  f_equal. exact IH.
Qed.

Lemma parse_csv_app a b :
  _parse_csv (Some (a ++ String "," b)%string)
  = _parse_csv (Some a) ++ _parse_csv (Some b).
Proof. rewrite !parse_csv_some, split_on_app, map_app. apply List.filter_app. Qed.

(** X2. Items that are clean read back unchanged from their comma-joined
    text, and the text of two lists joined by a comma reads as the two
    readings one after the other. *)
Theorem parse_csv_round_trip (items : list string)
    (Hclean : List.Forall (clean ",") items) :
  _parse_csv (Some (String.concat "," items)) = items
  ∧ ∀ a b, _parse_csv (Some (a ++ String "," b)%string)
           = _parse_csv (Some a) ++ _parse_csv (Some b).
Proof. split; [by apply parse_csv_concat | apply parse_csv_app]. Qed.

Lemma split_once_before sep s before after :
  split_once sep s = Some (before, after) →
  occurs sep before = false ∧ s = (before ++ String sep after)%string.
Proof.
  revert before. induction s as [|c rest IH]; intros before; simpl; [done|].
  destruct (Ascii.eqb c sep) eqn:E.
  - intros [= <- <-]. apply Ascii.eqb_eq in E as ->. by split.
  - destruct (split_once sep rest) as [[b a]|]; [|done].
    intros [= <- <-]. destruct (IH b eq_refl) as [Hb ->]. simpl. by rewrite E, Hb.
Qed.

Lemma split_once_join sep before after :
  occurs sep before = false →
  split_once sep (before ++ String sep after)%string = Some (before, after).
Proof.
  induction before as [|c b IH]; simpl.
  - by rewrite Ascii.eqb_refl.
  - intros [Hc Hb]%orb_false_iff. by rewrite Hc, (IH Hb).
Qed.

(** What [_parse_overrides] stores: ids and labels that are not empty and
    have no white space around them; the id holds neither colon nor comma,
    the label holds no comma. *)
Definition override_ok (steam_id lbl : string) : Prop :=
    clean "," steam_id ∧ occurs ":" steam_id = false ∧ clean "," lbl.

Lemma override_part_ok result part :
  occurs "," part = false →
  (∀ k v, result !! k = Some v → override_ok k v) →
  ∀ k v, override_part result part !! k = Some v → override_ok k v.
Proof.
  intros Hpart Hres k v. unfold override_part.
  destruct (split_once ":" part) as [[a b]|] eqn:E; [|apply Hres].
  destruct (truthy (strip a) && truthy (strip b)) eqn:Ht; [|apply Hres].
  apply andb_true_iff in Ht as [Ha Hb].
  intros [[<- <-] | [_ H]]%lookup_insert_Some; [|by apply Hres].
  apply split_once_before in E as [Hcolon ->].
  assert (Hfree : occurs "," a = false ∧ occurs "," b = false).
  { clear -Hpart. induction a as [|c a IH]; simpl in *.
    - split; [reflexivity | exact Hpart].
    - apply orb_false_iff in Hpart as [Hc Hrest]. rewrite Hc. by apply IH. }
  assert (Hsub : ∀ c t, occurs c t = false → occurs c (strip t) = false).
  { intros c t Ht. destruct (occurs c (strip t)) eqn:E; [|done].
    apply occurs_strip in E. congruence. }
  destruct Hfree as [Hfa Hfb].
  repeat split; try apply strip_idem; try (by apply PyStrFacts.truthy_true); by apply Hsub.
Qed.

(** X3. Every entry of the override table has an id and a label that are
    not empty, carry no white space around them and hold no comma, and the id
    holds no colon; in particular the empty id has no override. *)
Theorem parse_overrides_entries_ok (value : option string) :
  (∀ steam_id lbl, _parse_overrides value !! steam_id = Some lbl →
     override_ok steam_id lbl)
  ∧ _parse_overrides value !! "" = None.
Proof.
  assert (Hfold : ∀ parts result,
            List.Forall (fun p => occurs "," p = false) parts →
            (∀ k v, result !! k = Some v → override_ok k v) →
            ∀ k v, fold_left override_part parts result !! k = Some v → override_ok k v).
  { induction parts as [|p parts IH]; intros result Hparts Hres; simpl; [exact Hres|].
    inversion Hparts; subst. apply IH; [done|]. by apply override_part_ok. }
  assert (Hall : ∀ k v, _parse_overrides value !! k = Some v → override_ok k v).
  { apply Hfold.
    - apply List.Forall_forall. intros p Hp. by apply (parse_csv_items value).
    - intros k v. by rewrite lookup_empty. }
  split; [exact Hall|].
  destruct (_parse_overrides value !! "") as [v|] eqn:E; [|reflexivity].
  by destruct (Hall _ _ E) as ((Hne & _) & _).
Qed.

Lemma override_fold_union parts result :
  fold_left override_part parts result = fold_left override_part parts ∅ ∪ result.
Proof.
  revert result. induction parts as [|p parts IH]; intros result; simpl.
  - by rewrite (left_id_L ∅ (∪)).
  - rewrite IH, (IH (override_part ∅ p)), <- (assoc_L (∪)). f_equal.
    unfold override_part. destruct (split_once ":" p) as [[a b]|];
      [|by rewrite (left_id_L ∅ (∪))].
    destruct (_ && _); [|by rewrite (left_id_L ∅ (∪))].
    by rewrite insert_union_singleton_l, insert_empty.
Qed.

(** The text of one override. *)
Definition override_text (entry : string * string) : string :=
    (entry.1 ++ String ":" entry.2)%string.

Lemma rstrip_append a b :
  rstrip b ≠ "" → rstrip (a ++ b)%string = (a ++ rstrip b)%string.
Proof.
  intros Hb. induction a as [|c a IH]; [reflexivity|].
  change (rstrip (String c (a ++ b)) = String c (a ++ rstrip b))%string.
  cbn [rstrip]. rewrite IH. destruct (a ++ rstrip b)%string eqn:E; [|reflexivity].
  destruct a; cbn in E; [contradiction | discriminate].
Qed.

Lemma stripped_lstrip s : stripped s → lstrip s = s.
Proof.
  unfold stripped, strip. intros H.
  destruct s as [|c rest]; [reflexivity|]. apply lstrip_head.
  destruct (isspace c) eqn:E; [|reflexivity]. exfalso.
  assert (Hhead : lstrip (strip (String c rest)) = strip (String c rest)).
  { unfold strip. apply lstrip_rstrip, lstrip_idem. }
  unfold strip in Hhead. rewrite H in Hhead. apply lstrip_head in Hhead. congruence.
Qed.

Lemma stripped_rstrip s : stripped s → rstrip s = s.
Proof. intros H. pose proof (stripped_lstrip s H) as Hl. unfold stripped, strip in H. by rewrite Hl in H. Qed.

Lemma override_text_clean entry :
  override_ok entry.1 entry.2 → clean "," (override_text entry).
Proof.
  destruct entry as [k v]. simpl.
  intros ((Hk & Hks & Hkc) & _ & (Hv & Hvs & Hvc)). unfold override_text. simpl.
  split; [by destruct k|]. split.
  - unfold stripped, strip.
    assert (Hl : lstrip (k ++ String ":" v) = (k ++ String ":" v)%string).
    { apply lstrip_head. pose proof (stripped_lstrip k Hks) as H.
      apply lstrip_head in H. by destruct k. }
    assert (Hr : rstrip (String ":" v) = String ":" v).
    { cbn [rstrip]. rewrite (stripped_rstrip v Hvs). by destruct v. }
    rewrite Hl, rstrip_append; rewrite Hr; [reflexivity | discriminate].
  - clear -Hkc Hvc. induction k as [|c k IH]; simpl in *; [exact Hvc|].
    apply orb_false_iff in Hkc as [Hc Hk]. rewrite Hc. by apply IH.
Qed.

(** X4. [_parse_overrides] reads the comma-joined text of well-formed
    "id:label" entries back as the table of those entries in which a later
    entry for an id replaces an earlier one; and for any two texts, the table
    of their comma-joined text is the table of the second completed by the
    table of the first. *)
Theorem parse_overrides_round_trip (entries : list (string * string))
    (Hok : List.Forall (fun e => override_ok e.1 e.2) entries) :
  _parse_overrides (Some (String.concat "," (map override_text entries)))
  = list_to_map (rev entries)
  ∧ ∀ a b, _parse_overrides (Some (a ++ String "," b)%string)
           = _parse_overrides (Some b) ∪ _parse_overrides (Some a).
Proof.
  split.
  - unfold _parse_overrides.
    rewrite parse_csv_concat.
    2:{ apply List.Forall_map. eapply List.Forall_impl; [|exact Hok].
      intros e. apply override_text_clean. }
    assert (Hfold : ∀ result,
              fold_left override_part (map override_text entries) result
              = fold_left (fun m e => <[e.1 := e.2]> m) entries result).
    { induction Hok as [|[k v] l (Hk & Hcolon & Hv) _ IH]; intros result; simpl in *;
        [reflexivity|].
      rewrite <- IH. f_equal. unfold override_part, override_text. simpl.
      rewrite (split_once_join ":" k v Hcolon).
      destruct Hk as (Hk & Hks & _), Hv as (Hv & Hvs & _).
      rewrite Hks, Hvs. apply PyStrFacts.truthy_true in Hk, Hv. by rewrite Hk, Hv. }
    rewrite Hfold, <- fold_left_rev_right. unfold list_to_map.
    induction (rev entries) as [|[k v] l IH]; simpl; [reflexivity|]. by rewrite IH.
  - intros a b. unfold _parse_overrides.
    by rewrite parse_csv_app, fold_left_app, override_fold_union.
Qed.

End ConfigFacts.

(** ** Start-up and the writers of the watch registry *)

Module StartupFacts.

Import PyStr Storage ConfigParse StripFacts ConfigFacts.

(** X5. [init_db] may be called again without effect, keeps the history,
    and leaves in the watch tables what was there together with the
    configured clan names in lower case and the configured player ids. *)
Theorem init_db_seeds_and_keeps (cfg : Config.Settings) (d : Database) :
  init_db cfg (init_db cfg d) = init_db cfg d
  ∧ clan_metric_history (init_db cfg d) = clan_metric_history d
  ∧ (∀ n, n ∈ get_watch_clans (init_db cfg d)
          ↔ n ∈ get_watch_clans d ∨ ∃ m, m ∈ Config.watch_clan_names cfg ∧ n = lower m)
  ∧ (∀ p, p ∈ get_watch_players (init_db cfg d)
          ↔ p ∈ get_watch_players d ∨ p ∈ Config.watch_player_ids cfg).
Proof.
  split; [|split; [reflexivity|split]].
  - unfold init_db. simpl. f_equal; apply set_eq; intros x; rewrite !elem_of_union; tauto.
  - intros n. unfold get_watch_clans. simpl. rewrite elem_of_union, elem_of_map. split.
    + intros [(m & -> & Hm) | H]; [right; by exists m | by left].
    + intros [H | (m & Hm & ->)]; [by right | left; by exists m].
  - intros p. unfold get_watch_players. simpl. rewrite elem_of_union. tauto.
Qed.

(** What writes to the store while the bot runs: start-up with the three
    tracking variables of the environment, the four registry commands, and
    the snapshots of the poll cycle. *)
Inductive RegistryOp : Type :=
  | Startup (clan : string) (role_id : option Z)
            (env_watch_clan_name env_watch_player_ids env_player_clan_overrides
               : option string)
  | Track (clan_name : option string)
  | Untrack (clan_name : option string)
  | TrackPlayer (steam_id : option string)
  | UntrackPlayer (steam_id : option string)
  | Snapshot (now : Z) (metric clan : string) (rk : option Z) (val : option Q).

Definition run_op (d : Database) (op : RegistryOp) : Database :=
    match op with
    | Startup clan role_id clans players overrides =>
        init_db (tracking_settings clan role_id clans players overrides) d
    | Track arg => (Commands.track_command arg d).2
    | Untrack arg => (Commands.untrack_command arg d).2
    | TrackPlayer arg => (Commands.track_player_command arg d).2
    | UntrackPlayer arg => (Commands.untrack_player_command arg d).2
    | Snapshot now metric clan rk val =>
        add_clan_metric_snapshot now metric clan rk val None d
    end.

(** Watched clan names are not empty, in lower case and without white space
    around them; watched player ids are not empty and without white space
    around them. *)
Definition registry_clean (d : Database) : Prop :=
    (∀ n, n ∈ watch_clans d → n ≠ "" ∧ lower n = n ∧ stripped n)
    ∧ (∀ p, p ∈ watch_players d → p ≠ "" ∧ stripped p).

Lemma lower_nonempty s : s ≠ "" → lower s ≠ "".
Proof. by destruct s. Qed.

Lemma stripped_lower s : stripped s → stripped (lower s).
Proof. unfold stripped. rewrite strip_lower. by intros ->. Qed.

Lemma blank_false arg :
  Commands.blank arg = false →
  ∃ text, arg = Some text ∧ text ≠ "" ∧ strip text ≠ "".
Proof.
  destruct arg as [text|]; [|discriminate]. simpl.
  intros [H1 H2]%orb_false_iff. apply negb_false_iff in H1, H2.
  exists text. by rewrite <- !PyStrFacts.truthy_true.
Qed.

Lemma run_op_clean d op : registry_clean d → registry_clean (run_op d op).
Proof.
  intros [Hc Hp]. destruct op as [clan role e1 e2 e3 | arg | arg | arg | arg | ]; simpl.
  - split.
    + intros n [Hn | Hn]%elem_of_union; [|by apply Hc].
      apply elem_of_map in Hn as (m & -> & Hm). simpl in Hm.
      apply elem_of_list_to_set, list_elem_of_In, in_map_iff in Hm as (q & <- & Hq).
      apply parse_csv_items in Hq as (Hne & Hst & _).
      split; [by apply lower_nonempty, lower_nonempty|].
      split; [apply PyStrFacts.lower_idem | by apply stripped_lower, stripped_lower].
    + intros p [Hin | Hin]%elem_of_union; [|by apply Hp]. simpl in Hin.
      apply elem_of_list_to_set, list_elem_of_In in Hin.
      apply parse_csv_items in Hin as (Hne & Hst & _). by split.
  - unfold Commands.track_command. destruct (Commands.blank arg) eqn:E; [by split|].
    apply blank_false in E as (text & -> & _ & Hne). simpl.
    unfold add_watch_clan. apply PyStrFacts.truthy_true in Hne as Ht. rewrite Ht.
    split; [|exact Hp]. simpl. intros n [Hn | Hn]%elem_of_union; [|by apply Hc].
    apply elem_of_singleton in Hn as ->.
    split; [by apply lower_nonempty|].
    split; [apply PyStrFacts.lower_idem | apply stripped_lower, strip_idem].
  - unfold Commands.untrack_command. destruct (Commands.blank arg); [by split|]. simpl.
    unfold remove_watch_clan. destruct (truthy _); [|by split].
    split; [|exact Hp]. simpl. intros n [Hn _]%elem_of_difference. by apply Hc.
  - unfold Commands.track_player_command.
    destruct (Commands.blank arg) eqn:E; [by split|].
    apply blank_false in E as (text & -> & _ & Hne). simpl.
    destruct (negb _); [by split|]. destruct (bool_decide _); [by split|]. simpl.
    unfold add_watch_player. apply PyStrFacts.truthy_true in Hne as Ht. rewrite Ht.
    split; [exact Hc|]. simpl. intros p [Hin | Hin]%elem_of_union; [|by apply Hp].
    apply elem_of_singleton in Hin as ->. split; [exact Hne | apply strip_idem].
  - unfold Commands.untrack_player_command.
    destruct (Commands.blank arg); [by split|]. simpl.
    unfold remove_watch_player. destruct (truthy _); [|by split].
    split; [exact Hc|]. simpl. intros p [Hin _]%elem_of_difference. by apply Hp.
  - by split.
Qed.

(** X6. Whatever the environment holds and whatever is typed into the four
    registry commands, in any number and order, the watch tables never hold
    an empty clan name or player id, clan names are stored in lower case
    without white space around them, and lower-casing the listing again,
    as the clan watcher does, changes nothing. *)
Theorem registry_stays_clean (ops : list RegistryOp) :
  let d := fold_left run_op ops empty_db in
  registry_clean d
  ∧ ("" ∉ get_watch_clans d)
  ∧ ("" ∉ get_watch_players d)
  ∧ set_map lower (get_watch_clans d) = get_watch_clans d.
Proof.
  intros d.
  assert (Hclean : registry_clean d).
  { subst d. assert (H0 : registry_clean empty_db) by (split; intros x Hx; set_solver).
    revert H0. generalize empty_db. induction ops as [|op ops IH]; intros d0 H0; simpl;
      [exact H0|]. by apply IH, run_op_clean. }
  split; [exact Hclean|]. destruct Hclean as [Hc Hp].
  split; [intros H; by destruct (Hc _ H)|].
  split; [intros H; by destruct (Hp _ H)|].
  apply set_eq. intros n. rewrite elem_of_map. unfold get_watch_clans. split.
  - intros (m & -> & Hm). destruct (Hc _ Hm) as (_ & -> & _). exact Hm.
  - intros Hn. exists n. destruct (Hc _ Hn) as (_ & -> & _). by split.
Qed.

End StartupFacts.

(** ** Slash commands *)

Module CommandFacts.

Import PyStr Storage Watchers Commands StripFacts StartupFacts.

Lemma all_digits_spec s :
  all_digits s = true ↔ ∀ c, occurs c s = true → is_digit_char c = true.
Proof.
  induction s as [|a rest IH]; simpl; [by split|].
  rewrite andb_true_iff, IH. split.
  - intros [Ha Hrest] c [Hc | Hc]%orb_true_iff; [|by apply Hrest].
    by apply Ascii.eqb_eq in Hc as <-.
  - intros H. split; [apply H; by rewrite Ascii.eqb_refl|].
    intros c Hc. apply H. rewrite Hc. apply orb_true_r.
Qed.

Lemma digit_not_space c : is_digit_char c = true → isspace c = false.
Proof. destruct c as [[] [] [] [] [] [] [] []]; vm_compute; congruence. Qed.

Lemma digit_lower c : is_digit_char c = true → lower_char c = c.
Proof. destruct c as [[] [] [] [] [] [] [] []]; vm_compute; congruence. Qed.

Lemma rstrip_no_space s :
  (∀ c, occurs c s = true → isspace c = false) → rstrip s = s.
Proof.
  induction s as [|a rest IH]; intros H; simpl; [reflexivity|].
  rewrite IH by (intros c Hc; apply H; simpl; rewrite Hc; apply orb_true_r).
  destruct rest; [|reflexivity].
  rewrite (H a); [reflexivity|]. simpl. by rewrite Ascii.eqb_refl.
Qed.

Lemma digits_stripped s : all_digits s = true → strip s = s ∧ lower s = s.
Proof.
  rewrite all_digits_spec. intros H. split.
  - unfold strip.
    assert (Hl : lstrip s = s).
    { apply lstrip_head. destruct s as [|a rest]; [exact I|].
      apply digit_not_space, H. simpl. by rewrite Ascii.eqb_refl. }
    rewrite Hl. apply rstrip_no_space. intros c Hc. by apply digit_not_space, H.
  - induction s as [|a rest IH]; simpl; [reflexivity|].
    rewrite digit_lower by (apply H; simpl; by rewrite Ascii.eqb_refl).
    rewrite IH; [reflexivity|]. intros c Hc. apply H. simpl. rewrite Hc. apply orb_true_r.
Qed.

Lemma valid_spec s :
  _is_valid_steam_id s = true
  ↔ String.length (strip s) = 17%nat ∧ all_digits (strip s) = true.
Proof.
  unfold _is_valid_steam_id, isdigit. rewrite !andb_true_iff, Nat.eqb_eq. split.
  - tauto.
  - intros [Hlen Hd]. split; [split; [|exact Hd] | exact Hlen].
    destruct (strip s); [discriminate | reflexivity].
Qed.

Lemma valid_strip s : _is_valid_steam_id (strip s) = _is_valid_steam_id s.
Proof. unfold _is_valid_steam_id. by rewrite strip_idem. Qed.

(** X7. [_is_valid_steam_id] gives the same verdict on a text and on the
    text with the white space around it removed, which is what the callers
    pass; it accepts every text that, once stripped, consists of 17 of the
    digits 0-9; and a text that it accepts is, once stripped, 17 characters
    long, has no white space inside and is left as it is by [lower]. *)
Theorem steam_id_check (s : string) :
  _is_valid_steam_id (strip s) = _is_valid_steam_id s
  ∧ (String.length (strip s) = 17%nat →
     (∀ c, occurs c (strip s) = true → is_digit_char c = true) →
     _is_valid_steam_id s = true)
  ∧ (_is_valid_steam_id s = true →
     String.length (strip s) = 17%nat
     ∧ (∀ c, occurs c (strip s) = true → isspace c = false)
     ∧ lower (strip s) = strip s).
Proof.
  split; [apply valid_strip|]. split.
  - intros Hlen Hd. apply valid_spec. split; [exact Hlen | by apply all_digits_spec].
  - intros [Hlen Hd]%valid_spec. split; [exact Hlen|].
    split; [|by apply digits_stripped].
    intros c Hc. apply digit_not_space. by apply all_digits_spec in Hc.
Qed.

(** X8. [/link] with an id that passes the check stores the stripped id for
    the user, replacing what was linked before, and leaves the other users
    as they were; with any other text it leaves the table as it was.  So a
    table that holds valid ids only keeps holding valid ids only. *)
Theorem link_command_links_valid_ids (user_id : Z) (steam_id : string)
    (links : gmap Z string)
    (Hvalid : ∀ u linked, Links.get_linked_steam_id u links = Some linked →
                _is_valid_steam_id linked = true) :
  let out := link_command user_id steam_id links in
  (∀ u linked, Links.get_linked_steam_id u out.2 = Some linked →
     _is_valid_steam_id linked = true)
  ∧ (_is_valid_steam_id steam_id = true →
     out.1 = Linked (strip steam_id)
     ∧ Links.get_linked_steam_id user_id out.2 = Some (strip steam_id))
  ∧ (_is_valid_steam_id steam_id = false → out = (InvalidSteamId, links))
  ∧ (∀ u, u ≠ user_id →
     Links.get_linked_steam_id u out.2 = Links.get_linked_steam_id u links).
Proof.
  intros out. subst out. unfold link_command. rewrite valid_strip.
  unfold Links.get_linked_steam_id, Links.link_user in *.
  destruct (_is_valid_steam_id steam_id) eqn:E; simpl.
  - split; [|split; [|split]].
    + intros u linked [[_ <-] | [_ H]]%lookup_insert_Some; [|by eapply Hvalid].
      by rewrite valid_strip.
    + intros _. by rewrite lookup_insert_eq.
    + discriminate.
    + intros u Hu. by rewrite lookup_insert_ne.
  - split; [exact Hvalid|]. split; [discriminate|]. by split.
Qed.

(** X9. [/trackplayer] changes nothing but the player table, and that only
    when it answers "now tracking": then the argument is not blank, its
    stripped text passes the id check, was not yet watched, and is the one id
    added.  Asked a second time with the same argument it answers "already
    tracked" and changes nothing. *)
Theorem track_player_command_outcomes (steam_id : option string) (d : Database) :
  let out := track_player_command steam_id d in
  clan_metric_history out.2 = clan_metric_history d
  ∧ get_watch_clans out.2 = get_watch_clans d
  ∧ match out.1 with
    | Added id =>
        (∃ text, steam_id = Some text ∧ id = strip text)
        ∧ _is_valid_steam_id id = true
        ∧ (id ∉ get_watch_players d)
        ∧ get_watch_players out.2 = {[ id ]} ∪ get_watch_players d
        ∧ track_player_command steam_id out.2 = (AlreadyTracked id, out.2)
    | AlreadyTracked id => id ∈ get_watch_players d ∧ out.2 = d
    | Usage => blank steam_id = true ∧ out.2 = d
    | InvalidSteamId => out.2 = d
    | _ => False
    end.
Proof.
  intros out. subst out. unfold track_player_command.
  destruct (blank steam_id) eqn:Hblank; [by repeat split|].
  apply blank_false in Hblank as Htext. destruct Htext as (text & -> & _ & Hne). simpl.
  destruct (_is_valid_steam_id (strip text)) eqn:Hv; simpl; [|by repeat split].
  destruct (bool_decide (strip text ∈ get_watch_players d)) eqn:Hin; simpl.
  - apply bool_decide_eq_true in Hin. by repeat split.
  - apply bool_decide_eq_false in Hin.
    apply PyStrFacts.truthy_true in Hne as Ht.
    unfold add_watch_player. rewrite Ht. simpl.
    split; [reflexivity|]. split; [reflexivity|].
    split; [by exists text|]. split; [exact Hv|]. split; [exact Hin|].
    split; [reflexivity|].
    rewrite bool_decide_eq_true_2; [reflexivity|]. set_solver.
Qed.

(** X10. [/untrackplayer] with a non-blank argument removes the stripped
    text from the player table without checking it, so that ids seeded from
    the environment can be dropped too, and answers the same whether or not
    the id was watched; undoing a [/trackplayer] that added an id gives back
    the player table as it was. *)
Theorem untrack_player_command_removes (text : string) (d : Database)
    (Hgiven : blank (Some text) = false) :
  let out := untrack_player_command (Some text) d in
  out.1 = Removed (strip text)
  ∧ get_watch_players out.2 = get_watch_players d ∖ {[ strip text ]}
  ∧ get_watch_clans out.2 = get_watch_clans d
  ∧ clan_metric_history out.2 = clan_metric_history d
  ∧ ((track_player_command (Some text) d).1 = Added (strip text) →
     get_watch_players
       (untrack_player_command (Some text) (track_player_command (Some text) d).2).2
     = get_watch_players d).
Proof.
  intros out. subst out.
  apply blank_false in Hgiven as Htext. destruct Htext as (? & [= <-] & _ & Hne).
  apply PyStrFacts.truthy_true in Hne as Ht.
  unfold untrack_player_command, track_player_command. rewrite Hgiven. simpl.
  unfold remove_watch_player, add_watch_player. rewrite Ht. simpl.
  repeat split.
  destruct (negb _); [discriminate|].
  destruct (bool_decide _) eqn:Hin; [discriminate|]. intros _. simpl.
  apply bool_decide_eq_false in Hin. unfold get_watch_players in *. simpl.
  apply set_eq. intros y. rewrite elem_of_difference, elem_of_union, elem_of_singleton.
  split; [intros [[-> | H] Hn]; [by destruct Hn | exact H]|].
  intros H. split; [by right | by intros ->].
Qed.

(** X11. [/track] and [/untrack] tell clan names apart only up to letter
    case and surrounding white space: two arguments that agree up to these
    leave the same registry, the stored name is the lower-cased stripped
    text, and [/untrack] with one of them removes what [/track] with the
    other added. *)
Theorem track_untrack_variants (a b : string) (d : Database)
    (Hgiven : blank (Some a) = false)
    (Hsame : lower (strip a) = lower (strip b)) :
  blank (Some b) = false
  ∧ (track_command (Some a) d).2 = (track_command (Some b) d).2
  ∧ (untrack_command (Some a) d).2 = (untrack_command (Some b) d).2
  ∧ get_watch_clans (track_command (Some a) d).2
    = {[ lower (strip a) ]} ∪ get_watch_clans d
  ∧ get_watch_clans (untrack_command (Some b) (track_command (Some a) d).2).2
    = get_watch_clans d ∖ {[ lower (strip a) ]}
  ∧ get_watch_players (untrack_command (Some b) (track_command (Some a) d).2).2
    = get_watch_players d.
Proof.
  apply blank_false in Hgiven as Htext. destruct Htext as (? & [= <-] & _ & Hne).
  assert (Hnb : strip b ≠ "").
  { intros Hb. rewrite Hb in Hsame. simpl in Hsame. by destruct (strip a). }
  assert (Hb : blank (Some b) = false).
  { simpl. apply PyStrFacts.truthy_true in Hnb as Htb. rewrite Htb.
    destruct b; [exfalso; by apply Hnb | reflexivity]. }
  apply PyStrFacts.truthy_true in Hne as Hta. apply PyStrFacts.truthy_true in Hnb as Htb.
  unfold track_command, untrack_command. rewrite Hgiven, Hb. simpl.
  unfold add_watch_clan, remove_watch_clan. rewrite Hta, Htb, <- Hsame. simpl.
  repeat split. unfold get_watch_clans. simpl.
  apply set_eq. intros y. rewrite !elem_of_difference, elem_of_union. tauto.
Qed.

(** X12. [/toggle] flips the tracking flag and reports the new value; it
    touches neither the caches nor the store; toggling twice restores the
    state, and after [n] toggles of a process that just started, tracking is
    on exactly when [n] is odd. *)
Theorem toggle_flips (st : State) (d : Database) (n : nat) :
  let out := toggle_tracking_command st in
  out.1 = TrackingNow (negb (is_tracking_enabled st))
  ∧ is_tracking_enabled out.2 = negb (is_tracking_enabled st)
  ∧ set_tracking_enabled (is_tracking_enabled st) out.2 = st
  ∧ (toggle_tracking_command out.2).2 = st
  ∧ is_tracking_enabled
      (Nat.iter n (fun s => (toggle_tracking_command s).2) (initial_state d))
    = Nat.odd n.
Proof.
  intros out. subst out. destruct st as [c p m t db tr]. simpl.
  unfold set_tracking_enabled, is_tracking_enabled. simpl.
  rewrite negb_involutive. repeat split.
  induction n as [|n IH]; [reflexivity|].
  rewrite Nat.odd_succ, <- Nat.negb_odd. simpl.
  unfold is_tracking_enabled in IH. by rewrite IH.
Qed.

Definition deletable (keep : gset Z) (delete_ok : ChatMessage → bool)
      (message : ChatMessage) : bool :=
    negb (bool_decide (message_id_of message ∈ keep))
    && negb (pinned message) && delete_ok message.

Lemma clear_fold keep delete_ok history deleted :
  fold_left (clear_step keep delete_ok) history deleted
  = deleted ++ List.filter (deletable keep delete_ok) history.
Proof.
  revert deleted. induction history as [|m history IH]; intros deleted; simpl;
    [by rewrite app_nil_r|].
  rewrite IH. unfold clear_step, deletable.
  destruct (bool_decide _); simpl; [reflexivity|].
  destruct (pinned m); simpl; [reflexivity|].
  destruct (delete_ok m); simpl; [by rewrite <- app_assoc | reflexivity].
Qed.

(** X13. [/clear] in a text channel deletes, among the 200 most recent
    messages and in their order, exactly those that are not pinned, do not
    carry one of the configured message ids (an id of 0 counts as not
    configured) and whose deletion goes through; it reports their number;
    older messages do not matter; outside a text channel nothing is
    deleted. *)
Theorem clear_command_deletes (ids : PersistentIds) (delete_ok : ChatMessage → bool)
    (history : list ChatMessage) :
  let out := clear_command ids true delete_ok history in
  out.2 = List.filter (deletable (keep_ids ids) delete_ok) (take 200 history)
  ∧ out.1 = Cleared (length out.2)
  ∧ (∀ m, In m out.2 →
       pinned m = false ∧ delete_ok m = true ∧ In m (take 200 history)
       ∧ (message_id_of m = 0%Z
          ∨ (message_id_of m ≠ message_id ids
             ∧ trend_message_id ids ≠ Some (message_id_of m)
             ∧ help_message_id ids ≠ Some (message_id_of m)
             ∧ status_message_id ids ≠ Some (message_id_of m))))
  ∧ ((200 ≤ length history)%nat →
     ∀ older, clear_command ids true delete_ok (history ++ older)
              = clear_command ids true delete_ok history)
  ∧ clear_command ids false delete_ok history = (NotTextChannel, []).
Proof.
  intros out. subst out. unfold clear_command. simpl. rewrite clear_fold. simpl.
  split; [reflexivity|]. split; [reflexivity|]. split; [|split; [|reflexivity]].
  - intros m [Hin Hdel]%filter_In. unfold deletable in Hdel.
    apply andb_true_iff in Hdel as [[Hkeep Hpin]%andb_true_iff Hok].
    apply negb_true_iff in Hkeep, Hpin. apply bool_decide_eq_false in Hkeep.
    split; [exact Hpin|]. split; [exact Hok|]. split; [exact Hin|].
    destruct (Z.eq_dec (message_id_of m) 0%Z) as [Hz | Hz]; [by left | right].
    assert (Hkept : ∀ x, In (Some x) [ Some (message_id ids); trend_message_id ids;
                                        help_message_id ids; status_message_id ids ] →
                         x ≠ message_id_of m).
    { intros x Hx ->. apply Hkeep. unfold keep_ids.
      apply elem_of_list_to_set, list_elem_of_In, filter_In. split.
      - apply list_elem_of_In, list_elem_of_omap. exists (Some (message_id_of m)).
        split; [by apply list_elem_of_In | reflexivity].
      - apply negb_true_iff, Z.eqb_neq, Hz. }
    repeat split.
    + intros Heq. apply (Hkept (message_id ids)); [by left | done].
    + intros Heq. apply (Hkept (message_id_of m)); [|done]. rewrite <- Heq. simpl. tauto.
    + intros Heq. apply (Hkept (message_id_of m)); [|done]. rewrite <- Heq. simpl. tauto.
    + intros Heq. apply (Hkept (message_id_of m)); [|done]. rewrite <- Heq. simpl. tauto.
  - intros Hlen older. rewrite ?clear_fold, take_app_le by exact Hlen.
    by rewrite ?clear_fold.
Qed.

End CommandFacts.

(** ** Row helpers and the metric table *)

Module RowFacts.

Import PyStr Leaderboard RustinityClient RowHelpers.

(** The row's name is the asked name up to letter case; a row without a
    name counts as named by the empty text. *)
Definition matches (clan_name : string) (row : Row) : Prop :=
    name_lower row = lower clan_name.

Lemma find_first {A} (f : A → bool) (l : list A) :
  match find f l with
  | Some x => ∃ before after, l = before ++ x :: after ∧ f x = true
                ∧ List.Forall (fun y => f y = false) before
  | None => List.Forall (fun y => f y = false) l
  end.
Proof.
  induction l as [|y l IH]; simpl; [constructor|].
  destruct (f y) eqn:E; [by exists [], l|].
  destruct (find f l) as [x|]; [|by constructor].
  destruct IH as (before & after & -> & Hx & Hb).
  exists (y :: before), after. repeat split; [exact Hx | by constructor].
Qed.

Lemma matches_eqb clan_name row :
  String.eqb (name_lower row) (lower clan_name) = false ↔ ¬ matches clan_name row.
Proof. unfold matches. by rewrite String.eqb_neq. Qed.

(** X14. [find_clan_in_rows] returns the first row whose name is the asked
    name up to letter case, and nothing exactly when no row has such a name;
    the letter case of the asked name does not matter. *)
Theorem find_clan_in_rows_first (rows : list Row) (clan_name : string) :
  match find_clan_in_rows rows clan_name with
  | Some row => ∃ before after, rows = before ++ row :: after ∧ matches clan_name row
                  ∧ List.Forall (fun r => ¬ matches clan_name r) before
  | None => List.Forall (fun r => ¬ matches clan_name r) rows
  end
  ∧ ∀ other, lower other = lower clan_name →
      find_clan_in_rows rows other = find_clan_in_rows rows clan_name.
Proof.
  split; [|intros other Heq; unfold find_clan_in_rows; by rewrite Heq].
  unfold find_clan_in_rows.
  pose proof (find_first (fun row => String.eqb (name_lower row) (lower clan_name)) rows)
    as H.
  destruct (find _ rows) as [row|].
  - destruct H as (before & after & -> & Hrow & Hb). exists before, after.
    split; [reflexivity|]. split; [by apply String.eqb_eq in Hrow|].
    eapply List.Forall_impl; [|exact Hb]. intros r. apply matches_eqb.
  - eapply List.Forall_impl; [|exact H]. intros r. apply matches_eqb.
Qed.

(** X15. The first component of [get_clan_and_next] is what
    [find_clan_in_rows] returns; the second is the row that follows it in the
    list, and nothing when the clan is last or not found. *)
Theorem get_clan_and_next_neighbours (rows : list Row) (clan_name : string) :
  (get_clan_and_next rows clan_name).1 = find_clan_in_rows rows clan_name
  ∧ match get_clan_and_next rows clan_name with
    | (Some row, next) =>
        ∃ before after, rows = before ++ row :: after
          ∧ List.Forall (fun r => ¬ matches clan_name r) before
          ∧ matches clan_name row
          ∧ next = head after
    | (None, next) => next = None
    end.
Proof.
  unfold find_clan_in_rows. induction rows as [|row rows [IH1 IH2]]; simpl; [by split|].
  destruct (String.eqb (name_lower row) (lower clan_name)) eqn:E.
  - split; [reflexivity|]. exists [], rows. repeat split; [constructor|].
    by apply String.eqb_eq in E.
  - split; [exact IH1|].
    destruct (get_clan_and_next rows clan_name) as [[found|] next]; [|exact IH2].
    destruct IH2 as (before & after & -> & Hb & Hrow & Hnext).
    exists (row :: before), after. repeat split; [|exact Hrow | exact Hnext].
    constructor; [by apply matches_eqb | exact Hb].
Qed.

Lemma NoDup_map_inj {A B} (f : A → B) (l : list A) x y :
  List.NoDup (map f l) → In x l → In y l → f x = f y → x = y.
Proof.
  induction l as [|a l IH]; simpl; [tauto|].
  intros Hnd. apply List.NoDup_cons_iff in Hnd as [Ha Hnd].
  intros [-> | Hx] [-> | Hy] Heq; auto.
  - exfalso. apply Ha. rewrite Heq. by apply in_map.
  - exfalso. apply Ha. rewrite <- Heq. by apply in_map.
Qed.

(** The clan-leaderboard request a metric key stands for. *)
Definition request_of (metric_key : string) : option Request :=
    (fun cfg => mkRequest ClanBoard (group cfg) (sortBy cfg) 50) <$> METRICS !! metric_key.

Lemma METRICS_keys_NoDup : List.NoDup (map fst METRICS_items).
Proof. apply NoDup_ListNoDup. apply (bool_decide_unpack _). vm_compute. exact I. Qed.

Lemma METRICS_requests_NoDup :
  List.NoDup (map (fun item => (group item.2, sortBy item.2)) METRICS_items).
Proof. apply NoDup_ListNoDup. apply (bool_decide_unpack _). vm_compute. exact I. Qed.

Lemma METRICS_size : size METRICS = 107%nat.
Proof. vm_compute. reflexivity. Qed.

Lemma METRICS_lookup_In k cfg : METRICS !! k = Some cfg → In (k, cfg) METRICS_items.
Proof. unfold METRICS. intros H. by apply list_elem_of_In, elem_of_list_to_map_2. Qed.

#[local] Opaque METRICS.

(** X16. The table [METRICS] defines 107 metrics, no key twice;
    [fetch_leaderboard_for_metric] raises for a key that is not defined and
    otherwise sends the one request of the key, and two defined keys with the
    same request are the same key: no leaderboard is fetched under two
    names. *)
Theorem metric_requests_distinct (http : Request → HttpOutcome) (k1 k2 : string) :
  size METRICS = 107%nat
  ∧ fetch_leaderboard_for_metric http k1
    = match request_of k1 with
      | None => Raised
      | Some request => wrap_http (http request)
      end
  ∧ (is_Some (METRICS !! k1) → request_of k1 = request_of k2 → k1 = k2).
Proof.
  split; [exact METRICS_size|]. split.
  - unfold fetch_leaderboard_for_metric, request_of.
    destruct (METRICS !! k1); reflexivity.
  - unfold request_of. intros [c1 H1]. rewrite H1.
    destruct (METRICS !! k2) as [c2|] eqn:H2; [|discriminate].
    intros [= Hg Hs]. apply METRICS_lookup_In in H1, H2.
    assert (Heq : (k1, c1) = (k2, c2)).
    { apply (NoDup_map_inj (fun item => (group item.2, sortBy item.2)) METRICS_items);
        [exact METRICS_requests_NoDup | exact H1 | exact H2|].
      cbn [snd]. by rewrite Hg, Hs. }
    by injection Heq.
Qed.

End RowFacts.

(** ** Status view *)

Module StatusFacts.

Import PyStr Storage Watchers StatusEmbed Commands.

(** Names in ascending order of code points. *)
Definition ascending (names : list string) : Prop := StronglySorted String.le names.

Lemma insert_sorted_perm x l : insert_sorted x l ≡ₚ x :: l.
Proof.
  induction l as [|y l IH]; simpl; [done|].
  destruct (String.leb x y); [done|]. rewrite IH. apply perm_swap.
Qed.

Lemma py_sorted_perm l : py_sorted l ≡ₚ l.
Proof. induction l as [|x l IH]; simpl; [done|]. by rewrite insert_sorted_perm, IH. Qed.

Lemma insert_sorted_ascending x l : ascending l → ascending (insert_sorted x l).
Proof.
  unfold ascending. induction 1 as [|y l Hl IH Hall]; simpl; [repeat constructor|].
  destruct (String.leb x y) eqn:E.
  - assert (Hxy : String.le x y) by (unfold String.le; by rewrite E).
    constructor; [by constructor|]. constructor; [exact Hxy|].
    eapply List.Forall_impl; [|exact Hall]. intros z Hz. by etrans.
  - assert (Hyx : String.le y x).
    { destruct (String.leb_total x y) as [H | H]; [congruence|].
      unfold String.le. by rewrite H. }
    constructor; [exact IH|]. rewrite insert_sorted_perm. by constructor.
Qed.

Lemma py_sorted_ascending l : ascending (py_sorted l).
Proof.
  induction l as [|x l IH]; simpl; [constructor | by apply insert_sorted_ascending].
Qed.

Lemma status_lists_each_name_once_aux tracking (watched : list string) :
  let view := build_status_embed tracking watched in
  (NoDup watched → total_watched view = length watched)
  ∧ (watched_list view = None ↔ watched = [])
  ∧ (∀ names, watched_list view = Some names → ∀ n, n ∈ names ↔ n ∈ watched).
Proof.
  simpl. split; [|split].
  - intros Hnd. apply Permutation_length, NoDup_Permutation;
      [apply NoDup_remove_dups | exact Hnd | apply elem_of_remove_dups].
  - by destruct watched.
  - intros names Hnames n.
    assert (names = py_sorted (remove_dups watched)) as ->
      by (destruct watched; [discriminate | by injection Hnames]).
    by rewrite py_sorted_perm, elem_of_remove_dups.
Qed.

(** X17. The status view lists every watched name once, in ascending order,
    and counts the distinct names; it shows the "none monitored" line exactly
    for an empty collection; neither the order of the collection nor a name
    given twice changes the view. *)
Theorem status_lists_each_name_once (tracking : bool) (watched : list string) :
  let view := build_status_embed tracking watched in
  tracking_on view = tracking
  ∧ (watched_list view = None ↔ watched = [])
  ∧ (∀ names, watched_list view = Some names →
       ascending names ∧ NoDup names ∧ (∀ n, n ∈ names ↔ n ∈ watched)
       ∧ total_watched view = length names)
  ∧ (∀ other, (∀ n, n ∈ other ↔ n ∈ watched) →
       build_status_embed tracking other = view).
Proof.
  intros view. subst view. split; [reflexivity|].
  split; [by destruct watched|]. split.
  - intros names Hnames. simpl in *.
    assert (names = py_sorted (remove_dups watched)) as ->
      by (destruct watched; [discriminate | by injection Hnames]).
    split; [apply py_sorted_ascending|].
    split; [rewrite py_sorted_perm; apply NoDup_remove_dups|].
    split; [intros n; by rewrite py_sorted_perm, elem_of_remove_dups|].
    by rewrite py_sorted_perm.
  - intros other Hsame.
    assert (Hperm : remove_dups other ≡ₚ remove_dups watched).
    { apply NoDup_Permutation; [apply NoDup_remove_dups | apply NoDup_remove_dups|].
      intros n. by rewrite !elem_of_remove_dups. }
    assert (Hsorted : py_sorted (remove_dups other) = py_sorted (remove_dups watched)).
    { apply (StronglySorted_unique String.le);
        [apply py_sorted_ascending | apply py_sorted_ascending|].
      by rewrite !py_sorted_perm. }
    unfold build_status_embed. rewrite Hsorted, Hperm. f_equal.
    destruct other as [|o other], watched as [|x watched]; try reflexivity.
    + exfalso. eapply not_elem_of_nil, Hsame. by left.
    + exfalso. eapply not_elem_of_nil, Hsame. by left.
Qed.

(** X18. [/status] shows the tracking flag and the watch registry as they
    are: as many names as the registry holds, the same names, the "none
    monitored" line exactly for an empty registry; after [/toggle] it shows
    the other flag and the same names. *)
Theorem status_command_reports_registry (st : State) :
  let view := status_command st in
  tracking_on view = is_tracking_enabled st
  ∧ total_watched view = size (get_watch_clans (db st))
  ∧ (watched_list view = None ↔ get_watch_clans (db st) = ∅)
  ∧ (∀ names, watched_list view = Some names →
       ∀ n, n ∈ names ↔ n ∈ get_watch_clans (db st))
  ∧ tracking_on (status_command (toggle_tracking_command st).2) = negb (tracking_on view)
  ∧ watched_list (status_command (toggle_tracking_command st).2) = watched_list view.
Proof.
  intros view. subst view. unfold status_command.
  destruct (status_lists_each_name_once_aux (is_tracking_enabled st)
              (elements (get_watch_clans (db st)))) as (Hlen & Hnone & Hnames).
  split; [reflexivity|]. split; [apply Hlen, NoDup_elements|]. split.
  - rewrite Hnone. split; [|intros ->; apply elements_empty].
    intros H. apply leibniz_equiv. by apply elements_empty_inv.
  - split; [|by destruct st].
    intros names Hn n. rewrite (Hnames names Hn). apply elem_of_elements.
Qed.

End StatusFacts.

(** ** Trend view: which fields, which lines *)

Module TrendFacts.

Import Storage RustinityClient Watchers Embeds EmbedsFacts.




#[local] Opaque METRICS.









End TrendFacts.

(** ** Windowed changes: first and last value *)

Module WindowFacts.

Import Storage StorageFacts.

(** The bounds of a clan's group, if it has one. *)
Definition bounds_of (groups : list (string * (Z * Z))) (clan : string) : option (Z * Z) :=
    snd <$> find (fun g => String.eqb g.1 clan) groups.

Lemma bounds_of_upsert clan t groups c :
  bounds_of (group_upsert clan t groups) c
  = if String.eqb c clan
    then Some (match bounds_of groups clan with
               | Some (lo, hi) => (Z.min lo t, Z.max hi t)
               | None => (t, t)
               end)
    else bounds_of groups c.
Proof.
  unfold bounds_of. induction groups as [|[c' [lo' hi']] rest IH]; simpl.
  - rewrite (String.eqb_sym clan c). by destruct (String.eqb c clan).
  - destruct (String.eqb c' clan) eqn:E; simpl.
    + apply String.eqb_eq in E as ->. rewrite (String.eqb_sym clan c).
      by destruct (String.eqb c clan).
    + destruct (String.eqb c' c) eqn:E'; simpl; [|exact IH].
      apply String.eqb_eq in E' as ->.
      by rewrite String.eqb_sym, E in *.
Qed.

Lemma In_bounds_of groups c lo hi :
  List.NoDup (map fst groups) → In (c, (lo, hi)) groups →
  bounds_of groups c = Some (lo, hi).
Proof.
  unfold bounds_of. induction groups as [|[c' b'] rest IH]; simpl; [tauto|].
  intros Hnd. apply List.NoDup_cons_iff in Hnd as [Hfresh Hnd].
  intros [[= -> ->] | Hin]; [by rewrite String.eqb_refl|].
  destruct (String.eqb c' c) eqn:E; [|by apply IH].
  apply String.eqb_eq in E as ->. exfalso. apply Hfresh.
  by apply (in_map fst _ (c, (lo, hi))).
Qed.

(** The bounds of every group enclose the timestamps of the clan's rows
    among [seen], and a clan without a group has no row among them. *)
Definition encloses (seen : list Snapshot) (groups : list (string * (Z * Z))) : Prop :=
    ∀ c, match bounds_of groups c with
         | Some (lo, hi) => ∀ s, In s seen → clan_name s = c → (lo <= ts s <= hi)%Z
         | None => ∀ s, In s seen → clan_name s ≠ c
         end.

Lemma group_upsert_encloses seen s groups :
  encloses seen groups →
  encloses (s :: seen) (group_upsert (clan_name s) (ts s) groups).
Proof.
  intros H c. rewrite bounds_of_upsert. pose proof (H c) as Hc.
  destruct (String.eqb c (clan_name s)) eqn:E.
  - apply String.eqb_eq in E as <-.
    destruct (bounds_of groups c) as [[lo hi]|]; intros x [<- | Hx] Hxc; try lia.
    + pose proof (Hc x Hx Hxc). lia.
    + by destruct (Hc x Hx).
  - apply String.eqb_neq in E.
    destruct (bounds_of groups c) as [[lo hi]|]; intros x [<- | Hx]; auto.
    intros Heq. by destruct E.
Qed.

Lemma group_fold_encloses selected :
  ∀ seen groups, encloses seen groups →
    ∀ seen', (∀ s, In s seen' → In s seen ∨ In s selected) →
      encloses seen' (fold_left (fun g s => group_upsert (clan_name s) (ts s) g)
                                selected groups).
Proof.
  induction selected as [|s selected IH]; intros seen groups H seen' Hsub; simpl.
  - intros c. pose proof (H c) as Hc.
    destruct (bounds_of groups c) as [[lo hi]|]; intros x Hx;
      destruct (Hsub x Hx) as [Hin | []]; by apply Hc.
  - apply (IH (s :: seen)); [by apply group_upsert_encloses|].
    intros x Hx. destruct (Hsub x Hx) as [Hin | [-> | Hin]]; simpl; auto.
Qed.

(** X22. For every clan in the result of [get_clan_metric_changes], the
    start value is read from a snapshot of the metric and clan with the
    earliest timestamp at or after the cutoff, the end value and the rank from
    one with the latest: every other such snapshot lies between the two. *)
Theorem changes_span_the_window (now hours : Z) (metric : string) (d : Database)
    (clan : string) (info : Change)
    (Hin : In (clan, info) (get_clan_metric_changes now metric hours d)) :
  let selected s :=
    In s (clan_metric_history d) ∧ metric_key s = metric ∧ clan_name s = clan
    ∧ (now - hours * 3600 <= ts s)%Z in
  ∃ first last, selected first ∧ selected last
    ∧ (∀ s, selected s → (ts first <= ts s <= ts last)%Z)
    ∧ start_val info = default 0%Q (value first)
    ∧ end_val info = default 0%Q (value last)
    ∧ latest_rank info = default 0%Z (rank last).
Proof.
  intros selected.
  set (window := List.filter (in_window metric (now - hours * 3600))
                             (clan_metric_history d)).
  assert (Hsel : ∀ s, In s window
                      ↔ In s (clan_metric_history d) ∧ metric_key s = metric
                        ∧ (now - hours * 3600 <= ts s)%Z).
  { intros s. unfold window, in_window.
    by rewrite filter_In, andb_true_iff, String.eqb_eq, Z.leb_le. }
  assert (Hnd : List.NoDup (map fst (group_by_clan window))).
  { unfold window. rewrite <- changes_keys. apply changes_keys_NoDup. }
  unfold get_clan_metric_changes in Hin. fold window in Hin.
  apply in_map_iff in Hin as ([c [lo hi]] & [= <- <-] & Hg).
  destruct (group_fold_bounds (fun s => In s window) window []
              (fun s Hs => Hs) (fun _ _ _ (H : In _ []) => match H with end)
              c lo hi Hg)
    as [(a & Ha & Hca & Hta) (b & Hb & Hcb & Htb)].
  assert (Hcover : ∀ s, In s window → clan_name s = c → (lo <= ts s <= hi)%Z).
  { pose proof (group_fold_encloses window [] [] (fun _ _ (H : In _ []) => match H with end)
                  window (fun s Hs => or_intror Hs) c) as H.
    unfold group_by_clan in Hnd, Hg. by rewrite (In_bounds_of _ _ _ _ Hnd Hg) in H. }
  assert (Hfind : ∀ x t, In x window → clan_name x = c → ts x = t →
            ∃ y, row_at metric c t d = Some y ∧ selected y ∧ ts y = t).
  { intros x t Hx Hcx Htx. apply Hsel in Hx as (Hx & Hmx & Hlo). unfold row_at.
    destruct (find_exists
                (fun s => String.eqb (metric_key s) metric
                          && String.eqb (clan_name s) c && (ts s =? t)%Z)
                (clan_metric_history d) x Hx) as (y & Hy & Hyin & Hyf).
    { rewrite !andb_true_iff, !String.eqb_eq, Z.eqb_eq. auto. }
    exists y. split; [exact Hy|].
    rewrite !andb_true_iff, !String.eqb_eq, Z.eqb_eq in Hyf.
    destruct Hyf as [[Hym Hyc] Hyt]. unfold selected. rewrite Hyt. repeat split; auto. lia. }
  destruct (Hfind a lo Ha Hca Hta) as (s1 & E1 & R1 & T1).
  destruct (Hfind b hi Hb Hcb Htb) as (s2 & E2 & R2 & T2).
  exists s1, s2. rewrite E1, E2, T1, T2. simpl.
  split; [exact R1|]. split; [exact R2|]. split; [|auto].
  intros s (Hs & Hm & Hc & Hlo). apply Hcover; [|exact Hc]. apply Hsel. auto.
Qed.

End WindowFacts.

(** ** The poll cycle: what it changes, and for which metric *)

Module PollFacts.

Import Leaderboard RustinityClient Watchers DeltaFacts TraceFacts CycleFacts ClockFacts.
Import ReplayFacts.

#[local] Opaque METRICS.

(** X23. The effects of a poll cycle (with no command running in between)
    account for the state it leaves, whether it returns or is left by an
    exception: the state is the one before with the cache writes and
    snapshots of the trace applied in order, the history grows by the
    snapshots of the trace, and the tracking flag and the two watch tables
    are as before.  The alert count of a cycle that returns is the number of
    sends that went through. *)
Theorem cycle_effects_account_for_state (w : World) (cfg : Config.Settings)
    (order : list string) (st : State) :
  let out := post_walobots_update w cfg order st in
  let st' := cycle_state out in
  let evs := events_since st st' in
  st' = replay evs st
  ∧ (∀ s cy, out = Done (s, cy) → alert_count cy = successes evs)
  ∧ is_tracking_enabled st' = is_tracking_enabled st
  ∧ Storage.get_watch_clans (db st') = Storage.get_watch_clans (db st)
  ∧ Storage.get_watch_players (db st') = Storage.get_watch_players (db st)
  ∧ Storage.clan_metric_history (db st')
    = Storage.clan_metric_history (db st) ++ snapshots evs.
Proof.
  intros out st' evs. destruct (cycle_events w cfg order st) as (Hst & Hn & _).
  fold out in Hst, Hn. fold st' in Hst, Hn. fold evs in Hst, Hn.
  split; [exact Hst|]. split; [exact Hn|].
  unfold is_tracking_enabled, Storage.get_watch_clans, Storage.get_watch_players.
  rewrite Hst. destruct (replay_frame evs st) as (-> & -> & ->).
  repeat split. apply replay_history.
Qed.

(** X24. Every effect of a poll cycle belongs to a defined metric of the
    iteration order.  A snapshot is written only for a metric with an alert
    threshold.  A spike alert is about a metric of the order, reports a gain
    of at least that metric's threshold and never concerns the configured
    clan; a watch alert is sent only while tracking is on, for a gain above
    zero, and under the group of a metric of the order. *)
Theorem cycle_effects_belong_to_metrics (w : World) (cfg : Config.Settings)
    (order : list string) (st : State) :
  let evs := events_since st (cycle_state (post_walobots_update w cfg order st)) in
  List.Forall (cycle_event cfg (is_tracking_enabled st) order) evs
  ∧ List.Forall (fun s => In (Storage.metric_key s) order
                          ∧ is_Some (METRICS !! Storage.metric_key s)
                          ∧ is_Some (ALERT_THRESHOLDS !! Storage.metric_key s))
                (snapshots evs)
  ∧ (∀ msg ok, In (SendAttempt msg ok) evs →
       (kind msg = SPIKE ∧ In (what msg) order
        ∧ (∃ limit, ALERT_THRESHOLDS !! what msg = Some limit ∧ (limit <= delta msg)%Q)
        ∧ PyStr.lower (who msg) ≠ PyStr.lower (Config.clan_name cfg))
       ∨ (kind msg ≠ SPIKE ∧ is_tracking_enabled st = true ∧ (0 < delta msg)%Q
          ∧ ∃ k info, In k order ∧ METRICS !! k = Some info
                      ∧ in_group msg = Some (group info))).
Proof.
  intros evs. destruct (cycle_events w cfg order st) as (_ & _ & Hall & _).
  fold evs in Hall. unfold is_tracking_enabled. split; [exact Hall|]. split.
  - unfold snapshots. induction Hall as [|e l He _ IH]; [constructor|].
    destruct e; try exact IH. cbn [omap list_omap]. constructor; [|exact IH].
    destruct He as (k & info & Hk & Hinfo & [[Hthr He] | [_ [[] | []]]]).
    simpl in He. subst k. split; [exact Hk|]. split; [by eexists | exact Hthr].
  - intros msg ok Hin. rewrite List.Forall_forall in Hall.
    destruct (Hall _ Hin) as (k & info & Hk & Hinfo & He). simpl in He.
    destruct He as [[_ (Hkind & Hwhat & Hlimit & Hown)]
                   | [Htr [(Hkind & Hgrp & Hpos) | (Hkind & Hgrp & Hpos)]]].
    + left. subst k. auto.
    + right. rewrite Hkind. split; [discriminate|]. split; [exact Htr|].
      split; [exact Hpos|]. exists k, info.
      split; [exact Hk|]. split; [exact Hinfo | exact Hgrp].
    + right. rewrite Hkind. split; [discriminate|]. split; [exact Htr|].
      split; [exact Hpos|]. exists k, info.
      split; [exact Hk|]. split; [exact Hinfo | exact Hgrp].
Qed.

(** Effects that the cycle has when tracking is off. *)
Definition spike_only (e : Event) : Prop :=
    match e with
    | ClanFetch _ _ | SnapshotAdded _ | MetricCacheSet _ _ => True
    | SendAttempt msg _ => kind msg = SPIKE
    | _ => False
    end.

Lemma replay_spike_only evs st :
  List.Forall spike_only evs →
  WATCH_CLAN_LAST_VALUES (replay evs st) = WATCH_CLAN_LAST_VALUES st
  ∧ WATCH_PLAYER_LAST_VALUES (replay evs st) = WATCH_PLAYER_LAST_VALUES st.
Proof.
  intros H. revert st. induction H as [|e l He _ IH]; intros st; simpl; [done|].
  destruct (IH (apply_event st e)) as [-> ->]. by destruct e.
Qed.

(** The fetches of a cycle, read off its trace. *)
Lemma cycle_fetches w cfg order st :
  let out := post_walobots_update w cfg order st in
  let evs := events_since st (cycle_state out) in
  clan_fetches evs `prefix_of` defined_metrics order
  ∧ ((∃ r, out = Done r) → clan_fetches evs = defined_metrics order)
  ∧ summary (mkCycle ∅ 0 ∅) out evs.
Proof.
  intros out evs. subst evs out. unfold post_walobots_update.
  destruct (post_walobots_update_ok w cfg order (st, mkCycle ∅ 0 ∅))
    as (evs & Htr & Hsum & Hcl & Hdone & _).
  simpl in Htr. by rewrite (events_since_app _ _ _ Htr).
Qed.

(** X25. A poll cycle that starts with tracking off, and during which no
    command turns it on, still fetches clan leaderboards (those of the
    defined metrics, in order, up to the metric at which an exception leaves
    the cycle, and all of them when the cycle returns), logs snapshots and
    sends spike alerts, but it leaves the two watch caches as they were,
    fetches no player leaderboard and sends no watch alert. *)
Theorem cycle_with_tracking_off (w : World) (cfg : Config.Settings)
    (order : list string) (st : State)
    (Hoff : is_tracking_enabled st = false) :
  let out := post_walobots_update w cfg order st in
  let st' := cycle_state out in
  let evs := events_since st st' in
  WATCH_CLAN_LAST_VALUES st' = WATCH_CLAN_LAST_VALUES st
  ∧ WATCH_PLAYER_LAST_VALUES st' = WATCH_PLAYER_LAST_VALUES st
  ∧ player_fetches evs = []
  ∧ clan_fetches evs `prefix_of` defined_metrics order
  ∧ ((∃ r, out = Done r) → clan_fetches evs = defined_metrics order)
  ∧ (∀ msg ok, In (SendAttempt msg ok) evs → kind msg = SPIKE).
Proof.
  intros out st' evs. destruct (cycle_events w cfg order st) as (Hst & _ & Hall & _).
  fold out in Hst, Hall. fold st' in Hst, Hall. fold evs in Hst, Hall.
  unfold is_tracking_enabled in Hoff. rewrite Hoff in Hall.
  assert (Hquiet : List.Forall spike_only evs).
  { eapply List.Forall_impl; [|exact Hall].
    intros e (k & info & _ & _ & He). destruct e; simpl in *; try exact I;
      destruct He as [[_ He] | [[=] _]]; try destruct He as [He _]; done. }
  rewrite Hst. destruct (replay_spike_only evs st Hquiet) as [-> ->].
  split; [reflexivity|]. split; [reflexivity|]. split; [|split; [|split]].
  - clear -Hquiet. unfold player_fetches.
    induction Hquiet as [|e l He _ IH]; [reflexivity|]. by destruct e.
  - exact (proj1 (cycle_fetches w cfg order st)).
  - exact (proj1 (proj2 (cycle_fetches w cfg order st))).
  - intros msg ok Hin. rewrite List.Forall_forall in Hquiet. exact (Hquiet _ Hin).
Qed.

(** The bot's loop: one poll cycle after the other, each with its own
    iteration order of the metric keys, each from the module state that the
    one before left behind, whether that one returned or was left by an
    exception. *)
Definition run_cycles (w : World) (cfg : Config.Settings) (orders : list (list string))
      (st : State) : State :=
    fold_left (fun s order => cycle_state (post_walobots_update w cfg order s)) orders st.

(** X26. Under a clock that does not run backwards, and from a history
    without a timestamp of the future, no number of poll cycles leaves a
    snapshot stamped later than the clock reads afterwards: whenever the trend
    view is rendered later, no stored snapshot is newer than its "now". *)
Theorem history_never_ahead_of_clock (w : World) (cfg : Config.Settings)
    (orders : list (list string)) (st : State)
    (Hmono : monotone_clock w) (Hstart : stamped_by w st) :
  let st' := run_cycles w cfg orders st in
  stamped_by w st'
  ∧ ∀ n, (length (trace st') ≤ n)%nat →
      List.Forall (fun s => (Storage.ts s <= clock w n)%Z)
                  (Storage.clan_metric_history (db st')).
Proof.
  intros st'.
  assert (Hst : stamped_by w st').
  { subst st'. unfold run_cycles. revert st Hstart.
    induction orders as [|order orders IH]; intros st Hstart; simpl; [exact Hstart|].
    by apply IH, post_walobots_update_stamped. }
  split; [exact Hst|]. intros n Hn.
  eapply List.Forall_impl; [|exact Hst]. intros s Hs. simpl in Hs.
  pose proof (Hmono _ _ Hn). lia.
Qed.

Lemma clan_fetch_listed k r evs : In (ClanFetch k r) evs → In k (clan_fetches evs).
Proof.
  unfold clan_fetches. induction evs as [|e evs IH]; [intros []|].
  intros [-> | Hin]; [by left|]. cbn [omap list_omap].
  destruct e; try (right; by apply IH); by apply IH.
Qed.

(** X27. An entry of the top-two summary that a poll cycle hands to the
    leaderboard view, which it does when its loop returns, is for a metric
    of the iteration order, and holds the first entry of a clan leaderboard
    fetched for that metric in this cycle and the entry after it, or nothing
    when the leaderboard has a single entry. *)
Theorem top2_read_from_this_cycle (w : World) (cfg : Config.Settings)
    (order : list string) (st st' : State) (cy : Cycle)
    (key : string) (top1 : Entry) (top2 : option Entry)
    (Hout : post_walobots_update w cfg order st = Done (st', cy))
    (Hentry : stats_for_leaderboard cy !! key = Some (top1, top2)) :
  In key order
  ∧ ∃ rest, In (ClanFetch key (Returned (Some (top1 :: rest)))) (events_since st st')
            ∧ top2 = head rest.
Proof.
  destruct (cycle_fetches w cfg order st) as (Hpre & _ & Hsum).
  rewrite Hout in Hsum, Hpre. unfold cycle_state in Hsum, Hpre.
  cbn [left_by fst] in Hsum, Hpre.
  destruct (sum_top2 _ _ _ Hsum (st', cy) eq_refl key top1 top2 Hentry)
    as [Hold | (rest & Hin & Htop)].
  { cbn [stats_for_leaderboard] in Hold. by rewrite lookup_empty in Hold. }
  split; [|by exists rest].
  apply clan_fetch_listed in Hin. destruct Hpre as [tail Htail].
  assert (Hdef : In key (defined_metrics order)).
  { rewrite Htail. apply in_or_app. by left. }
  unfold defined_metrics in Hdef. by apply filter_In in Hdef as [Hdef _].
Qed.

End PollFacts.

(** ** Further scenarios *)

Module FurtherScenarios.

Import PyStr Storage Leaderboard RustinityClient Watchers Commands ConfigParse.
Import StripFacts ConfigFacts CommandFacts WindowFacts CycleFacts ClockFacts PollFacts.

Lemma parse_csv_round_trip_witness :
  List.Forall (clean ",") [ "Alpha"; "bravo c" ]
  ∧ _parse_csv (Some "Alpha,bravo c") = [ "Alpha"; "bravo c" ].
Proof.
  assert (H : List.Forall (clean ",") [ "Alpha"; "bravo c" ]).
  { apply List.Forall_cons; [split; [discriminate | split; reflexivity]|].
    apply List.Forall_cons; [split; [discriminate | split; reflexivity]|].
    apply List.Forall_nil. }
  split; [exact H | exact (proj1 (parse_csv_round_trip _ H))].
Defined.

(** The example of the docstring of [_parse_overrides]. *)
Definition docstring_overrides : list (string * string) :=
    [ ("7656119...", "fatalis"); ("7656111...", "win") ].

Lemma parse_overrides_round_trip_witness :
  List.Forall (fun e => override_ok e.1 e.2) docstring_overrides
  ∧ _parse_overrides (Some "7656119...:fatalis,7656111...:win")
    = list_to_map (rev docstring_overrides).
Proof.
  assert (H : List.Forall (fun e => override_ok e.1 e.2) docstring_overrides).
  { apply List.Forall_cons;
      [split; [split; [discriminate | split; reflexivity]|];
       split; [reflexivity|]; split; [discriminate | split; reflexivity]|].
    apply List.Forall_cons;
      [split; [split; [discriminate | split; reflexivity]|];
       split; [reflexivity|]; split; [discriminate | split; reflexivity]|].
    apply List.Forall_nil. }
  split; [exact H | exact (proj1 (parse_overrides_round_trip _ H))].
Defined.

Lemma link_command_witness :
  (∀ u linked, Links.get_linked_steam_id u (∅ : gmap Z string) = Some linked →
     _is_valid_steam_id linked = true)
  ∧ Links.get_linked_steam_id 42 (link_command 42 " 76561198375218320 " ∅).2
    = Some "76561198375218320".
Proof.
  assert (H : ∀ u linked, Links.get_linked_steam_id u (∅ : gmap Z string) = Some linked →
                _is_valid_steam_id linked = true).
  { intros u linked Hu. unfold Links.get_linked_steam_id in Hu.
    rewrite lookup_empty in Hu. discriminate. }
  split; [exact H|].
  pose proof (link_command_links_valid_ids 42 " 76561198375218320 " ∅ H) as Hlink.
  cbv zeta in Hlink. destruct Hlink as (_ & Hok & _).
  exact (proj2 (Hok eq_refl)).
Defined.

Lemma untrack_player_witness :
  blank (Some " 76561198000000001 ") = false
  ∧ get_watch_players
      (untrack_player_command (Some " 76561198000000001 ")
         (init_db Scenarios.walobots empty_db)).2
    = get_watch_players (init_db Scenarios.walobots empty_db) ∖ {[ "76561198000000001" ]}.
Proof.
  split; [reflexivity|].
  pose proof (untrack_player_command_removes " 76561198000000001 "
                (init_db Scenarios.walobots empty_db) eq_refl) as H.
  cbv zeta in H. destruct H as (_ & H & _). exact H.
Defined.

Lemma track_untrack_witness :
  blank (Some " Walobots ") = false
  ∧ lower (strip " Walobots ") = lower (strip "WALOBOTS")
  ∧ get_watch_clans
      (untrack_command (Some "WALOBOTS") (track_command (Some " Walobots ") empty_db).2).2
    = get_watch_clans empty_db ∖ {[ "walobots" ]}.
Proof.
  split; [reflexivity|]. split; [reflexivity|].
  exact (proj1 (proj2 (proj2 (proj2 (proj2
           (track_untrack_variants " Walobots " "WALOBOTS" empty_db eq_refl eq_refl)))))).
Defined.

(** Three snapshots of one clan inside the window, the middle one inserted
    last. *)
Definition three_snapshots : Database :=
    {| clan_metric_history :=
         [ mkSnapshot "looted_hackable" "Alpha" 1000 (Some 3%Z) (Some 5%Q);
           mkSnapshot "looted_hackable" "Alpha" 4600 (Some 1%Z) (Some 15%Q);
           mkSnapshot "looted_hackable" "Alpha" 2000 (Some 2%Z) (Some 9%Q) ];
       watch_clans := ∅;
       watch_players := ∅ |}.

Lemma changes_span_witness :
  In ("Alpha", mkChange 5 15 1)
     (get_clan_metric_changes 5000 "looted_hackable" 12 three_snapshots)
  ∧ ∃ first last,
      (∀ s, In s (clan_metric_history three_snapshots) ∧ metric_key s = "looted_hackable"
            ∧ clan_name s = "Alpha" ∧ (5000 - 12 * 3600 <= ts s)%Z →
            (ts first <= ts s <= ts last)%Z)
      ∧ 5%Q = default 0%Q (value first)
      ∧ 15%Q = default 0%Q (value last).
Proof.
  assert (H : In ("Alpha", mkChange 5 15 1)
                 (get_clan_metric_changes 5000 "looted_hackable" 12 three_snapshots))
    by (vm_compute; by left).
  split; [exact H|].
  pose proof (changes_span_the_window 5000 12 "looted_hackable" three_snapshots
                "Alpha" (mkChange 5 15 1) H) as Hspan.
  cbv zeta in Hspan. destruct Hspan as (first & last & _ & _ & Hall & Hs & He & _).
  exists first, last. split; [exact Hall|]. split; [exact Hs | exact He].
Defined.

Lemma tracking_off_witness :
  is_tracking_enabled Scenarios.fresh = false
  ∧ WATCH_CLAN_LAST_VALUES
      (cycle_state
         (post_walobots_update (Scenarios.world true) Scenarios.walobots
            [ "looted_hackable"; "pvp_kills" ] Scenarios.fresh))
    = WATCH_CLAN_LAST_VALUES Scenarios.fresh
  ∧ player_fetches
      (DeltaFacts.events_since Scenarios.fresh
         (cycle_state
            (post_walobots_update (Scenarios.world true) Scenarios.walobots
               [ "looted_hackable"; "pvp_kills" ] Scenarios.fresh)))
    = [].
Proof.
  split; [reflexivity|].
  pose proof (cycle_with_tracking_off (Scenarios.world true) Scenarios.walobots
                [ "looted_hackable"; "pvp_kills" ] Scenarios.fresh eq_refl) as H.
  cbv zeta in H. destruct H as (Hclan & _ & Hfetch & _).
  split; [exact Hclan | exact Hfetch].
Defined.

(** A world whose API answers every request with one row for clan Alpha
    that carries the count of hackable crates, 50 at first and 60 from the
    second cycle on. *)
Definition crates_world : World :=
    {| send_ok := fun _ _ => true;
       clock := fun n => (1700000000 + Z.of_nat n)%Z;
       http_get := fun n _ =>
         JsonBody (Some [Object (Scenarios.hackable_row (if (n <? 3)%nat then 50 else 60))]) |}.

(** Two cycles in that world log a snapshot each, the second with a spike
    alert. *)
Definition two_crate_cycles : State :=
    run_cycles crates_world Scenarios.walobots
               [ [ "looted_hackable" ]; [ "looted_hackable" ] ] Scenarios.fresh.

Lemma history_clock_witness :
  monotone_clock crates_world
  ∧ stamped_by crates_world Scenarios.fresh
  ∧ map Scenarios.untimed (clan_metric_history (db two_crate_cycles))
    = [ ("looted_hackable", "Alpha", Some 1%Z, Some 50%Q);
        ("looted_hackable", "Alpha", Some 1%Z, Some 60%Q) ]
  ∧ map ts (clan_metric_history (db two_crate_cycles)) = [ 1700000001; 1700000004 ]%Z
  ∧ length (trace two_crate_cycles) = 7%nat
  ∧ stamped_by crates_world two_crate_cycles
  ∧ List.Forall (fun s => (ts s <= clock crates_world 7)%Z)
                (clan_metric_history (db two_crate_cycles)).
Proof.
  assert (Hmono : monotone_clock crates_world).
  { intros i j Hij. simpl. lia. }
  assert (Hstart : stamped_by crates_world Scenarios.fresh)
    by apply List.Forall_nil.
  assert (Hlen : length (trace two_crate_cycles) = 7%nat) by (vm_compute; reflexivity).
  split; [exact Hmono|]. split; [exact Hstart|].
  split; [vm_compute; reflexivity|]. split; [vm_compute; reflexivity|].
  split; [exact Hlen|].
  pose proof (history_never_ahead_of_clock crates_world Scenarios.walobots
                [ [ "looted_hackable" ]; [ "looted_hackable" ] ] Scenarios.fresh
                Hmono Hstart) as H.
  cbv zeta in H. destruct H as [Hst Hall].
  split; [exact Hst|]. apply Hall. fold two_crate_cycles. rewrite Hlen. lia.
Defined.

Lemma top2_witness :
  (∃ st' cy,
     post_walobots_update (Scenarios.world true) Scenarios.walobots [ "pvp_kills" ]
                          Scenarios.fresh = Done (st', cy)
     ∧ stats_for_leaderboard cy !! "pvp_kills"
       = Some (Object (Scenarios.clan_row "Alpha" 1 "kill_player" 10), None))
  ∧ In "pvp_kills" [ "pvp_kills" ].
Proof.
  destruct (post_walobots_update (Scenarios.world true) Scenarios.walobots
              [ "pvp_kills" ] Scenarios.fresh) as [[st' cy]|s] eqn:Hout;
    [|vm_compute in Hout; discriminate].
  assert (H : stats_for_leaderboard cy !! "pvp_kills"
              = Some (Object (Scenarios.clan_row "Alpha" 1 "kill_player" 10), None)).
  { assert (Hcy : outcome_map (fun r : State * Cycle => stats_for_leaderboard r.2)
                    (post_walobots_update (Scenarios.world true) Scenarios.walobots
                       [ "pvp_kills" ] Scenarios.fresh)
                  = Done {[ "pvp_kills" := (Object (Scenarios.clan_row "Alpha" 1
                                                      "kill_player" 10), None) ]})
      by (vm_compute; reflexivity).
    rewrite Hout in Hcy. injection Hcy as ->. apply lookup_singleton_eq. }
  split; [exists st', cy; split; [reflexivity | exact H]|].
  exact (proj1 (top2_read_from_this_cycle (Scenarios.world true) Scenarios.walobots
                  [ "pvp_kills" ] Scenarios.fresh st' cy "pvp_kills" _ _ Hout H)).
Defined.

End FurtherScenarios.
